(** * scn2cam: camera scoring, viewpoint masks, candidate selection and
      trajectory resampling

    A shallow embedding of [src/apps/scn2cam/scn2cam.cpp].

    Conventions of the embedding.
    - The C++ type [int] is a 32-bit two's complement integer, kept as a
      [Z] together with the wrap-around of every operation ([Int.wrap]).
    - [RNScalar] (a [double]) is kept as an exact rational [Q] wherever the
      program only adds, multiplies, divides, compares or truncates it;
      rounding, infinities and NaN are outside the embedding.  Camera
      scores, which pass through [log], are real numbers [R].
    - Program-wide configuration variables are fields of [Config].
    - The scene graph is the array [scene->Node(i)]; a node pointer is its
      index in that array.
    - What the program only calls in the geometry packages and the C
      library is a field of one of the classes [AffineKernel] (affine
      transformations), [Renderer] (the two rendering back ends),
      [SceneQuery] (ray casting, distances, random numbers), [Rasterizer]
      (grids), [ViewSampler] (the vector algebra of camera poses) and
      [SplineKernel] (splines); the properties hold for every instance.
    - A function of those packages whose result a property depends on and
      that is not part of the program file is a definition marked
      "Modelled from the spec". *)

From Stdlib Require Import ZArith QArith Qround Qminmax Reals String Ascii DecimalString List FinFun Bool Lia Psatz.
Import ListNotations.

Open Scope Z_scope.

(** ** The C++ [int] *)

Module Int.

Definition MIN : Z := - 2 ^ 31.
Definition MAX : Z := 2 ^ 31 - 1.

Definition wrap (z : Z) : Z := (z + 2 ^ 31) mod 2 ^ 32 - 2 ^ 31.

Definition in_range (z : Z) : Prop := MIN <= z <= MAX.

Definition add (a b : Z) : Z := wrap (a + b).
Definition mul (a b : Z) : Z := wrap (a * b).

(** [a / b] on [int]: the quotient truncated towards zero. *)
Definition div (a b : Z) : Z := wrap (Z.quot a b).

(** Truncation of a rational towards zero. *)
Definition trunc (q : Q) : Z := Z.quot (Qnum q) (Zpos (Qden q)).

(** The conversion [(int) x] of a [double]: the truncation towards zero.
    C++ leaves the conversion of a value outside the range of [int]
    undefined; here it wraps around like the arithmetic does. *)
Definition of_double (q : Q) : Z := wrap (trunc q).

End Int.

(** [a < b] on rationals. *)
Definition Qlt_bool (a b : Q) : bool := negb (Qle_bool b a).

(** ** Strings of the C library *)

(** [strncmp(s, p, strlen(p)) == 0]. *)
Definition has_prefix (p s : string) : bool := String.prefix p s.

(** [strstr(s, p) != NULL]. *)
Definition has_substring (p s : string) : bool :=
  match String.index 0 p s with
  | Some _ => true
  | None => false
  end.

(** ** Geometry *)

Record R3Point := mkR3Point { px : Q; py : Q; pz : Q }.
Definition R3Vector := R3Point.

Record R2Point := mkR2Point { p2x : Q; p2y : Q }.

Record R2Box := mkR2Box { b2_xmin : Q; b2_ymin : Q; b2_xmax : Q; b2_ymax : Q }.

Definition XLength2 (b : R2Box) : Q := b2_xmax b - b2_xmin b.
Definition YLength2 (b : R2Box) : Q := b2_ymax b - b2_ymin b.

Record R3Box := mkR3Box {
  XMin : Q; YMin : Q; ZMin : Q;
  XMax : Q; YMax : Q; ZMax : Q
}.

(** [R2Grid]: a resolution, a world box and one value per entry; the entry
    of cell [(ix, iy)] has index [ix + iy * XResolution]. *)
Record R2Grid := mkR2Grid {
  XResolution : Z;
  YResolution : Z;
  WorldBox : R2Box;
  GridValue : Z -> Q
}.

Definition NEntries (g : R2Grid) : Z := Int.mul (XResolution g) (YResolution g).

Definition CellValue (g : R2Grid) (ix iy : Z) : Q :=
  GridValue g (ix + iy * XResolution g).

Definition null_box2 : R2Box := mkR2Box 0 0 0 0.

(** [R2Grid(xres, yres)] and [R2Grid(xres, yres, bbox)]: all entries zero. *)
Definition R2Grid_new (xres yres : Z) (bbox : R2Box) : R2Grid :=
  mkR2Grid xres yres bbox (fun _ => 0%Q).

(** ** Cameras *)

Record R3Camera := mkR3Camera {
  Origin : R3Point;
  Towards : R3Vector;
  Up : R3Vector;
  XFOV : Q;
  YFOV : Q;
  Near : Q;
  Far : Q;
  Value : R
}.

Definition SetValue (c : R3Camera) (v : R) : R3Camera :=
  mkR3Camera (Origin c) (Towards c) (Up c) (XFOV c) (YFOV c) (Near c) (Far c) v.

Definition origin3 : R3Point := mkR3Point 0 0 0.

(** Modelled from the spec: the default constructor [R3Camera()] of the
    graphics package, which is not part of the program file.  The spec's
    data model gives a camera the scalar [value] "(quality score, default
    0)". *)
Definition R3Camera_default : R3Camera :=
  mkR3Camera origin3 origin3 origin3 0 0 0 0 0%R.

(** [struct Camera : public R3Camera] with its [char *name]. *)
Record Camera := mkCamera {
  base : R3Camera;
  name : option string
}.

(** ** The scene graph *)

Definition NodeId := Z.

(** A triangle with its vertex positions and its area. *)
Record R3Triangle := mkR3Triangle {
  V0 : R3Point;
  V1 : R3Point;
  V2 : R3Point;
  TriangleArea : Q
}.

(** A shape of a scene element: a triangle array or some other shape, of
    which the program reads the area only. *)
Inductive R3Shape :=
| TriangleArray (triangles : list R3Triangle)
| OtherShape (area : Q).

Definition Qsum (l : list Q) : Q := fold_right Qplus 0%Q l.

(** [shape->Area()] *)
Definition ShapeArea (shape : R3Shape) : Q :=
  match shape with
  | TriangleArray triangles => Qsum (map TriangleArea triangles)
  | OtherShape area => area
  end.

Definition R3SceneElement := list R3Shape.

(** [R3Affine] of the geometry package, as far as the program calls it. *)
Class AffineKernel := {
  R3Affine : Type;
  R3identity_affine : R3Affine;
  (** [a.Transform(b)] *)
  AffineTransform : R3Affine -> R3Affine -> R3Affine;
  (** [box.Transform(a)] *)
  BoxTransform : R3Box -> R3Affine -> R3Box;
  (** [point.Transform(a)] *)
  PointTransform : R3Point -> R3Affine -> R3Point;
  (** [a.ScaleFactor()] *)
  ScaleFactor : R3Affine -> Q
}.

Section SceneGraph.

Context {AK : AffineKernel}.

Record R3SceneNode := mkNode {
  Name : option string;
  Parent : option NodeId;
  Children : list NodeId;
  Transformation : R3Affine;
  BBox : R3Box;
  Elements : list R3SceneElement
}.

Record R3Scene := mkScene {
  Nodes : list R3SceneNode;
  Root : NodeId
}.

Definition NNodes (scene : R3Scene) : Z := Z.of_nat (length (Nodes scene)).

Definition Node (scene : R3Scene) (i : NodeId) : option R3SceneNode :=
  if i <? 0 then None else nth_error (Nodes scene) (Z.to_nat i).

Definition NChildren (node : R3SceneNode) : Z := Z.of_nat (length (Children node)).

Definition Child (node : R3SceneNode) (i : Z) : option NodeId :=
  if i <? 0 then None else nth_error (Children node) (Z.to_nat i).

(** [IsObject]: a leaf whose name marks it neither as walls, floors,
    ceilings, a door nor a window. *)
Definition IsObject (node : R3SceneNode) : bool :=
  if NChildren node >? 0 then false else
  match Name node with
  | None => true
  | Some nm =>
      if has_prefix "Walls#" nm then false else
      if has_prefix "Floors#" nm then false else
      if has_prefix "Ceilings#" nm then false else
      if has_substring "Door" nm then false else
      if has_substring "Window" nm then false else
      true
  end.

(** The loop [while (ancestor) { tmp = identity; tmp.Transform(ancestor->
    Transformation()); tmp.Transform(transformation); transformation = tmp;
    ancestor = ancestor->Parent(); }].  The walk follows parent pointers;
    [fuel] bounds its length (the number of nodes of the scene is enough
    for a tree). *)
Fixpoint AncestorTransformation (scene : R3Scene) (fuel : nat)
    (ancestor : option NodeId) (transformation : R3Affine) : R3Affine :=
  match fuel, ancestor with
  | S fuel', Some a =>
      match Node scene a with
      | Some nd =>
          let tmp := AffineTransform R3identity_affine (Transformation nd) in
          let tmp := AffineTransform tmp transformation in
          AncestorTransformation scene fuel' (Parent nd) tmp
      | None => transformation
      end
  | _, _ => transformation
  end.

End SceneGraph.

(** ** Configuration: the program variables *)

Record Config := mkConfig {
  width : Z;
  height : Z;
  xfov : Q;
  eye_height : Q;
  eye_height_radius : Q;
  position_sampling : Q;
  angle_sampling : Q;
  interpolation_step : Q;
  scene_scoring_method : Z;
  object_scoring_method : Z;
  min_visible_objects : Q;
  min_visible_fraction : Q;
  min_distance_from_obstacle : Q;
  min_score : Q;
  glut : bool;
  mesa : bool
}.

Definition NODE_INDEX_IMAGE : Z := 0.

(** One call of the renderer: the root of the subtree that is drawn, the
    selected node and the image type. *)
Record RenderCall := mkRenderCall {
  rc_camera : R3Camera;
  rc_root : NodeId;
  rc_selected : option NodeId;
  rc_image_type : Z
}.

(** The rendering back ends and the grid constant the scoring code reads. *)
Class Renderer {AK : AffineKernel} := {
  (** [R2_GRID_UNKNOWN_VALUE] *)
  R2_GRID_UNKNOWN_VALUE : Q;
  (** [RenderImageWithOpenGL]: the entries written into the image *)
  RenderImageWithOpenGL :
    R2Grid -> R3Camera -> R3Scene -> NodeId -> option NodeId -> Z -> Z -> Q;
  (** [RenderImageWithRayCasting]: the entries written into the image *)
  RenderImageWithRayCasting :
    R2Grid -> R3Camera -> R3Scene -> NodeId -> option NodeId -> Z -> Z -> Q
}.

Section Scoring.

Context {AK : AffineKernel} {RD : Renderer}.
Variable cfg : Config.

Definition SetGridValues (image : R2Grid) (values : Z -> Q) : R2Grid :=
  mkR2Grid (XResolution image) (YResolution image) (WorldBox image) values.

(** [RenderImage]: OpenGL when [glut || mesa], ray casting otherwise. *)
Definition RenderImage (image : R2Grid) (camera : R3Camera) (scene : R3Scene)
    (root_node : NodeId) (selected_node : option NodeId) (image_type : Z)
    : R2Grid :=
  if glut cfg || mesa cfg
  then SetGridValues image
         (RenderImageWithOpenGL image camera scene root_node selected_node image_type)
  else SetGridValues image
         (RenderImageWithRayCasting image camera scene root_node selected_node image_type).

(** The integers [0, 1, ..., n-1] of a loop [for (int i = 0; i < n; i++)]. *)
Definition indices (n : Z) : list Z := map Z.of_nat (seq 0 (Z.to_nat n)).

(** [a[i]++] on an [int] array. *)
Fixpoint array_incr (a : list Z) (i : nat) : list Z :=
  match a, i with
  | [], _ => []
  | c :: r, O => Int.add c 1 :: r
  | c :: r, S k => c :: array_incr r k
  end.

(** [a[i]] on an [int] array. *)
Definition array_get (a : list Z) (i : Z) : Z := nth (Z.to_nat i) a 0.

(** The body of the loop that logs the pixel counts. *)
Definition log_pixel (nnodes : Z) (node_pixel_counts : list Z) (value : Q) : list Z :=
  if Qeq_bool value R2_GRID_UNKNOWN_VALUE then node_pixel_counts else
  let node_index := Int.of_double (value + (1 # 2))%Q in
  if (node_index <? 0) || (node_index >=? nnodes) then node_pixel_counts else
  array_incr node_pixel_counts (Z.to_nat node_index).

Definition count_node_pixels (scene : R3Scene) (image : R2Grid) : list Z :=
  fold_left
    (fun counts i => log_pixel (NNodes scene) counts (GridValue image i))
    (indices (NEntries image))
    (repeat 0 (length (Nodes scene))).

(** Scoring method 0: the loop counting the nodes and pixels visible on
    all objects of large enough size; the result is [(node_count,
    pixel_count)]. *)
Definition count_visible_objects (scene : R3Scene) (node_pixel_counts : list Z)
    (min_pixel_count_per_object : Z) : Z * Z :=
  fold_left
    (fun acc i =>
       let '(node_count, pixel_count) := acc in
       match Node scene i with
       | None => acc
       | Some node =>
           if negb (IsObject node) then acc else
           if array_get node_pixel_counts i <=? min_pixel_count_per_object then acc else
           (Int.add node_count 1, Int.add pixel_count (array_get node_pixel_counts i))
       end)
    (indices (NNodes scene))
    (0, 0).

(** The C library's [log] on an argument that came from an [int].  The
    two agree on positive arguments; on the others [log] has no finite
    value and [ln] is 0, and no property below relies on them. *)
Definition log_int (n : Z) : R := ln (IZR n).

(** Scoring method 1: the loop summing the logarithms; the result is
    [(sum, node_count)]. *)
Definition sum_visible_logs (scene : R3Scene) (node_pixel_counts : list Z)
    (min_pixel_count_per_object : Z) : R * Z :=
  fold_left
    (fun acc i =>
       let '(sum, node_count) := acc in
       match Node scene i with
       | None => acc
       | Some node =>
           if negb (IsObject node) then acc else
           if array_get node_pixel_counts i <=? min_pixel_count_per_object then acc else
           ((sum + log_int (Int.div (array_get node_pixel_counts i)
                                    min_pixel_count_per_object))%R,
            Int.add node_count 1)
       end)
    (indices (NNodes scene))
    (0%R, 0).

(** [node_count > min_visible_objects], an [int] against a [double]. *)
Definition enough_objects (node_count : Z) : bool :=
  negb (Qle_bool (inject_Z node_count) (min_visible_objects cfg)).

(** The part of [SceneCoverageScore] after the rendering: the pixel counts
    and the score computed from them. *)
Definition score_image (scene : R3Scene) (image : R2Grid)
    (max_pixel_count min_pixel_count_per_object : Z) : R :=
  let node_pixel_counts := count_node_pixels scene image in
  if scene_scoring_method cfg =? 0 then
    let '(node_count, pixel_count) :=
      count_visible_objects scene node_pixel_counts min_pixel_count_per_object in
    if enough_objects node_count
    then (IZR (Int.mul node_count pixel_count) / IZR max_pixel_count)%R
    else 0%R
  else if scene_scoring_method cfg =? 1 then
    let '(sum, node_count) :=
      sum_visible_logs scene node_pixel_counts min_pixel_count_per_object in
    if enough_objects node_count then sum else 0%R
  else 0%R.

(** [SceneCoverageScore(camera, scene, parent_node)]: the score together
    with the calls of the renderer it made. *)
Definition SceneCoverageScore (camera : R3Camera) (scene : R3Scene)
    (parent_node : option NodeId) : R * list RenderCall :=
  let image := R2Grid_new (width cfg) (height cfg) null_box2 in
  let max_pixel_count := Int.mul (width cfg) (height cfg) in
  if max_pixel_count =? 0 then (0%R, []) else
  let min_pixel_count_per_object :=
    Int.of_double (min_visible_fraction cfg * inject_Z max_pixel_count) in
  if min_pixel_count_per_object =? 0 then (0%R, []) else
  let image := RenderImage image camera scene (Root scene) None NODE_INDEX_IMAGE in
  let calls := [mkRenderCall camera (Root scene) None NODE_INDEX_IMAGE] in
  (score_image scene image max_pixel_count min_pixel_count_per_object, calls).

(** The nodes that pass the two tests of the scoring loops, in the order
    of the loops. *)
Definition counted_nodes (scene : R3Scene) (node_pixel_counts : list Z)
    (min_pixel_count_per_object : Z) : list Z :=
  filter
    (fun i =>
       match Node scene i with
       | Some node =>
           IsObject node
           && negb (array_get node_pixel_counts i <=? min_pixel_count_per_object)
       | None => false
       end)
    (indices (NNodes scene)).

(** *** The scoring as the specification words it *)

(** The root of the rendering "restricted to a room subtree when
    [roomNode] given". *)
Definition spec_render_root (scene : R3Scene) (parent_node : option NodeId) : NodeId :=
  match parent_node with
  | Some room => room
  | None => Root scene
  end.

(** The scene coverage score with the image rendered from
    [spec_render_root]. *)
Definition SceneCoverageScore_restricted (camera : R3Camera) (scene : R3Scene)
    (parent_node : option NodeId) : R * list RenderCall :=
  let image := R2Grid_new (width cfg) (height cfg) null_box2 in
  let max_pixel_count := Int.mul (width cfg) (height cfg) in
  if max_pixel_count =? 0 then (0%R, []) else
  let min_pixel_count_per_object :=
    Int.of_double (min_visible_fraction cfg * inject_Z max_pixel_count) in
  if min_pixel_count_per_object =? 0 then (0%R, []) else
  let root := spec_render_root scene parent_node in
  let image := RenderImage image camera scene root None NODE_INDEX_IMAGE in
  let calls := [mkRenderCall camera root None NODE_INDEX_IMAGE] in
  (score_image scene image max_pixel_count min_pixel_count_per_object, calls).

(** The image a call of [SceneCoverageScore] scores. *)
Definition scored_image (camera : R3Camera) (scene : R3Scene) : R2Grid :=
  RenderImage (R2Grid_new (width cfg) (height cfg) null_box2) camera scene
              (Root scene) None NODE_INDEX_IMAGE.

(** An entry of the image shows the node [i]. *)
Definition shows_node (nnodes : Z) (value : Q) (i : Z) : bool :=
  negb (Qeq_bool value R2_GRID_UNKNOWN_VALUE)
  && (0 <=? i) && (i <? nnodes)
  && (Int.of_double (value + (1 # 2))%Q =? i).

(** The number of entries among [es] that show the node [i]. *)
Definition shown (nnodes : Z) (image : R2Grid) (es : list Z) (i : Z) : Z :=
  Z.of_nat (length (filter (fun e => shows_node nnodes (GridValue image e) i) es)).

(** The visible pixel count of node [i]: the number of entries of the
    image that show it. *)
Definition visible_pixel_count (scene : R3Scene) (image : R2Grid) (i : Z) : Z :=
  Z.of_nat (length (filter (fun e => shows_node (NNodes scene) (GridValue image e) i)
                           (indices (NEntries image)))).

(** The number of pixels of the image, [width * height]. *)
Definition image_pixel_count : Z := width cfg * height cfg.

(** A node qualifies: it is an object and its pixel count exceeds
    [min_visible_fraction * image_pixel_count]. *)
Definition qualifies (scene : R3Scene) (image : R2Grid) (i : Z) : bool :=
  match Node scene i with
  | Some node =>
      IsObject node
      && Qlt_bool (min_visible_fraction cfg * inject_Z image_pixel_count)
                  (inject_Z (visible_pixel_count scene image i))
  | None => false
  end.

Definition qualifying_nodes (scene : R3Scene) (image : R2Grid) : list Z :=
  filter (qualifies scene image) (indices (NNodes scene)).

(** [k], the number of qualifying nodes. *)
Definition qualifying_count (scene : R3Scene) (image : R2Grid) : Z :=
  Z.of_nat (length (qualifying_nodes scene image)).

Definition Zsum (l : list Z) : Z := fold_right Z.add 0 l.

(** [p], the sum of the pixel counts of the qualifying nodes. *)
Definition qualifying_pixels (scene : R3Scene) (image : R2Grid) : Z :=
  Zsum (map (visible_pixel_count scene image) (qualifying_nodes scene image)).

(** Method 0 in the words of the specification. *)
Definition method0_spec (scene : R3Scene) (image : R2Grid) : R :=
  let k := qualifying_count scene image in
  let p := qualifying_pixels scene image in
  if Qlt_bool (min_visible_objects cfg) (inject_Z k)
  then (IZR (k * p) / IZR image_pixel_count)%R
  else 0%R.

(** The [int] computations of the scoring stay within 32 bits: the number
    of pixels, the truncated threshold, the number of nodes and the
    product [k * p]. *)
Definition within_int (scene : R3Scene) (image : R2Grid) : Prop :=
  0 <= image_pixel_count <= Int.MAX
  /\ Qfloor (min_visible_fraction cfg * inject_Z image_pixel_count) <= Int.MAX
  /\ NNodes scene <= Int.MAX
  /\ qualifying_count scene image * qualifying_pixels scene image <= Int.MAX.

Definition Rsum (l : list R) : R := fold_right Rplus 0%R l.

(** The threshold [min_pixel_count_threshold] of method 1. *)
Definition min_pixel_count_threshold : Z :=
  Int.of_double (min_visible_fraction cfg * inject_Z (Int.mul (width cfg) (height cfg))).

(** Method 1 in the words of the specification: the logarithm of the
    real-valued ratio. *)
Definition method1_spec (scene : R3Scene) (image : R2Grid) : R :=
  let k := qualifying_count scene image in
  if Qlt_bool (min_visible_objects cfg) (inject_Z k)
  then Rsum (map (fun i => ln (IZR (visible_pixel_count scene image i)
                                / IZR min_pixel_count_threshold)%R)
                 (qualifying_nodes scene image))
  else 0%R.

End Scoring.

(** ** Object coverage *)

(** Ray casting, distances and random numbers of the packages. *)
Class SceneQuery {AK : AffineKernel} := {
  (** [RN_EPSILON], the default tolerance of [RNIsZero] *)
  RN_EPSILON : Q;
  (** the [k]-th number returned by [RNRandomScalar()] *)
  RNRandomScalar : nat -> Q;
  (** [triangle->RandomPoint()], from and to a position in the random
      stream *)
  RandomPoint : R3Triangle -> nat -> R3Point * nat;
  (** [R3Distance(p, q)] *)
  R3Distance : R3Point -> R3Point -> Q;
  (** [scene->Intersects(ray, &hit_node, ..., &hit_t, min_t, max_t)] for the
      ray from a point towards another: the node and the parameter of the
      first hit, if any *)
  SceneIntersects : R3Scene -> R3Point -> R3Point -> Q -> Q -> option (NodeId * Q)
}.

(** [RNIsZero(a, epsilon)] and [RNIsEqual(a, b, epsilon)]. *)
Definition RNIsZero (a epsilon : Q) : bool :=
  Qle_bool a epsilon && Qle_bool (- epsilon) a.

Definition RNIsEqual (a b epsilon : Q) : bool := RNIsZero (a - b) epsilon.

(** The static variables of [ObjectCoverageScore] and the position in the
    stream of random numbers.  [npoints] is the length of [points]. *)
Record ScoreState := mkScoreState {
  last_node : option NodeId;
  points : list R3Point;
  rng : nat
}.

Definition initial_state : ScoreState := mkScoreState None [] 0.

Section ObjectCoverage.

Context {AK : AffineKernel} {SQ : SceneQuery}.

Definition max_npoints : Z := 1024.
Definition target_npoints : Z := 512.

Definition npoints_of (points : list R3Point) : Z := Z.of_nat (length points).

Definition NodeElements (scene : R3Scene) (node : NodeId) : list R3SceneElement :=
  match Node scene node with
  | Some nd => Elements nd
  | None => []
  end.

(** The transformation from the node up to the root. *)
Definition NodeTransformation (scene : R3Scene) (node : NodeId) : R3Affine :=
  AncestorTransformation scene (length (Nodes scene)) (Some node) R3identity_affine.

(** The loop adding up [transformation.ScaleFactor() * shape->Area()]. *)
Definition TotalArea (scene : R3Scene) (node : NodeId) : Q :=
  let transformation := NodeTransformation scene node in
  fold_left
    (fun total_area element =>
       fold_left
         (fun total_area shape =>
            (total_area + ScaleFactor transformation * ShapeArea shape)%Q)
         element total_area)
    (NodeElements scene node) 0%Q.

(** The innermost loop [for (m = 0; m < nsamples; m++)], which stops at
    [max_npoints] points. *)
Definition add_samples (transformation : R3Affine) (triangle : R3Triangle)
    (nsamples : Z) (acc : list R3Point * nat) : list R3Point * nat :=
  fold_left
    (fun acc _ =>
       let '(points, rng) := acc in
       if npoints_of points >=? max_npoints then acc else
       let '(point, rng) := RandomPoint triangle rng in
       (points ++ [PointTransform point transformation], rng))
    (indices nsamples) acc.

(** The body of the loop over the triangles of a triangle array. *)
Definition sample_triangle (transformation : R3Affine) (total_area : Q)
    (acc : list R3Point * nat) (triangle : R3Triangle) : list R3Point * nat :=
  let '(points, rng) := acc in
  let area := (ScaleFactor transformation * TriangleArea triangle)%Q in
  let real_nsamples := (inject_Z target_npoints * area / total_area)%Q in
  let nsamples := Int.of_double real_nsamples in
  let r := RNRandomScalar rng in
  let nsamples :=
    if Qlt_bool r (real_nsamples - inject_Z nsamples)
    then Int.add nsamples 1 else nsamples in
  add_samples transformation triangle nsamples (points, S rng).

(** The loops generating the points on the surface of the node. *)
Definition generate_points (scene : R3Scene) (node : NodeId) (total_area : Q)
    (rng : nat) : list R3Point * nat :=
  let transformation := NodeTransformation scene node in
  fold_left
    (fun acc element =>
       fold_left
         (fun acc shape =>
            match shape with
            | TriangleArray triangles =>
                fold_left (sample_triangle transformation total_area) triangles acc
            | OtherShape _ => acc
            end)
         element acc)
    (NodeElements scene node) ([], rng).

(** The loop counting how many points are visible. *)
Definition count_visible (camera : R3Camera) (scene : R3Scene) (node : NodeId)
    (points : list R3Point) : Z :=
  fold_left
    (fun nvisible point =>
       let tolerance_t := (1 # 100)%Q in
       let max_t := (R3Distance (Origin camera) point + tolerance_t)%Q in
       match SceneIntersects scene (Origin camera) point 0 max_t with
       | Some (hit_node, hit_t) =>
           if (hit_node =? node) && RNIsEqual hit_t max_t tolerance_t
           then Int.add nvisible 1 else nvisible
       | None => nvisible
       end)
    points 0.

(** [ObjectCoverageScore(camera, scene, node)]. *)
Definition ObjectCoverageScore (st : ScoreState) (camera : R3Camera)
    (scene : R3Scene) (node : NodeId) : R * ScoreState :=
  let same := match last_node st with
              | Some n => n =? node
              | None => false
              end in
  let regenerated :=
    if same then Some st else
    let total_area := TotalArea scene node in
    if RNIsZero total_area RN_EPSILON
    then None
    else
      let '(points, rng) := generate_points scene node total_area (rng st) in
      Some (mkScoreState (Some node) points rng) in
  match regenerated with
  | None => (0%R, mkScoreState (Some node) [] (rng st))
  | Some st =>
      let npoints := npoints_of (points st) in
      if npoints =? 0 then (0%R, st) else
      let nvisible := count_visible camera scene node (points st) in
      ((IZR nvisible / IZR npoints)%R, st)
  end.


End ObjectCoverage.

(** ** Viewpoint masks *)

(** Rasterisation of scene geometry into a grid and the lookup of a grid
    at a world position. *)
Class Rasterizer {AK : AffineKernel} := {
  (** [RasterizeIntoXYGrid(grid, node, parent_transformation, world_bbox)],
      the recursive rasterisation of the triangles of a subtree through
      [R2Grid::RasterizeWorldTriangle]: the entries of the grid afterwards.
      No property below depends on what it draws. *)
  RasterizeIntoXYGrid : R2Grid -> R3Scene -> NodeId -> R3Affine -> R3Box -> Z -> Q;
  (** [grid.WorldValue(position)] *)
  WorldValue : R2Grid -> R2Point -> Q
}.

(** Modelled from the spec: [R2Grid::Threshold(threshold, low, high)] of the
    grid package, which is not part of the program file.  The spec has the
    rasterised grids "threshold[ed] at 0.5" into "binary floor presence":
    an entry at most [threshold] becomes [low], any other becomes [high]. *)
Definition Threshold (g : R2Grid) (threshold low high : Q) : R2Grid :=
  SetGridValues g
    (fun i => if Qle_bool (GridValue g i) threshold then low else high).

(** The offsets [-r, ..., r]. *)
Definition offsets (r : Z) : list Z := map (fun k => Z.of_nat k - r) (seq 0 (Z.to_nat (2 * r + 1))).

(** Modelled from the spec: [R2Grid::Erode(distance)] of the grid package,
    which is not part of the program file.  The spec has the mask "erode[d]
    inward by a margin" so that "erosion removes cells near the floor's
    boundary": an entry stays 1 when every cell of the grid within
    [distance] cells of it (itself included) is non-zero, and becomes 0
    otherwise. *)
Definition Erode (g : R2Grid) (distance : Q) : R2Grid :=
  let r := Qceiling distance in
  let xres := XResolution g in
  let yres := YResolution g in
  SetGridValues g
    (fun i =>
       let ix := i mod xres in
       let iy := i / xres in
       if forallb
            (fun dy =>
               forallb
                 (fun dx =>
                    let jx := ix + dx in
                    let jy := iy + dy in
                    if (0 <=? jx) && (jx <? xres) && (0 <=? jy) && (jy <? yres)
                       && Qle_bool (inject_Z (dx * dx + dy * dy)) (distance * distance)
                    then negb (Qeq_bool (CellValue g jx jy) 0)
                    else true)
                 (offsets r))
            (offsets r)
       then 1%Q else 0%Q).

(** Modelled from the spec: [R2Grid::Mask(mask)] of the grid package, which
    is not part of the program file.  The spec has "Final mask = floor-mask
    AND obstacle-free-mask (elementwise)": an entry is kept where the mask
    is non-zero and becomes 0 where the mask is 0. *)
Definition Mask (g mask : R2Grid) : R2Grid :=
  SetGridValues g
    (fun i => if Qeq_bool (GridValue mask i) 0 then 0%Q else GridValue g i).

(** The outcome of [ComputeViewpointMask]: [return 1] with the mask,
    [return 0], or the dereference of a null [room_node->Parent()]. *)
Inductive MaskResult :=
| MaskBuilt (mask : R2Grid)
| MaskRejected
| MaskFault.

Section ViewpointMask.

Context {AK : AffineKernel} {SQ : SceneQuery} {RZ : Rasterizer}.
Variable cfg : Config.

Definition name_has_prefix (p : string) (nm : option string) : bool :=
  match nm with
  | Some s => has_prefix p s
  | None => false
  end.

(** The checks at the head of [ComputeViewpointMask]: the room node with
    its wall, floor and ceiling nodes. *)
Definition room_structure (scene : R3Scene) (room_node : option NodeId)
    : option (NodeId * R3SceneNode * NodeId * NodeId * NodeId) :=
  match room_node with
  | None => None
  | Some room_id =>
      match Node scene room_id with
      | None => None
      | Some room =>
          if negb (name_has_prefix "Room#" (Name room)) then None else
          if NChildren room <? 3 then None else
          match Child room 0, Child room 1, Child room 2 with
          | Some wall_node, Some floor_node, Some ceiling_node =>
              match Node scene wall_node, Node scene floor_node,
                    Node scene ceiling_node with
              | Some wall, Some floor, Some ceiling =>
                  if negb (name_has_prefix "Walls#" (Name wall)) then None else
                  if negb (name_has_prefix "Floors#" (Name floor)) then None else
                  if negb (name_has_prefix "Ceilings#" (Name ceiling)) then None else
                  Some (room_id, room, wall_node, floor_node, ceiling_node)
              | _, _, _ => None
              end
          | _, _, _ => None
          end
      end
  end.

Definition grid_sampling_factor : Q := 2.

(** The grid spacing. *)
Definition grid_sample_spacing : Q :=
  let s := (min_distance_from_obstacle cfg / grid_sampling_factor)%Q in
  let s := if Qeq_bool s 0 then (1 # 10)%Q else s in
  if Qlt_bool (1 # 10) s then (1 # 10)%Q else s.

(** The grid extent of a room with the given world bounding box. *)
Definition grid_bbox (room_bbox : R3Box) : R2Box :=
  mkR2Box (XMin room_bbox) (YMin room_bbox) (XMax room_bbox) (YMax room_bbox).

(** The grid resolution [(xres, yres)]. *)
Definition grid_resolution (room_bbox : R3Box) : Z * Z :=
  let xres := Int.of_double (XLength2 (grid_bbox room_bbox) / grid_sample_spacing) in
  let yres := Int.of_double (XLength2 (grid_bbox room_bbox) / grid_sample_spacing) in
  (xres, yres).

Definition RoomTransformation (scene : R3Scene) (room_id : NodeId) : R3Affine :=
  AncestorTransformation scene (length (Nodes scene)) (Some room_id) R3identity_affine.

Definition RoomWorldBBox (scene : R3Scene) (room_id : NodeId) (room : R3SceneNode) : R3Box :=
  BoxTransform (BBox room) (RoomTransformation scene room_id).

Definition ChildWorldBBox (scene : R3Scene) (room_id : NodeId) (room : R3SceneNode)
    (child : NodeId) : R3Box :=
  match Node scene child with
  | Some nd =>
      BoxTransform (BoxTransform (BBox nd) (Transformation room))
                   (RoomTransformation scene room_id)
  | None => BBox room
  end.

Definition Rasterize (g : R2Grid) (scene : R3Scene) (node : NodeId)
    (transformation : R3Affine) (world_bbox : R3Box) : R2Grid :=
  SetGridValues g (RasterizeIntoXYGrid g scene node transformation world_bbox).

(** The floor mask: rasterised floor, thresholded and eroded. *)
Definition FloorMask (scene : R3Scene) (room_id : NodeId) (room : R3SceneNode)
    (floor_node : NodeId) (xres yres : Z) : R2Grid :=
  let room_transformation := RoomTransformation scene room_id in
  let floor_bbox := ChildWorldBBox scene room_id room floor_node in
  let floor_mask := R2Grid_new xres yres (grid_bbox (RoomWorldBBox scene room_id room)) in
  let floor_mask := Rasterize floor_mask scene floor_node room_transformation floor_bbox in
  let floor_mask := Threshold floor_mask (1 # 2) 0 1 in
  Erode floor_mask grid_sampling_factor.

(** The object mask: the obstacles of the room and the objects that belong
    to no room, rasterised, thresholded with inversion and eroded.  The
    result is [None] when the room node has no parent. *)
Definition ObjectMask (scene : R3Scene) (room_id : NodeId) (room : R3SceneNode)
    (floor_node ceiling_node : NodeId) (xres yres : Z) : option R2Grid :=
  let room_transformation := RoomTransformation scene room_id in
  let room_bbox := RoomWorldBBox scene room_id room in
  let floor_bbox := ChildWorldBBox scene room_id room floor_node in
  let ceiling_bbox := ChildWorldBBox scene room_id room ceiling_node in
  let object_mask := R2Grid_new xres yres (grid_bbox room_bbox) in
  let object_bbox :=
    mkR3Box (XMin room_bbox) (YMin room_bbox) (ZMax floor_bbox + RN_EPSILON)
            (XMax room_bbox) (YMax room_bbox) (ZMin ceiling_bbox - RN_EPSILON) in
  let object_mask :=
    fold_left
      (fun g node =>
         if (node =? floor_node) || (node =? ceiling_node) then g else
         Rasterize g scene node room_transformation object_bbox)
      (Children room) object_mask in
  match Parent room with
  | None => None
  | Some parent_id =>
      let siblings := match Node scene parent_id with
                      | Some parent => Children parent
                      | None => []
                      end in
      let object_mask :=
        fold_left
          (fun g node =>
             match Node scene node with
             | Some nd =>
                 if NChildren nd >? 0 then g else
                 Rasterize g scene node room_transformation object_bbox
             | None => g
             end)
          siblings object_mask in
      let object_mask := Threshold object_mask (1 # 2) 1 0 in
      Some (Erode object_mask grid_sampling_factor)
  end.

(** [ComputeViewpointMask(room_node, mask)]. *)
Definition ComputeViewpointMask (scene : R3Scene) (room_node : option NodeId)
    : MaskResult :=
  match room_structure scene room_node with
  | None => MaskRejected
  | Some (room_id, room, wall_node, floor_node, ceiling_node) =>
      let room_bbox := RoomWorldBBox scene room_id room in
      let '(xres, yres) := grid_resolution room_bbox in
      if (xres <? 3) || (yres <? 3) then MaskRejected else
      let floor_mask := FloorMask scene room_id room floor_node xres yres in
      match ObjectMask scene room_id room floor_node ceiling_node xres yres with
      | None => MaskFault
      | Some object_mask => MaskBuilt (Mask floor_mask object_mask)
      end
  end.

End ViewpointMask.

(** ** Candidate generation *)

(** The outcome of a function that may loop forever or dereference a null
    pointer. *)
Inductive Outcome (A : Type) :=
| Done (a : A)
| Diverges
| Fault.

Arguments Done {A}.
Arguments Diverges {A}.
Arguments Fault {A}.

(** The values of [v] in [for (v = lo; v <= hi; v += step)], each computed
    by the repeated addition of the loop. *)
Fixpoint Qiter (n : nat) (v step : Q) : list Q :=
  match n with
  | O => []
  | S k => v :: Qiter k (v + step)%Q step
  end.

(** The loop [for (v = lo; v <= hi; v += step)]: it is not entered when
    [hi < lo], it makes [floor((hi - lo) / step) + 1] rounds when [step] is
    positive, and it never ends otherwise ([None]).  The doubles are taken
    as exact numbers: whether the loop is entered and its first value are
    those of the code, while the rounded additions of the code can shift
    the later values and the number of rounds. *)
Definition for_upto (lo hi step : Q) : option (list Q) :=
  if Qlt_bool hi lo then Some []
  else if Qlt_bool 0 step
       then Some (Qiter (Z.to_nat (Qfloor ((hi - lo) / step) + 1)) lo step)
       else None.

(** The planner5d project data hanging off the root node. *)
Record P5DWall := mkP5DWall {
  wall_x1 : Q; wall_y1 : Q; wall_x2 : Q; wall_y2 : Q; wall_w : Q
}.

Record P5DRoom := mkP5DRoom {
  room_x : Q;
  room_y : Q;
  Walls : list P5DWall;
  room_data : option NodeId
}.

Record P5DFloor := mkP5DFloor {
  floor_h : Q;
  Rooms : list P5DRoom
}.

Record P5DProject := mkP5DProject {
  Floors : list P5DFloor
}.

(** The camera poses of the three strategies.  The vector algebra that
    builds a pose (rotations, normalisation, cross products, [atan] and
    [tan]) belongs to the geometry packages; the random numbers a pose
    consumes are read from the random stream. *)
Class ViewSampler {AK : AffineKernel} := {
  (** [RN_TWO_PI] *)
  RN_TWO_PI : Q;
  (** the camera built for an object node and the direction bucket [j] *)
  ObjectView : Config -> R3Scene -> NodeId -> Z -> nat -> R3Camera * nat;
  (** the cameras built along a wall at height [z], over all positions
      and view angles, in the order of the loops *)
  WallViews : Config -> P5DRoom -> P5DWall -> Q -> nat -> list R3Camera * nat;
  (** the camera built at a position for a view angle at height [z] *)
  RoomView : Config -> R2Point -> Q -> Q -> R3Camera
}.

(** [printf("%s", name)]; the C library in use prints a null pointer as
    ["(null)"]. *)
Definition c_str (nm : option string) : string :=
  match nm with
  | Some s => s
  | None => "(null)"
  end.

(** [printf("%d", k)]. *)
Definition decimal (k : Z) : string := DecimalString.NilZero.string_of_int (Z.to_int k).

Definition newline_char : ascii := ascii_of_nat 10.

Definition newline : string := String newline_char EmptyString.

(** The last character of a string. *)
Fixpoint last_char (s : string) : option ascii :=
  match s with
  | EmptyString => None
  | String c EmptyString => Some c
  | String _ rest => last_char rest
  end.

(** No character of the string is a newline. *)
Fixpoint no_newline (s : string) : bool :=
  match s with
  | EmptyString => true
  | String c rest => negb (Ascii.eqb c newline_char) && no_newline rest
  end.

(** [sprintf(name, "%s_%d\n", room_name, k)] *)
Definition wall_camera_name (room_name : option string) (k : Z) : string :=
  (c_str room_name ++ "_" ++ decimal k ++ newline)%string.

(** [sprintf(name, "%s_%d", room_name, j)] *)
Definition room_camera_name (room_name : option string) (j : Z) : string :=
  (c_str room_name ++ "_" ++ decimal j)%string.

(** A list with the loop index of each element. *)
Definition enumerate {A : Type} (l : list A) : list (Z * A) :=
  combine (map Z.of_nat (seq 0 (length l))) l.

Definition set_rng (st : ScoreState) (r : nat) : ScoreState :=
  mkScoreState (last_node st) (points st) r.

Section Generation.

Context {AK : AffineKernel} {RD : Renderer} {SQ : SceneQuery}
        {RZ : Rasterizer} {VS : ViewSampler}.
Variable cfg : Config.

(** The three statements that follow the scoring of a candidate:
    [if (camera.Value() == 0) continue; if (camera.Value() < min_score)
    continue; if (camera.Value() > best_camera.Value()) best_camera =
    camera;]. *)
Definition remember_best (camera best_camera : R3Camera) : R3Camera :=
  if Req_EM_T (Value camera) 0 then best_camera else
  if Rlt_dec (Value camera) (Q2R (min_score cfg)) then best_camera else
  if Rgt_dec (Value camera) (Value best_camera) then camera else best_camera.

(** [if (best_camera.Value() > 0) cameras.Insert(new Camera(best_camera,
    name))]. *)
Definition insert_best (best_camera : R3Camera) (nm : option string)
    (cameras : list Camera) : list Camera :=
  if Rgt_dec (Value best_camera) 0
  then cameras ++ [mkCamera best_camera nm]
  else cameras.

(** [(int) (RN_TWO_PI / angle_sampling + 0.5)] *)
Definition nangles_around : Z :=
  Int.of_double (RN_TWO_PI / angle_sampling cfg + (1 # 2))%Q.

Definition angle_spacing_around : Q :=
  if nangles_around >? 1 then (RN_TWO_PI / inject_Z nangles_around)%Q else RN_TWO_PI.

(** *** Object cameras *)

(** The loop over the directions around one object. *)
Definition best_object_camera (scene : R3Scene) (node : NodeId) (st : ScoreState)
    : R3Camera * ScoreState :=
  fold_left
    (fun acc j =>
       let '(best_camera, st) := acc in
       let '(camera, r) := ObjectView cfg scene node j (rng st) in
       let '(score, st) := ObjectCoverageScore (set_rng st r) camera scene node in
       let camera := SetValue camera score in
       (remember_best camera best_camera, st))
    (indices nangles_around)
    (R3Camera_default, st).

(** [CreateObjectCameras]. *)
Definition CreateObjectCameras (scene : R3Scene) (cameras : list Camera)
    (st : ScoreState) : list Camera * ScoreState :=
  fold_left
    (fun acc i =>
       let '(cameras, st) := acc in
       match Node scene i with
       | None => acc
       | Some node =>
           if negb (IsObject node) then acc else
           let '(best_camera, st) := best_object_camera scene i st in
           (insert_best best_camera (Name node) cameras, st)
       end)
    (indices (NNodes scene))
    (cameras, st).

(** *** Wall cameras *)

(** The loops over the positions and view angles of one wall. *)
Definition best_wall_camera (scene : R3Scene) (room_node : NodeId)
    (views : list R3Camera) : R3Camera :=
  fold_left
    (fun best_camera camera =>
       let camera :=
         SetValue camera (fst (SceneCoverageScore cfg camera scene (Some room_node))) in
       remember_best camera best_camera)
    views R3Camera_default.

(** The checks on the scene node of a room: it has three children and the
    third is the ceiling. *)
Definition wall_room_node (scene : R3Scene) (room : P5DRoom) : option (NodeId * R3SceneNode) :=
  match room_data room with
  | None => None
  | Some room_node =>
      match Node scene room_node with
      | None => None
      | Some nd =>
          if NChildren nd <? 3 then None else
          match Child nd 2 with
          | None => None
          | Some ceiling_node =>
              match Node scene ceiling_node with
              | None => None
              | Some ceiling =>
                  if name_has_prefix "Ceilings#" (Name ceiling)
                  then Some (room_node, nd) else None
              end
          end
      end
  end.

(** The loop over the walls of one room. *)
Definition room_wall_cameras (scene : R3Scene) (room : P5DRoom) (z : Q)
    (cameras : list Camera) (st : ScoreState) : list Camera * ScoreState :=
  match wall_room_node scene room with
  | None => (cameras, st)
  | Some (room_node, nd) =>
      fold_left
        (fun acc kw =>
           let '(cameras, st) := acc in
           let '(k, wall) := kw in
           let '(views, r) := WallViews cfg room wall z (rng st) in
           let best_camera := best_wall_camera scene room_node views in
           (insert_best best_camera (Some (wall_camera_name (Name nd) k)) cameras,
            set_rng st r))
        (enumerate (Walls room))
        (cameras, st)
  end.

(** The loop over the floors, with the running height [next_z]. *)
Fixpoint floor_wall_cameras (scene : R3Scene) (floors : list P5DFloor) (next_z : Q)
    (cameras : list Camera) (st : ScoreState) : list Camera * ScoreState :=
  match floors with
  | [] => (cameras, st)
  | floor :: rest =>
      let z := next_z in
      let next_z := (next_z + floor_h floor)%Q in
      let '(cameras, st) :=
        fold_left
          (fun acc room =>
             let '(cameras, st) := acc in
             room_wall_cameras scene room z cameras st)
          (Rooms floor) (cameras, st) in
      floor_wall_cameras scene rest next_z cameras st
  end.

(** [CreateWallCameras]; [data] is [rootnode->Data()]. *)
Definition CreateWallCameras (scene : R3Scene) (data : option P5DProject)
    (cameras : list Camera) (st : ScoreState) : list Camera * ScoreState :=
  match Node scene (Root scene) with
  | None => (cameras, st)
  | Some rootnode =>
      if negb (name_has_prefix "Project#" (Name rootnode)) then (cameras, st) else
      match data with
      | None => (cameras, st)
      | Some project =>
          floor_wall_cameras scene (Floors project) (eye_height cfg) cameras st
      end
  end.

(** *** Room cameras *)

(** The body of the loop over [x]: one candidate position. *)
Definition room_candidate (scene : R3Scene) (room_node : NodeId)
    (viewpoint_mask : R2Grid) (j : Z) (z y : Q)
    (acc : R3Camera * nat) (x : Q) : R3Camera * nat :=
  let '(best_camera, r) := acc in
  let position :=
    mkR2Point (x + position_sampling cfg * RNRandomScalar r)
              (y + position_sampling cfg * RNRandomScalar (S r)) in
  let r := S (S r) in
  if Qlt_bool (WorldValue viewpoint_mask position) (1 # 2) then (best_camera, r) else
  let angle := ((inject_Z j + RNRandomScalar r) * angle_spacing_around)%Q in
  let r := S r in
  let camera := RoomView cfg position angle z in
  let camera :=
    SetValue camera (fst (SceneCoverageScore cfg camera scene (Some room_node))) in
  (remember_best camera best_camera, r).

(** The loops over [y] and [x] for one direction of one room. *)
Definition best_room_camera (scene : R3Scene) (room_node : NodeId)
    (viewpoint_mask : R2Grid) (room_bbox : R3Box) (j : Z) (z : Q) (r : nat)
    : option (R3Camera * nat) :=
  match for_upto (YMin room_bbox) (YMax room_bbox) (position_sampling cfg) with
  | None => None
  | Some [] => Some (R3Camera_default, r)
  | Some ys =>
      match for_upto (XMin room_bbox) (XMax room_bbox) (position_sampling cfg) with
      | None => None
      | Some xs =>
          Some (fold_left
                  (fun acc y =>
                     fold_left (room_candidate scene room_node viewpoint_mask j z y) xs acc)
                  ys (R3Camera_default, r))
      end
  end.

(** The loop over the directions of one room. *)
Fixpoint room_direction_cameras (scene : R3Scene) (room_node : NodeId)
    (room_name : option string) (viewpoint_mask : R2Grid) (room_bbox : R3Box)
    (z : Q) (js : list Z) (cameras : list Camera) (r : nat)
    : option (list Camera * nat) :=
  match js with
  | [] => Some (cameras, r)
  | j :: rest =>
      match best_room_camera scene room_node viewpoint_mask room_bbox j z r with
      | None => None
      | Some (best_camera, r) =>
          room_direction_cameras scene room_node room_name viewpoint_mask room_bbox z rest
            (insert_best best_camera (Some (room_camera_name room_name j)) cameras) r
      end
  end.

(** The body of the loop over the nodes of the scene. *)
Definition room_cameras (scene : R3Scene) (i : NodeId) (cameras : list Camera)
    (st : ScoreState) : Outcome (list Camera * ScoreState) :=
  match Node scene i with
  | None => Done (cameras, st)
  | Some room =>
      if negb (name_has_prefix "Room#" (Name room)) then Done (cameras, st) else
      let ancestor_transformation :=
        AncestorTransformation scene (length (Nodes scene)) (Parent room)
                               R3identity_affine in
      let room_bbox := BoxTransform (BBox room) ancestor_transformation in
      let z := (ZMin room_bbox + eye_height cfg)%Q in
      let z := (z + 2 * (RNRandomScalar (rng st) - (1 # 2)) * eye_height_radius cfg)%Q in
      let st := set_rng st (S (rng st)) in
      if Qlt_bool (ZMax room_bbox) z then Done (cameras, st) else
      match ComputeViewpointMask cfg scene (Some i) with
      | MaskRejected => Done (cameras, st)
      | MaskFault => Fault
      | MaskBuilt viewpoint_mask =>
          match room_direction_cameras scene i (Name room) viewpoint_mask room_bbox z
                  (indices nangles_around) cameras (rng st) with
          | None => Diverges
          | Some (cameras, r) => Done (cameras, set_rng st r)
          end
      end
  end.

Fixpoint rooms_cameras (scene : R3Scene) (nodes : list NodeId) (cameras : list Camera)
    (st : ScoreState) : Outcome (list Camera * ScoreState) :=
  match nodes with
  | [] => Done (cameras, st)
  | i :: rest =>
      match room_cameras scene i cameras st with
      | Done (cameras, st) => rooms_cameras scene rest cameras st
      | Diverges => Diverges
      | Fault => Fault
      end
  end.

(** [CreateRoomCameras]. *)
Definition CreateRoomCameras (scene : R3Scene) (cameras : list Camera)
    (st : ScoreState) : Outcome (list Camera * ScoreState) :=
  rooms_cameras scene (indices (NNodes scene)) cameras st.

(** *** What the strategies emit *)

(** A camera passes the acceptance test: its score is positive and at
    least [min_score]. *)
Definition accepted (c : Camera) : Prop :=
  (Value (base c) > 0)%R /\ (Value (base c) >= Q2R (min_score cfg))%R.

(** The best camera so far is the default one or an accepted one. *)
Definition good_best (best_camera : R3Camera) : Prop :=
  Value best_camera = 0%R
  \/ ((Value best_camera > 0)%R /\ (Value best_camera >= Q2R (min_score cfg))%R).

(** The label of a wall camera: the name of the scene node of a room of
    the project, an underscore, the index of a wall of that room and a
    newline.  The room is one of a floor of the project [data] that came
    with the scene, its scene node is the one the room points to
    ([room->data]), and [k] is the index of [wall] among the walls of the
    room. *)
Definition wall_labelled (scene : R3Scene) (data : option P5DProject) (c : Camera)
    : Prop :=
  exists project floor room room_node nd k wall,
    data = Some project
    /\ In floor (Floors project)
    /\ In room (Rooms floor)
    /\ room_data room = Some room_node
    /\ Node scene room_node = Some nd
    /\ 0 <= k
    /\ nth_error (Walls room) (Z.to_nat k) = Some wall
    /\ name c = Some (c_str (Name nd) ++ "_" ++ decimal k ++ newline)%string.

(** The label of a room camera: the name of a room node, an underscore
    and the index of a direction. *)
Definition room_labelled (scene : R3Scene) (c : Camera) : Prop :=
  exists i nm j,
    (exists nd, Node scene i = Some nd /\ Name nd = Some nm)
    /\ has_prefix "Room#" nm = true
    /\ 0 <= j < nangles_around
    /\ name c = Some (nm ++ "_" ++ decimal j)%string.

(** A label that ends with a newline character, and one that does not. *)
Definition ends_with_newline (c : Camera) : Prop :=
  exists label, name c = Some label /\ last_char label = Some newline_char.


Definition wall_emitted (scene : R3Scene) (data : option P5DProject) (c : Camera)
    : Prop :=
  accepted c /\ wall_labelled scene data c.

Definition room_emitted (scene : R3Scene) (c : Camera) : Prop :=
  accepted c /\ room_labelled scene c.

End Generation.

(** [cameras'] is [cameras] followed by cameras that satisfy [P]. *)
Definition emits (P : Camera -> Prop) (cameras cameras' : list Camera) : Prop :=
  exists emitted, cameras' = cameras ++ emitted /\ Forall P emitted.

(** ** Trajectory interpolation *)

(** Splines and the formatting of the C library.  A spline is given by
    the keypoints and the parameters it was constructed from. *)
Class SplineKernel := {
  (** [R3InteriorAngle(v, w)] *)
  R3InteriorAngle : R3Vector -> R3Vector -> Q;
  (** [R3CatmullRomSpline(keypoints, parameters, n).StartParameter()] *)
  StartParameter : list R3Point -> list Q -> Q;
  (** [R3CatmullRomSpline(keypoints, parameters, n).EndParameter()] *)
  EndParameter : list R3Point -> list Q -> Q;
  (** [R3CatmullRomSpline(keypoints, parameters, n).PointPosition(u)] *)
  PointPosition : list R3Point -> list Q -> Q -> R3Point;
  (** [printf("%f", u)] *)
  format_f : Q -> string
}.

Section Trajectory.

Context {AK : AffineKernel} {SQ : SceneQuery} {SK : SplineKernel}.

(** [parameters[i] = parameters[i-1] + R3Distance(...) + R3InteriorAngle(...)]
    for [i > 0]. *)
Fixpoint later_parameters (previous_parameter : Q) (previous : Camera)
    (rest : list Camera) : list Q :=
  match rest with
  | [] => []
  | camera :: rest' =>
      let parameter :=
        (previous_parameter
         + R3Distance (Origin (base camera)) (Origin (base previous))
         + R3InteriorAngle (Towards (base camera)) (Towards (base previous)))%Q in
      parameter :: later_parameters parameter camera rest'
  end.

Definition trajectory_parameters (cameras : list Camera) : list Q :=
  match cameras with
  | [] => []
  | camera :: rest => 0%Q :: later_parameters 0 camera rest
  end.

(** The camera created at the parameter [u]. *)
Definition trajectory_camera (head : Camera) (cameras : list Camera)
    (parameters : list Q) (u : Q) : Camera :=
  let viewpoint := PointPosition (map (fun c => Origin (base c)) cameras) parameters u in
  let towards := PointPosition (map (fun c => Towards (base c)) cameras) parameters u in
  let up := PointPosition (map (fun c => Up (base c)) cameras) parameters u in
  mkCamera
    (mkR3Camera viewpoint towards up
                (XFOV (base head)) (YFOV (base head))
                (Near (base head)) (Far (base head)) 0%R)
    (Some ("T" ++ format_f u)%string).

(** [InterpolateCameraTrajectory(trajectory_step)] on the camera list: the
    returned status with the new camera list.  [cameras.Head()] of an
    empty list is a fault. *)
Definition InterpolateCameraTrajectory (trajectory_step : Q) (cameras : list Camera)
    : Outcome (Z * list Camera) :=
  match cameras with
  | [] => Fault
  | head :: _ =>
      let parameters := trajectory_parameters cameras in
      let viewpoint_keypoints := map (fun c => Origin (base c)) cameras in
      match for_upto (StartParameter viewpoint_keypoints parameters)
                     (EndParameter viewpoint_keypoints parameters)
                     trajectory_step with
      | None => Diverges
      | Some us => Done (1, map (trajectory_camera head cameras parameters) us)
      end
  end.

End Trajectory.

(** ** A small house

    A project with two rooms, each with its walls, floor, ceiling and one
    piece of furniture, and collaborators simple enough to compute with:
    every transformation is the identity and the renderer draws a fixed
    picture, restricted to the subtree it is asked to draw. *)

Definition unit_affine : AffineKernel := {|
  R3Affine := unit;
  R3identity_affine := tt;
  AffineTransform := fun _ _ => tt;
  BoxTransform := fun b _ => b;
  PointTransform := fun p _ => p;
  ScaleFactor := fun _ => 1%Q
|}.

Definition leaf (nm : string) (parent : NodeId) (bbox : R3Box)
    (elements : list R3SceneElement) : @R3SceneNode unit_affine :=
  @mkNode unit_affine (Some nm) (Some parent) [] tt bbox elements.

Definition room_box : R3Box := mkR3Box 0 0 0 1 (1 # 10) 3.
Definition floor_box : R3Box := mkR3Box 0 0 0 1 (1 # 10) (1 # 10).
Definition ceiling_box : R3Box := mkR3Box 0 0 (29 # 10) 1 (1 # 10) 3.

Definition chair_triangle : R3Triangle :=
  mkR3Triangle (mkR3Point 0 0 1) (mkR3Point 1 0 1) (mkR3Point 0 1 1) (1 # 2).

Definition house : @R3Scene unit_affine :=
  @mkScene unit_affine
    [ @mkNode unit_affine (Some "Project#1"%string) None [1; 6] tt room_box [];
      @mkNode unit_affine (Some "Room#1_0"%string) (Some 0) [2; 3; 4; 5] tt room_box [];
      leaf "Walls#1_0" 1 room_box [];
      leaf "Floors#1_0" 1 floor_box [];
      leaf "Ceilings#1_0" 1 ceiling_box [];
      leaf "chair" 1 room_box [[TriangleArray [chair_triangle]]];
      @mkNode unit_affine (Some "Room#1_1"%string) (Some 0) [7; 8; 9; 10] tt room_box [];
      leaf "Walls#1_1" 6 room_box [];
      leaf "Floors#1_1" 6 floor_box [];
      leaf "Ceilings#1_1" 6 ceiling_box [];
      leaf "table" 6 room_box [] ]
    0.

(** The node [n] lies in the subtree of [root]. *)
Fixpoint in_subtree (fuel : nat) (scene : @R3Scene unit_affine) (root n : NodeId) : bool :=
  (n =? root) ||
  match fuel with
  | O => false
  | S fuel' =>
      match Node scene n with
      | Some nd =>
          match Parent nd with
          | Some p => in_subtree fuel' scene root p
          | None => false
          end
      | None => false
      end
  end.

(** A renderer that shows the node [picture i] at entry [i] when the node
    lies in the subtree it is asked to draw. *)
Definition picture_renderer (picture : Z -> option NodeId) : @Renderer unit_affine :=
  let render := fun (_ : R2Grid) (_ : R3Camera) (scene : @R3Scene unit_affine)
                    (root : NodeId) (_ : option NodeId) (_ : Z) (i : Z) =>
    match picture i with
    | Some n =>
        if in_subtree (length (Nodes scene)) scene root n
        then inject_Z n else (- 12345678)%Q
    | None => (- 12345678)%Q
    end in
  {| R2_GRID_UNKNOWN_VALUE := (- 12345678)%Q;
     RenderImageWithOpenGL := render;
     RenderImageWithRayCasting := render |}.

(** The table of the second room on the first [n] entries of the image. *)
Definition table_picture (n : Z) (i : Z) : option NodeId :=
  if i <? n then Some 10 else None.

(** The chair of the first room on the first [n] entries of the image. *)
Definition chair_picture (n : Z) (i : Z) : option NodeId :=
  if i <? n then Some 5 else None.

(** Every sample point is hit at its own distance on the chair. *)
Definition clear_view : @SceneQuery unit_affine := {|
  RN_EPSILON := (1 # 1000000)%Q;
  RNRandomScalar := fun _ => (1 # 2)%Q;
  RandomPoint := fun t r => (V0 t, S r);
  R3Distance := fun _ _ => 1%Q;
  SceneIntersects := fun _ _ _ _ max_t => Some (5, max_t)
|}.

Definition full_raster : @Rasterizer unit_affine := {|
  RasterizeIntoXYGrid := fun g _ _ _ _ i => (GridValue g i + 1)%Q;
  WorldValue := fun g _ => GridValue g 0
|}.

(** Only the floor leaves a trace in a grid; the lookup of a position
    reads the first entry. *)
Definition floor_raster : @Rasterizer unit_affine := {|
  RasterizeIntoXYGrid := fun g scene node _ _ i =>
    match Node scene node with
    | Some nd =>
        if name_has_prefix "Floors#" (Name nd) then (GridValue g i + 1)%Q else GridValue g i
    | None => GridValue g i
    end;
  WorldValue := fun g _ => GridValue g 0
|}.

Definition fixed_views : @ViewSampler unit_affine := {|
  RN_TWO_PI := (6283185307 # 1000000000)%Q;
  ObjectView := fun _ _ _ _ r => (R3Camera_default, S r);
  WallViews := fun _ _ _ _ r => ([R3Camera_default], S r);
  RoomView := fun _ _ _ _ => R3Camera_default
|}.

(** A spline that runs from the parameter of its first keypoint to that
    of its last and stays at its first keypoint. *)
Definition held_spline : SplineKernel := {|
  R3InteriorAngle := fun _ _ => 0%Q;
  StartParameter := fun _ parameters => hd 0%Q parameters;
  EndParameter := fun _ parameters => last parameters 0%Q;
  PointPosition := fun keypoints _ _ => hd origin3 keypoints;
  format_f := fun _ => "0.000000"%string
|}.

(** A 10 x 10 image; a node needs more than [fraction * 100] pixels. *)
Definition small_image (method : Z) (fraction : Q) : Config :=
  mkConfig 10 10 (1 # 2) (155 # 100) (5 # 100) (1 # 4) (3 # 2) (1 # 10)
           method 0 0 fraction (1 # 10) 0 true false.

Definition one_camera : list Camera := [mkCamera R3Camera_default None].

(** The default camera with the score 1/2. *)
Definition half_camera : R3Camera := SetValue R3Camera_default (1 / 2).

(** The planner5d data of the first room: one floor, one room, one wall. *)
Definition house_project : P5DProject :=
  mkP5DProject [mkP5DFloor 3 [mkP5DRoom 0 0 [mkP5DWall 0 0 1 0 (1 # 10)] (Some 1)]].

(** ** Rendering with OpenGL *)

(** A colour of [glColor3ubv] and of the frame buffer: three bytes. *)
Record Color := mkColor { red : Z; green : Z; blue : Z }.

(** [unsigned int node_index = node->SceneIndex() + 1]: the sum of two
    [int]s, converted to 32 bits without sign. *)
Definition node_index_of (scene_index : Z) : Z := Int.add scene_index 1 mod 2 ^ 32.

(** The colour [DrawNodeWithOpenGL] draws a node with: the bytes
    [(node_index >> 16) & 0xFF], [(node_index >> 8) & 0xFF] and
    [node_index & 0xFF]. *)
Definition node_color (scene_index : Z) : Color :=
  let node_index := node_index_of scene_index in
  mkColor (Z.land (Z.shiftr node_index 16) 255)
          (Z.land (Z.shiftr node_index 8) 255)
          (Z.land node_index 255).

(** The value [CaptureScalar] builds from three bytes of the frame buffer:
    [value = 0; value |= (r << 16) & 0xFF0000; value |= (g << 8) & 0x00FF00;
    value |= b & 0x0000FF]. *)
Definition capture_value (c : Color) : Z :=
  let value := 0 in
  let value := Z.lor value (Z.land (Z.shiftl (red c) 16) 16711680) in
  let value := Z.lor value (Z.land (Z.shiftl (green c) 8) 65280) in
  let value := Z.lor value (Z.land (blue c) 255) in
  value.

(** The colour of the cleared window, [glClearColor(0, 0, 0, 1)]. *)
Definition clear_color : Color := mkColor 0 0 0.

Inductive RNFlags := R3_DEFAULT_DRAW_FLAGS | R3_SURFACES_DRAW_FLAG.

(** [image.SetGridValue(ix, iy, value)] *)
Definition SetGridValue (image : R2Grid) (ix iy : Z) (value : Q) : R2Grid :=
  mkR2Grid (XResolution image) (YResolution image) (WorldBox image)
           (fun i => if i =? ix + iy * XResolution image then value else GridValue image i).

(** [image.Clear(value)] *)
Definition Clear (image : R2Grid) (value : Q) : R2Grid :=
  mkR2Grid (XResolution image) (YResolution image) (WorldBox image) (fun _ => value).

Module OpenGL.

Section Drawing.

Context {AK : AffineKernel}.

(** The calls that reach the graphics library while a subtree is drawn.
    An element is named by its node and its position among the elements of
    the node. *)
Inductive Command :=
| Push (transformation : R3Affine)
| Pop (transformation : R3Affine)
| glColor3ubv (color : Color)
| Draw (node : NodeId) (element : Z) (draw_flags : RNFlags).

(** The traces of the children, one after the other; [None] when one of
    them has none. *)
Fixpoint draw_children (draw : NodeId -> option (list Command)) (children : list NodeId)
    : option (list Command) :=
  match children with
  | [] => Some []
  | child :: rest =>
      match draw child, draw_children draw rest with
      | Some t, Some ts => Some (t ++ ts)
      | _, _ => None
      end
  end.

(** [DrawNodeWithOpenGL(scene, node, selected_node, image_type)].  The
    recursion follows the children; [fuel] bounds its depth, and the result
    is [None] when the fuel does not reach the leaves or a child is not a
    node of the scene. *)
Fixpoint DrawNodeWithOpenGL (fuel : nat) (scene : R3Scene) (node : NodeId)
    (selected_node : option NodeId) (image_type : Z) : option (list Command) :=
  match fuel with
  | O => None
  | S fuel' =>
      match Node scene node with
      | None => None
      | Some nd =>
          let draw_flags :=
            if image_type =? NODE_INDEX_IMAGE
            then R3_SURFACES_DRAW_FLAG else R3_DEFAULT_DRAW_FLAGS in
          let color :=
            if image_type =? NODE_INDEX_IMAGE
            then [glColor3ubv (node_color node)] else [] in
          let elements :=
            match selected_node with
            | None => map (fun i => Draw node i draw_flags)
                          (indices (Z.of_nat (length (Elements nd))))
            | Some s =>
                if s =? node
                then map (fun i => Draw node i draw_flags)
                         (indices (Z.of_nat (length (Elements nd))))
                else []
            end in
          match draw_children
                  (fun child => DrawNodeWithOpenGL fuel' scene child selected_node image_type)
                  (Children nd) with
          | None => None
          | Some children =>
              Some ([Push (Transformation nd)] ++ color ++ elements ++ children
                    ++ [Pop (Transformation nd)])
          end
      end
  end.

(** The current colour while a trace runs: the elements drawn, each with
    the colour it is drawn in. *)
Fixpoint drawn (color : Color) (trace : list Command) : list (Color * NodeId * Z) :=
  match trace with
  | [] => []
  | glColor3ubv c :: rest => drawn c rest
  | Draw node element _ :: rest => (color, node, element) :: drawn color rest
  | _ :: rest => drawn color rest
  end.

(** The current colour after a trace. *)
Fixpoint color_after (color : Color) (trace : list Command) : Color :=
  match trace with
  | [] => color
  | glColor3ubv c :: rest => color_after c rest
  | _ :: rest => color_after color rest
  end.

(** The matrix stack after a trace; [None] when a [Pop] finds it empty. *)
Fixpoint stack_after (stack : list R3Affine) (trace : list Command)
    : option (list R3Affine) :=
  match trace with
  | [] => Some stack
  | Push t :: rest => stack_after (t :: stack) rest
  | Pop _ :: rest =>
      match stack with
      | [] => None
      | _ :: stack' => stack_after stack' rest
      end
  | _ :: rest => stack_after stack rest
  end.

(** The elements a node draws itself. *)
Definition own_elements (node : NodeId) (nd : R3SceneNode) (selected_node : option NodeId)
    : list Z :=
  match selected_node with
  | None => indices (Z.of_nat (length (Elements nd)))
  | Some s => if s =? node then indices (Z.of_nat (length (Elements nd))) else []
  end.

(** The scene is numbered from the root down: the children of a node are
    nodes of the scene with larger indices. *)
Definition numbered_downwards (scene : R3Scene) : Prop :=
  forall n nd, Node scene n = Some nd ->
               Forall (fun c => n < c < NNodes scene) (Children nd).

(** The test of [numbered_downwards] on the list of the nodes. *)
Definition numbered_downwards_b (scene : R3Scene) : bool :=
  forallb
    (fun entry : Z * R3SceneNode =>
       forallb (fun c => (fst entry <? c) && (c <? NNodes scene)) (Children (snd entry)))
    (enumerate (Nodes scene)).

End Drawing.

(** The body of the inner loop of [CaptureScalar]: three bytes are read at
    [pixelp] and the pointer moves on. *)
Definition capture_pixel (pixels : Z -> Z) (iy : Z) (acc : R2Grid * Z) (ix : Z)
    : R2Grid * Z :=
  let '(scalar_image, pixelp) := acc in
  let value :=
    capture_value (mkColor (pixels pixelp) (pixels (pixelp + 1)) (pixels (pixelp + 2))) in
  (SetGridValue scalar_image ix iy (inject_Z value), pixelp + 3).

(** [CaptureScalar(scalar_image)], on the bytes [pixels] that
    [glReadPixels] returned. *)
Definition CaptureScalar (cfg : Config) (pixels : Z -> Z) (scalar_image : R2Grid)
    : R2Grid :=
  fst (fold_left
         (fun acc iy => fold_left (capture_pixel pixels iy) (indices (width cfg)) acc)
         (indices (height cfg))
         (scalar_image, 0)).

End OpenGL.

(** ** Rendering with ray casting *)

(** The viewer and the ray intersection of the packages. *)
Class RayCaster {AK : AffineKernel} := {
  R3Ray : Type;
  (** [R3Viewer(camera, R2Viewport(0, 0, xres, yres)).WorldRay(ix, iy)] *)
  WorldRay : R3Camera -> Z -> Z -> Z -> Z -> R3Ray;
  (** [ray.InverseTransform(transformation)] *)
  RayInverseTransform : R3Ray -> R3Affine -> R3Ray;
  (** [root_node->Intersects(ray, &intersection_node)]: [None] when it
      returns 0, otherwise the node it left in [intersection_node], which
      may be [NULL] *)
  NodeIntersects : R3Scene -> NodeId -> R3Ray -> option (option NodeId)
}.

Module RayCasting.

Section Casting.

Context {AK : AffineKernel} {RC : RayCaster}.

(** The node whose index the pixel [(ix, iy)] receives, if any. *)
Definition pixel_node (image : R2Grid) (camera : R3Camera) (scene : R3Scene)
    (root_node : NodeId) (selected_node : option NodeId) (image_type : Z)
    (ancestor_transformation : R3Affine) (ix iy : Z) : option NodeId :=
  let ray := WorldRay camera (XResolution image) (YResolution image) ix iy in
  let ray := RayInverseTransform ray ancestor_transformation in
  match NodeIntersects scene root_node ray with
  | Some (Some intersection_node) =>
      let chosen :=
        match selected_node with
        | None => true
        | Some s => s =? intersection_node
        end in
      if chosen then
        if image_type =? NODE_INDEX_IMAGE then Some intersection_node else None
      else None
  | _ => None
  end.

(** [RenderImageWithRayCasting(image, camera, scene, root_node,
    selected_node, image_type)], with the value [unknown] of
    [R2_GRID_UNKNOWN_VALUE]. *)
Definition RenderImageWithRayCasting (unknown : Q) (image : R2Grid) (camera : R3Camera)
    (scene : R3Scene) (root_node : NodeId) (selected_node : option NodeId)
    (image_type : Z) : R2Grid :=
  let image := Clear image unknown in
  let ancestor_transformation :=
    AncestorTransformation scene (length (Nodes scene))
      (match Node scene root_node with Some nd => Parent nd | None => None end)
      R3identity_affine in
  fold_left
    (fun image iy =>
       fold_left
         (fun image ix =>
            match pixel_node image camera scene root_node selected_node image_type
                             ancestor_transformation ix iy with
            | Some intersection_node =>
                SetGridValue image ix iy (inject_Z intersection_node)
            | None => image
            end)
         (indices (XResolution image)) image)
    (indices (YResolution image)) image.

(** The renderer whose ray casting back end is the function above. *)
Definition renderer (unknown : Q)
    (opengl : R2Grid -> R3Camera -> R3Scene -> NodeId -> option NodeId -> Z -> Z -> Q)
    : Renderer :=
  Build_Renderer AK unknown opengl
    (fun image camera scene root_node selected_node image_type =>
       GridValue (RenderImageWithRayCasting unknown image camera scene root_node
                                            selected_node image_type)).

End Casting.

End RayCasting.

(** The node the ray through the pixel [(ix, iy)] hits when
    [SceneCoverageScore] renders its image with ray casting. *)
Definition ray_hit {AK : AffineKernel} {RC : RayCaster} (cfg : Config)
    (camera : R3Camera) (scene : R3Scene) (ix iy : Z) : option NodeId :=
  RayCasting.pixel_node (R2Grid_new (width cfg) (height cfg) null_box2) camera scene
    (Root scene) None NODE_INDEX_IMAGE
    (AncestorTransformation scene (length (Nodes scene))
       (match Node scene (Root scene) with Some nd => Parent nd | None => None end)
       R3identity_affine)
    ix iy.

(** The number of pixels whose ray hits the node [i]. *)
Definition hit_count {AK : AffineKernel} {RC : RayCaster} (cfg : Config)
    (camera : R3Camera) (scene : R3Scene) (i : NodeId) : Z :=
  Z.of_nat (length (filter
                      (fun e => match ray_hit cfg camera scene (e mod width cfg)
                                              (e / width cfg) with
                                | Some n => n =? i
                                | None => false
                                end)
                      (indices (width cfg * height cfg)))).

(** A ray caster for the small house: a ray is the pixel it goes through,
    and the table is hit through the left half of the image. *)
Definition left_half_caster : @RayCaster unit_affine := {|
  R3Ray := Z * Z;
  WorldRay := fun _ _ _ ix iy => (ix, iy);
  RayInverseTransform := fun ray _ => ray;
  NodeIntersects := fun _ _ ray => if fst ray <? 5 then Some (Some 10) else None
|}.

(** The 10 x 10 image of [small_image], rendered with ray casting. *)
Definition raycast_image (method : Z) (fraction : Q) : Config :=
  mkConfig 10 10 (1 # 2) (155 # 100) (5 # 100) (1 # 4) (3 # 2) (1 # 10)
           method 0 0 fraction (1 # 10) 0 false false.

(** ** The candidates of the strategies *)

(** The indices of the nodes that [IsObject] accepts, in the order of the
    loop over the nodes. *)
Definition object_nodes {AK : AffineKernel} (scene : R3Scene) : list NodeId :=
  filter (fun i => match Node scene i with
                   | Some node => IsObject node
                   | None => false
                   end)
         (indices (NNodes scene)).

(** [scene->Node(i)->Name()] *)
Definition node_name {AK : AffineKernel} (scene : R3Scene) (i : NodeId) : option string :=
  match Node scene i with
  | Some node => Name node
  | None => None
  end.

(** The candidates of one wall with their scores, in the order in which
    the loops score them. *)
Definition scored_wall_views {AK : AffineKernel} {RD : Renderer} (cfg : Config)
    (scene : R3Scene) (room_node : NodeId) (views : list R3Camera) : list R3Camera :=
  map (fun camera =>
         SetValue camera (fst (SceneCoverageScore cfg camera scene (Some room_node))))
      views.

(** A candidate passes the two tests that precede the comparison with the
    best camera: [camera.Value() == 0] and [camera.Value() < min_score]. *)
Definition passes_tests (cfg : Config) (camera : R3Camera) : Prop :=
  Value camera <> 0%R /\ (Value camera >= Q2R (min_score cfg))%R.

(** ** The program variables and the command line *)

(** How a run of a function of the program ends: it returns, the program
    exits with a status, [RNAbort] ends it, it dereferences a null
    pointer, or it does not end. *)
Inductive Run (A : Type) :=
| Returns (a : A)
| Exits (status : Z)
| Aborts
| Crashes
| Hangs.

Arguments Returns {A}.
Arguments Exits {A}.
Arguments Aborts {A}.
Arguments Crashes {A}.
Arguments Hangs {A}.

(** The conversions of the C library and the constant [RN_PI]. *)
Class CLibrary := {
  atoi : string -> Z;
  atof : string -> Q;
  RN_PI : Q
}.

(** The program variables: those the scoring and the strategies read
    ([config]), the file names and the switches. *)
Record Variables := mkVariables {
  config : Config;
  input_scene_filename : option string;
  input_cameras_filename : option string;
  output_cameras_filename : option string;
  output_camera_extrinsics_filename : option string;
  output_camera_intrinsics_filename : option string;
  output_camera_names_filename : option string;
  output_nodes_filename : option string;
  create_object_cameras : bool;
  create_wall_cameras : bool;
  create_room_cameras : bool;
  interpolate_camera_trajectory : bool;
  print_verbose : bool;
  print_debug : bool
}.

(** Assignments to the variables. *)
Definition set_width (x : Z) (c : Config) : Config :=
  mkConfig x (height c) (xfov c) (eye_height c) (eye_height_radius c) (position_sampling c) (angle_sampling c) (interpolation_step c) (scene_scoring_method c) (object_scoring_method c) (min_visible_objects c) (min_visible_fraction c) (min_distance_from_obstacle c) (min_score c) (glut c) (mesa c).

Definition set_height (x : Z) (c : Config) : Config :=
  mkConfig (width c) x (xfov c) (eye_height c) (eye_height_radius c) (position_sampling c) (angle_sampling c) (interpolation_step c) (scene_scoring_method c) (object_scoring_method c) (min_visible_objects c) (min_visible_fraction c) (min_distance_from_obstacle c) (min_score c) (glut c) (mesa c).

Definition set_xfov (x : Q) (c : Config) : Config :=
  mkConfig (width c) (height c) x (eye_height c) (eye_height_radius c) (position_sampling c) (angle_sampling c) (interpolation_step c) (scene_scoring_method c) (object_scoring_method c) (min_visible_objects c) (min_visible_fraction c) (min_distance_from_obstacle c) (min_score c) (glut c) (mesa c).

Definition set_eye_height (x : Q) (c : Config) : Config :=
  mkConfig (width c) (height c) (xfov c) x (eye_height_radius c) (position_sampling c) (angle_sampling c) (interpolation_step c) (scene_scoring_method c) (object_scoring_method c) (min_visible_objects c) (min_visible_fraction c) (min_distance_from_obstacle c) (min_score c) (glut c) (mesa c).

Definition set_eye_height_radius (x : Q) (c : Config) : Config :=
  mkConfig (width c) (height c) (xfov c) (eye_height c) x (position_sampling c) (angle_sampling c) (interpolation_step c) (scene_scoring_method c) (object_scoring_method c) (min_visible_objects c) (min_visible_fraction c) (min_distance_from_obstacle c) (min_score c) (glut c) (mesa c).

Definition set_position_sampling (x : Q) (c : Config) : Config :=
  mkConfig (width c) (height c) (xfov c) (eye_height c) (eye_height_radius c) x (angle_sampling c) (interpolation_step c) (scene_scoring_method c) (object_scoring_method c) (min_visible_objects c) (min_visible_fraction c) (min_distance_from_obstacle c) (min_score c) (glut c) (mesa c).

Definition set_angle_sampling (x : Q) (c : Config) : Config :=
  mkConfig (width c) (height c) (xfov c) (eye_height c) (eye_height_radius c) (position_sampling c) x (interpolation_step c) (scene_scoring_method c) (object_scoring_method c) (min_visible_objects c) (min_visible_fraction c) (min_distance_from_obstacle c) (min_score c) (glut c) (mesa c).

Definition set_interpolation_step (x : Q) (c : Config) : Config :=
  mkConfig (width c) (height c) (xfov c) (eye_height c) (eye_height_radius c) (position_sampling c) (angle_sampling c) x (scene_scoring_method c) (object_scoring_method c) (min_visible_objects c) (min_visible_fraction c) (min_distance_from_obstacle c) (min_score c) (glut c) (mesa c).

Definition set_scene_scoring_method (x : Z) (c : Config) : Config :=
  mkConfig (width c) (height c) (xfov c) (eye_height c) (eye_height_radius c) (position_sampling c) (angle_sampling c) (interpolation_step c) x (object_scoring_method c) (min_visible_objects c) (min_visible_fraction c) (min_distance_from_obstacle c) (min_score c) (glut c) (mesa c).

Definition set_object_scoring_method (x : Z) (c : Config) : Config :=
  mkConfig (width c) (height c) (xfov c) (eye_height c) (eye_height_radius c) (position_sampling c) (angle_sampling c) (interpolation_step c) (scene_scoring_method c) x (min_visible_objects c) (min_visible_fraction c) (min_distance_from_obstacle c) (min_score c) (glut c) (mesa c).

Definition set_min_visible_objects (x : Q) (c : Config) : Config :=
  mkConfig (width c) (height c) (xfov c) (eye_height c) (eye_height_radius c) (position_sampling c) (angle_sampling c) (interpolation_step c) (scene_scoring_method c) (object_scoring_method c) x (min_visible_fraction c) (min_distance_from_obstacle c) (min_score c) (glut c) (mesa c).

Definition set_min_visible_fraction (x : Q) (c : Config) : Config :=
  mkConfig (width c) (height c) (xfov c) (eye_height c) (eye_height_radius c) (position_sampling c) (angle_sampling c) (interpolation_step c) (scene_scoring_method c) (object_scoring_method c) (min_visible_objects c) x (min_distance_from_obstacle c) (min_score c) (glut c) (mesa c).

Definition set_min_distance_from_obstacle (x : Q) (c : Config) : Config :=
  mkConfig (width c) (height c) (xfov c) (eye_height c) (eye_height_radius c) (position_sampling c) (angle_sampling c) (interpolation_step c) (scene_scoring_method c) (object_scoring_method c) (min_visible_objects c) (min_visible_fraction c) x (min_score c) (glut c) (mesa c).

Definition set_min_score (x : Q) (c : Config) : Config :=
  mkConfig (width c) (height c) (xfov c) (eye_height c) (eye_height_radius c) (position_sampling c) (angle_sampling c) (interpolation_step c) (scene_scoring_method c) (object_scoring_method c) (min_visible_objects c) (min_visible_fraction c) (min_distance_from_obstacle c) x (glut c) (mesa c).

Definition set_glut (x : bool) (c : Config) : Config :=
  mkConfig (width c) (height c) (xfov c) (eye_height c) (eye_height_radius c) (position_sampling c) (angle_sampling c) (interpolation_step c) (scene_scoring_method c) (object_scoring_method c) (min_visible_objects c) (min_visible_fraction c) (min_distance_from_obstacle c) (min_score c) x (mesa c).

Definition set_mesa (x : bool) (c : Config) : Config :=
  mkConfig (width c) (height c) (xfov c) (eye_height c) (eye_height_radius c) (position_sampling c) (angle_sampling c) (interpolation_step c) (scene_scoring_method c) (object_scoring_method c) (min_visible_objects c) (min_visible_fraction c) (min_distance_from_obstacle c) (min_score c) (glut c) x.

Definition set_config (x : Config) (v : Variables) : Variables :=
  mkVariables x (input_scene_filename v) (input_cameras_filename v) (output_cameras_filename v) (output_camera_extrinsics_filename v) (output_camera_intrinsics_filename v) (output_camera_names_filename v) (output_nodes_filename v) (create_object_cameras v) (create_wall_cameras v) (create_room_cameras v) (interpolate_camera_trajectory v) (print_verbose v) (print_debug v).

Definition set_input_scene_filename (x : option string) (v : Variables) : Variables :=
  mkVariables (config v) x (input_cameras_filename v) (output_cameras_filename v) (output_camera_extrinsics_filename v) (output_camera_intrinsics_filename v) (output_camera_names_filename v) (output_nodes_filename v) (create_object_cameras v) (create_wall_cameras v) (create_room_cameras v) (interpolate_camera_trajectory v) (print_verbose v) (print_debug v).

Definition set_input_cameras_filename (x : option string) (v : Variables) : Variables :=
  mkVariables (config v) (input_scene_filename v) x (output_cameras_filename v) (output_camera_extrinsics_filename v) (output_camera_intrinsics_filename v) (output_camera_names_filename v) (output_nodes_filename v) (create_object_cameras v) (create_wall_cameras v) (create_room_cameras v) (interpolate_camera_trajectory v) (print_verbose v) (print_debug v).

Definition set_output_cameras_filename (x : option string) (v : Variables) : Variables :=
  mkVariables (config v) (input_scene_filename v) (input_cameras_filename v) x (output_camera_extrinsics_filename v) (output_camera_intrinsics_filename v) (output_camera_names_filename v) (output_nodes_filename v) (create_object_cameras v) (create_wall_cameras v) (create_room_cameras v) (interpolate_camera_trajectory v) (print_verbose v) (print_debug v).

Definition set_output_camera_extrinsics_filename (x : option string) (v : Variables) : Variables :=
  mkVariables (config v) (input_scene_filename v) (input_cameras_filename v) (output_cameras_filename v) x (output_camera_intrinsics_filename v) (output_camera_names_filename v) (output_nodes_filename v) (create_object_cameras v) (create_wall_cameras v) (create_room_cameras v) (interpolate_camera_trajectory v) (print_verbose v) (print_debug v).

Definition set_output_camera_intrinsics_filename (x : option string) (v : Variables) : Variables :=
  mkVariables (config v) (input_scene_filename v) (input_cameras_filename v) (output_cameras_filename v) (output_camera_extrinsics_filename v) x (output_camera_names_filename v) (output_nodes_filename v) (create_object_cameras v) (create_wall_cameras v) (create_room_cameras v) (interpolate_camera_trajectory v) (print_verbose v) (print_debug v).

Definition set_output_camera_names_filename (x : option string) (v : Variables) : Variables :=
  mkVariables (config v) (input_scene_filename v) (input_cameras_filename v) (output_cameras_filename v) (output_camera_extrinsics_filename v) (output_camera_intrinsics_filename v) x (output_nodes_filename v) (create_object_cameras v) (create_wall_cameras v) (create_room_cameras v) (interpolate_camera_trajectory v) (print_verbose v) (print_debug v).

Definition set_output_nodes_filename (x : option string) (v : Variables) : Variables :=
  mkVariables (config v) (input_scene_filename v) (input_cameras_filename v) (output_cameras_filename v) (output_camera_extrinsics_filename v) (output_camera_intrinsics_filename v) (output_camera_names_filename v) x (create_object_cameras v) (create_wall_cameras v) (create_room_cameras v) (interpolate_camera_trajectory v) (print_verbose v) (print_debug v).

Definition set_create_object_cameras (x : bool) (v : Variables) : Variables :=
  mkVariables (config v) (input_scene_filename v) (input_cameras_filename v) (output_cameras_filename v) (output_camera_extrinsics_filename v) (output_camera_intrinsics_filename v) (output_camera_names_filename v) (output_nodes_filename v) x (create_wall_cameras v) (create_room_cameras v) (interpolate_camera_trajectory v) (print_verbose v) (print_debug v).

Definition set_create_wall_cameras (x : bool) (v : Variables) : Variables :=
  mkVariables (config v) (input_scene_filename v) (input_cameras_filename v) (output_cameras_filename v) (output_camera_extrinsics_filename v) (output_camera_intrinsics_filename v) (output_camera_names_filename v) (output_nodes_filename v) (create_object_cameras v) x (create_room_cameras v) (interpolate_camera_trajectory v) (print_verbose v) (print_debug v).

Definition set_create_room_cameras (x : bool) (v : Variables) : Variables :=
  mkVariables (config v) (input_scene_filename v) (input_cameras_filename v) (output_cameras_filename v) (output_camera_extrinsics_filename v) (output_camera_intrinsics_filename v) (output_camera_names_filename v) (output_nodes_filename v) (create_object_cameras v) (create_wall_cameras v) x (interpolate_camera_trajectory v) (print_verbose v) (print_debug v).

Definition set_interpolate_camera_trajectory (x : bool) (v : Variables) : Variables :=
  mkVariables (config v) (input_scene_filename v) (input_cameras_filename v) (output_cameras_filename v) (output_camera_extrinsics_filename v) (output_camera_intrinsics_filename v) (output_camera_names_filename v) (output_nodes_filename v) (create_object_cameras v) (create_wall_cameras v) (create_room_cameras v) x (print_verbose v) (print_debug v).

Definition set_print_verbose (x : bool) (v : Variables) : Variables :=
  mkVariables (config v) (input_scene_filename v) (input_cameras_filename v) (output_cameras_filename v) (output_camera_extrinsics_filename v) (output_camera_intrinsics_filename v) (output_camera_names_filename v) (output_nodes_filename v) (create_object_cameras v) (create_wall_cameras v) (create_room_cameras v) (interpolate_camera_trajectory v) x (print_debug v).

Definition set_print_debug (x : bool) (v : Variables) : Variables :=
  mkVariables (config v) (input_scene_filename v) (input_cameras_filename v) (output_cameras_filename v) (output_camera_extrinsics_filename v) (output_camera_intrinsics_filename v) (output_camera_names_filename v) (output_nodes_filename v) (create_object_cameras v) (create_wall_cameras v) (create_room_cameras v) (interpolate_camera_trajectory v) (print_verbose v) x.

(** The initial values of the program variables. *)
Definition initial_variables {CL : CLibrary} : Variables :=
  mkVariables
    (mkConfig 640 480 (5 # 10) (155 # 100) (5 # 100) (25 # 100) (RN_PI / 3) (1 # 10)
              0 0 3 (1 # 100) (1 # 10) 0 true false)
    None None None None None None None
    false false false false false false.

(** The variables of [ParseArgs]: the program variables and the two local
    variables that track whether to assign defaults. *)
Record ParseState := mkParseState {
  vars : Variables;
  create_cameras : bool;
  output : bool
}.

Definition assign (f : Variables -> Variables) (st : ParseState) : ParseState :=
  mkParseState (f (vars st)) (create_cameras st) (output st).

Definition assign_config (f : Config -> Config) (st : ParseState) : ParseState :=
  assign (fun v => set_config (f (config v)) v) st.

Definition set_output (st : ParseState) : ParseState :=
  mkParseState (vars st) (create_cameras st) true.

Definition set_create_cameras (st : ParseState) : ParseState :=
  mkParseState (vars st) true (output st).

(** What an argument that starts with a dash does: it sets variables, or
    it reads the next argument as an [int], a [double] or a file name, or
    it is not an argument of the program. *)
Inductive Action :=
| Switch (f : ParseState -> ParseState)
| IntValue (f : Z -> ParseState -> ParseState)
| RealValue (f : Q -> ParseState -> ParseState)
| FileValue (f : option string -> ParseState -> ParseState)
| Invalid.

Section CommandLine.

Context {CL : CLibrary}.

(** The chain of [strcmp]s of [ParseArgs]. *)
Definition option_action (arg : string) : Action :=
  if String.eqb arg "-v" then Switch (assign (set_print_verbose true))
  else if String.eqb arg "-debug" then Switch (assign (set_print_debug true))
  else if String.eqb arg "-glut"
  then Switch (fun st => assign_config (set_glut true) (assign_config (set_mesa false) st))
  else if String.eqb arg "-mesa"
  then Switch (fun st => assign_config (set_glut false) (assign_config (set_mesa true) st))
  else if String.eqb arg "-raycast"
  then Switch (fun st => assign_config (set_glut false) (assign_config (set_mesa false) st))
  else if String.eqb arg "-input_cameras"
  then FileValue (fun x st => set_output (assign (set_input_cameras_filename x) st))
  else if String.eqb arg "-output_camera_extrinsics"
  then FileValue (fun x st => set_output (assign (set_output_camera_extrinsics_filename x) st))
  else if String.eqb arg "-output_camera_intrinsics"
  then FileValue (fun x st => set_output (assign (set_output_camera_intrinsics_filename x) st))
  else if String.eqb arg "-output_camera_names"
  then FileValue (fun x st => set_output (assign (set_output_camera_names_filename x) st))
  else if String.eqb arg "-output_nodes"
  then FileValue (fun x st => set_output (assign (set_output_nodes_filename x) st))
  else if String.eqb arg "-interpolate_camera_trajectory"
  then Switch (assign (set_interpolate_camera_trajectory true))
  else if String.eqb arg "-width" then IntValue (fun x => assign_config (set_width x))
  else if String.eqb arg "-height" then IntValue (fun x => assign_config (set_height x))
  else if String.eqb arg "-xfov" then RealValue (fun x => assign_config (set_xfov x))
  else if String.eqb arg "-eye_height"
  then RealValue (fun x => assign_config (set_eye_height x))
  else if String.eqb arg "-eye_height_radius"
  then RealValue (fun x => assign_config (set_eye_height_radius x))
  else if String.eqb arg "-min_distance_from_obstacle"
  then RealValue (fun x => assign_config (set_min_distance_from_obstacle x))
  else if String.eqb arg "-min_visible_objects"
  then IntValue (fun x => assign_config (set_min_visible_objects (inject_Z x)))
  else if String.eqb arg "-min_score"
  then RealValue (fun x => assign_config (set_min_score x))
  else if String.eqb arg "-scene_scoring_method"
  then IntValue (fun x => assign_config (set_scene_scoring_method x))
  else if String.eqb arg "-object_scoring_method"
  then IntValue (fun x => assign_config (set_object_scoring_method x))
  else if String.eqb arg "-position_sampling"
  then RealValue (fun x => assign_config (set_position_sampling x))
  else if String.eqb arg "-angle_sampling"
  then RealValue (fun x => assign_config (set_angle_sampling x))
  else if String.eqb arg "-interpolation_step"
  then RealValue (fun x => assign_config (set_interpolation_step x))
  else if String.eqb arg "-create_object_cameras"
          || String.eqb arg "-create_leaf_node_cameras"
  then Switch (fun st =>
                 assign_config (set_angle_sampling (RN_PI / 6))
                   (assign (set_create_object_cameras true) (set_create_cameras st)))
  else if String.eqb arg "-create_wall_cameras"
          || String.eqb arg "-create_p5d_wall_cameras"
  then Switch (fun st =>
                 assign_config (set_angle_sampling (RN_PI / 3))
                   (assign (set_create_wall_cameras true) (set_create_cameras st)))
  else if String.eqb arg "-create_room_cameras"
  then Switch (fun st =>
                 assign_config (set_angle_sampling (RN_PI / 2))
                   (assign (set_create_room_cameras true) (set_create_cameras st)))
  else Invalid.

(** The test that the first character of the argument is a dash. *)
Definition starts_with_dash (arg : string) : bool :=
  match arg with
  | String c _ => Ascii.eqb c "-"
  | EmptyString => false
  end.

(** An argument that does not start with a dash: the scene file, then the
    cameras file, and [exit(1)] for a third. *)
Definition file_argument (arg : string) (st : ParseState) : Run ParseState :=
  match input_scene_filename (vars st) with
  | None => Returns (assign (set_input_scene_filename (Some arg)) st)
  | Some _ =>
      match output_cameras_filename (vars st) with
      | None => Returns (set_output (assign (set_output_cameras_filename (Some arg)) st))
      | Some _ => Exits 1
      end
  end.

(** The loop [while (argc > 0)] over the arguments that are left.  An
    argument that reads a value takes the next one; past the last argument
    it finds the null pointer that ends [argv]: [atoi] and [atof]
    dereference it, a file name is set to it and the loop ends. *)
Fixpoint parse_arguments (args : list string) (st : ParseState) : Run ParseState :=
  match args with
  | [] => Returns st
  | arg :: rest =>
      if starts_with_dash arg then
        match option_action arg with
        | Switch f => parse_arguments rest (f st)
        | IntValue f =>
            match rest with
            | [] => Crashes
            | value :: rest' => parse_arguments rest' (f (atoi value) st)
            end
        | RealValue f =>
            match rest with
            | [] => Crashes
            | value :: rest' => parse_arguments rest' (f (atof value) st)
            end
        | FileValue f =>
            match rest with
            | [] => Returns (f None st)
            | value :: rest' => parse_arguments rest' (f (Some value) st)
            end
        | Invalid => Exits 1
        end
      else
        match file_argument arg st with
        | Returns st => parse_arguments rest st
        | Exits status => Exits status
        | Aborts => Aborts
        | Crashes => Crashes
        | Hangs => Hangs
        end
  end.

Definition is_null (x : option string) : bool :=
  match x with
  | Some _ => false
  | None => true
  end.

(** [ParseArgs(argc, argv)] on the program variables [v]: the status it
    returns and the program variables afterwards.  [argv] begins with the
    name of the program. *)
Definition ParseArgs (argv : list string) (v : Variables) : Run (Z * Variables) :=
  match parse_arguments (tl argv) (mkParseState v false false) with
  | Returns st =>
      let v := vars st in
      let v :=
        if is_null (input_cameras_filename v) && negb (create_cameras st)
        then set_create_room_cameras true v else v in
      if is_null (input_scene_filename v) || negb (output st)
      then Returns (0, v) else Returns (1, v)
  | Exits status => Exits status
  | Aborts => Aborts
  | Crashes => Crashes
  | Hangs => Hangs
  end.

(** The arguments are whole: no argument that reads a value is the last
    one. *)
Fixpoint whole (args : list string) : bool :=
  match args with
  | [] => true
  | arg :: rest =>
      if starts_with_dash arg then
        match option_action arg with
        | Switch _ | Invalid => whole rest
        | _ =>
            match rest with
            | [] => false
            | _ :: rest' => whole rest'
            end
        end
      else whole rest
  end.

End CommandLine.

(** A C library for the examples: every number reads as 1/10 or 0. *)
Definition sample_library : CLibrary := {|
  atoi := fun _ => 0;
  atof := fun _ => (1 # 10)%Q;
  RN_PI := (314159 # 100000)%Q
|}.

(** ** Files *)

(** The vector algebra and the trigonometry that [ReadCameras] calls. *)
Class VectorKernel {AK : AffineKernel} := {
  (** [v % w], the cross product *)
  Cross : R3Vector -> R3Vector -> R3Vector;
  (** [v.Normalize()] *)
  Normalize : R3Vector -> R3Vector;
  tan : Q -> Q;
  atan : Q -> Q;
  (** [scene->BBox().DiagonalRadius()] *)
  DiagonalRadius : R3Scene -> Q
}.

(** The file system, the formatting of numbers and the parts of the
    program that the build and the machine decide. *)
Class System {AK : AffineKernel} := {
  (** the program was compiled with [USE_MESA]; otherwise with [USE_GLUT] *)
  USE_MESA : bool;
  (** [scene->ReadFile(filename)]: the scene and the data of its root
      node, or [None] when it fails *)
  SceneReadFile : string -> option (R3Scene * option P5DProject);
  (** [fopen(filename, "r")] and what the conversions [%lf] of [fscanf]
      meet in the file, one after the other: a number, or text that is no
      number; [None] when the file cannot be opened *)
  CamerasFile : string -> option (list (option Q));
  (** [fopen(filename, "w")] succeeds *)
  fopen_w : string -> bool;
  (** the mesa context, its frame buffer and [OSMesaMakeCurrent] succeed *)
  OSMesaContext : Config -> bool;
  (** [cameras.Sort(R3CompareCameras)] *)
  Sort : list Camera -> list Camera;
  (** the line [WriteCameras] prints for a camera, twelve numbers with [%g] *)
  cameras_line : Camera -> string;
  (** the line [WriteCameraExtrinsics] prints for a camera *)
  extrinsics_line : Camera -> string;
  (** the line [WriteCameraIntrinsics] prints for a camera *)
  intrinsics_line : Config -> Camera -> string
}.

(** The lines of a file, one after the other. *)
Definition concat_lines (lines : list string) : string :=
  fold_right String.append EmptyString lines.

(** The number of newline characters of a text. *)
Fixpoint count_newlines (s : string) : nat :=
  match s with
  | EmptyString => O
  | String c rest =>
      if Ascii.eqb c newline_char then S (count_newlines rest) else count_newlines rest
  end.

(** A file written: its name and its text. *)
Definition File : Type := string * string.

Section Files.

Context {AK : AffineKernel} {VK : VectorKernel} {SY : System}.

(** Twelve numbers of a cameras file: the viewpoint, the two directions,
    the two fields of view and the score. *)
Record CameraRecord := mkCameraRecord {
  r_vx : Q; r_vy : Q; r_vz : Q;
  r_tx : Q; r_ty : Q; r_tz : Q;
  r_ux : Q; r_uy : Q; r_uz : Q;
  r_xf : Q; r_yf : Q; r_value : Q
}.

(** The body of the loop of [ReadCameras]: the camera made of twelve
    numbers.  The vertical field of view that was read is overwritten
    before it is used.  For a [width] of 0 the quotient [aspect] has no
    finite value in C, and no property below relies on it. *)
Definition record_camera (cfg : Config) (scene : R3Scene) (r : CameraRecord) : Camera :=
  let neardist := ((1 # 100) * DiagonalRadius scene)%Q in
  let fardist := (100 * DiagonalRadius scene)%Q in
  let aspect := (inject_Z (height cfg) / inject_Z (width cfg))%Q in
  let viewpoint := mkR3Point (r_vx r) (r_vy r) (r_vz r) in
  let towards := mkR3Point (r_tx r) (r_ty r) (r_tz r) in
  let up := mkR3Point (r_ux r) (r_uy r) (r_uz r) in
  let right := Cross towards up in
  let towards := Normalize towards in
  let up := Cross right towards in
  let up := Normalize up in
  let yf := atan (aspect * tan (r_xf r)) in
  mkCamera (mkR3Camera viewpoint towards up (r_xf r) yf neardist fardist
                       (Q2R (r_value r)))
           None.

(** The loop of [ReadCameras]: as long as [fscanf] converts twelve
    numbers, a camera is made of them. *)
Fixpoint read_cameras (cfg : Config) (scene : R3Scene) (tokens : list (option Q))
    : list Camera :=
  match tokens with
  | Some vx :: Some vy :: Some vz :: Some tx :: Some ty :: Some tz
    :: Some ux :: Some uy :: Some uz :: Some xf :: Some yf :: Some value :: rest =>
      record_camera cfg scene (mkCameraRecord vx vy vz tx ty tz ux uy uz xf yf value)
      :: read_cameras cfg scene rest
  | _ => []
  end.

(** The numbers of a record as [fscanf] meets them. *)
Definition record_tokens (r : CameraRecord) : list (option Q) :=
  [Some (r_vx r); Some (r_vy r); Some (r_vz r);
   Some (r_tx r); Some (r_ty r); Some (r_tz r);
   Some (r_ux r); Some (r_uy r); Some (r_uz r);
   Some (r_xf r); Some (r_yf r); Some (r_value r)].

(** [ReadCameras(filename)]: the status and the list of cameras
    afterwards. *)
Definition ReadCameras (cfg : Config) (scene : R3Scene) (filename : string)
    (cameras : list Camera) : Z * list Camera :=
  match CamerasFile filename with
  | None => (0, cameras)
  | Some tokens => (1, cameras ++ read_cameras cfg scene tokens)
  end.

(** The text a function writes into the file it opened, or [None] when
    it cannot open the file and returns 0. *)
Definition written (filename : string) (text : string) : option string :=
  if fopen_w filename then Some text else None.

(** [WriteCameras(filename)] *)
Definition WriteCameras (cameras : list Camera) (filename : string) : option string :=
  written filename (concat_lines (map cameras_line cameras)).

Definition WriteCameraExtrinsics (cameras : list Camera) (filename : string)
    : option string :=
  written filename (concat_lines (map extrinsics_line cameras)).

Definition WriteCameraIntrinsics (cfg : Config) (cameras : list Camera)
    (filename : string) : option string :=
  written filename (concat_lines (map (intrinsics_line cfg) cameras)).

(** The line [fprintf(fp, "%s\n", (camera->name) ? camera->name : "-")]. *)
Definition camera_name_line (camera : Camera) : string :=
  (match name camera with
   | Some nm => nm
   | None => "-"
   end ++ newline)%string.

Definition camera_names_text (cameras : list Camera) : string :=
  concat_lines (map camera_name_line cameras).

Definition WriteCameraNames (cameras : list Camera) (filename : string) : option string :=
  written filename (camera_names_text cameras).

(** The line [fprintf(fp, "%d %s\n", i+1, name)]. *)
Definition node_name_line (entry : Z * R3SceneNode) : string :=
  (decimal (Int.add (fst entry) 1) ++ " "
   ++ match Name (snd entry) with
      | Some nm => nm
      | None => "-"
      end ++ newline)%string.

Definition WriteNodeNames (scene : R3Scene) (filename : string) : option string :=
  written filename (concat_lines (map node_name_line (enumerate (Nodes scene)))).

(** One step of [WriteCameras(void)]: a file that was asked for is
    written, and the program exits with -1 when it cannot be opened. *)
Definition write_file (filename : option string) (writer : string -> option string)
    (next : list File -> Run Z * list File) (files : list File) : Run Z * list File :=
  match filename with
  | None => next files
  | Some f =>
      match writer f with
      | None => (Exits (-1), files)
      | Some text => next (files ++ [(f, text)])
      end
  end.

(** [WriteCameras(void)]: how it ends, and the files it has written by
    then, in the order of the writing. *)
Definition WriteCameras_void (v : Variables) (scene : R3Scene) (cameras : list Camera)
    : Run Z * list File :=
  write_file (output_cameras_filename v) (WriteCameras cameras)
    (write_file (output_camera_extrinsics_filename v) (WriteCameraExtrinsics cameras)
       (write_file (output_camera_intrinsics_filename v)
          (WriteCameraIntrinsics (config v) cameras)
          (write_file (output_camera_names_filename v) (WriteCameraNames cameras)
             (write_file (output_nodes_filename v) (WriteNodeNames scene)
                (fun files => (Returns 1, files))))))
    [].

(** The output files that were asked for, in the order of the writing. *)
Definition requested (v : Variables) : list string :=
  flat_map (fun x => match x with Some f => [f] | None => [] end)
    [output_cameras_filename v; output_camera_extrinsics_filename v;
     output_camera_intrinsics_filename v; output_camera_names_filename v;
     output_nodes_filename v].

(** The files that are opened one after the other until one fails. *)
Fixpoint opened (names : list string) : list string :=
  match names with
  | [] => []
  | f :: rest => if fopen_w f then f :: opened rest else []
  end.

(** What the files of a run are, given the variables [v]: none, or the
    files asked for up to the first that does not open; all of them when
    the run ends with [exit(0)]. *)
Definition files_asked_for (v : Variables) (result : Run Z * list File) : Prop :=
  (snd result = [] \/ map fst (snd result) = opened (requested v))
  /\ (fst result = Exits 0 -> map fst (snd result) = requested v).

End Files.

(** ** The program *)

Section Program.

Context {AK : AffineKernel} {RD : Renderer} {SQ : SceneQuery}
        {RZ : Rasterizer} {VS : ViewSampler} {SK : SplineKernel}
        {VK : VectorKernel} {SY : System} {CL : CLibrary}.

(** The first three statements of [CreateAndWriteCameras]: the strategies
    that are switched on, one after the other. *)
Definition create_cameras_of (v : Variables) (scene : R3Scene)
    (data : option P5DProject) (cameras : list Camera) (st : ScoreState)
    : Outcome (list Camera * ScoreState) :=
  let '(cameras, st) :=
    if create_object_cameras v
    then CreateObjectCameras (config v) scene cameras st else (cameras, st) in
  let '(cameras, st) :=
    if create_wall_cameras v
    then CreateWallCameras (config v) scene data cameras st else (cameras, st) in
  if create_room_cameras v
  then CreateRoomCameras (config v) scene cameras st else Done (cameras, st).

(** [CreateAndWriteCameras]: how the program ends and the files it has
    written. *)
Definition CreateAndWriteCameras (v : Variables) (scene : R3Scene)
    (data : option P5DProject) (cameras : list Camera) : Run Z * list File :=
  match create_cameras_of v scene data cameras initial_state with
  | Diverges => (Hangs, [])
  | Fault => (Crashes, [])
  | Done (cameras, _) =>
      let processed :=
        if interpolate_camera_trajectory v
        then InterpolateCameraTrajectory (interpolation_step (config v)) cameras
        else Done (1, Sort cameras) in
      match processed with
      | Diverges => (Hangs, [])
      | Fault => (Crashes, [])
      | Done (status, cameras) =>
          if status =? 0 then (Exits (-1), []) else
          match WriteCameras_void v scene cameras with
          | (Returns _, files) => (Exits 0, files)
          | (run, files) => (run, files)
          end
      end
  end.

(** [CreateAndWriteCamerasWithGlut]: the display callback of the main
    loop is [CreateAndWriteCameras]. *)
Definition CreateAndWriteCamerasWithGlut (v : Variables) (scene : R3Scene)
    (data : option P5DProject) (cameras : list Camera) : Run Z * list File :=
  if USE_MESA then (Aborts, [])
  else CreateAndWriteCameras v scene data cameras.

(** [CreateAndWriteCamerasWithMesa] *)
Definition CreateAndWriteCamerasWithMesa (v : Variables) (scene : R3Scene)
    (data : option P5DProject) (cameras : list Camera) : Run Z * list File :=
  if USE_MESA then
    if OSMesaContext (config v)
    then CreateAndWriteCameras v scene data cameras
    else (Returns 0, [])
  else (Aborts, []).

(** [main(argc, argv)]: how the program ends, [Returns 0] being the
    [return 0] of [main], and the files it has written. *)
Definition main (argv : list string) : Run Z * list File :=
  match ParseArgs argv initial_variables with
  | Returns (status, v) =>
      if status =? 0 then (Exits (-1), []) else
      match input_scene_filename v with
      | None => (Crashes, [])
      | Some scene_file =>
          match SceneReadFile scene_file with
          | None => (Exits (-1), [])
          | Some (scene, data) =>
              let read :=
                match input_cameras_filename v with
                | None => (1, [])
                | Some cameras_file => ReadCameras (config v) scene cameras_file []
                end in
              if fst read =? 0 then (Exits (-1), []) else
              let run :=
                if mesa (config v)
                then CreateAndWriteCamerasWithMesa v scene data (snd read)
                else if glut (config v)
                     then CreateAndWriteCamerasWithGlut v scene data (snd read)
                     else CreateAndWriteCameras v scene data (snd read) in
              match run with
              | (Returns _, files) => (Returns 0, files)
              | _ => run
              end
          end
      end
  | Exits status => (Exits status, [])
  | Aborts => (Aborts, [])
  | Crashes => (Crashes, [])
  | Hangs => (Hangs, [])
  end.

End Program.

(** A machine for the examples: a glut build in which every file opens,
    the cameras file [in] holds one camera and five more numbers, and
    nothing is reordered. *)
Definition sample_vectors : @VectorKernel unit_affine := {|
  Cross := fun v _ => v;
  Normalize := fun v => v;
  tan := fun x => x;
  atan := fun x => x;
  DiagonalRadius := fun _ => 1%Q
|}.

Definition sample_record : CameraRecord :=
  mkCameraRecord 0 0 1 1 0 0 0 0 1 (1 # 2) (1 # 3) (3 # 4).

Definition sample_system : @System unit_affine := {|
  USE_MESA := false;
  SceneReadFile := fun _ => Some (house, Some house_project);
  CamerasFile := fun _ => Some (record_tokens sample_record
                                ++ [Some 1%Q; Some 2%Q; Some 3%Q; None; Some 5%Q]);
  fopen_w := fun f => negb (String.eqb f "locked"%string);
  OSMesaContext := fun _ => true;
  Sort := fun cameras => cameras;
  cameras_line := fun _ => "camera"%string;
  extrinsics_line := fun _ => "extrinsics"%string;
  intrinsics_line := fun _ _ => "intrinsics"%string
|}.

(** ** The directions of the rooms *)

Section RoomBuckets.

Context {AK : AffineKernel} {VS : ViewSampler}.
Variable cfg : Config.

(** The indices of the nodes whose name begins with [Room#], in the order
    of the loop over the nodes. *)
Definition room_nodes (scene : R3Scene) : list NodeId :=
  filter (fun i => name_has_prefix "Room#" (node_name scene i)) (indices (NNodes scene)).

(** The pairs of a room and a direction, in the order of the loops. *)
Definition room_buckets (scene : R3Scene) : list (NodeId * Z) :=
  flat_map (fun i => map (pair i) (indices (nangles_around cfg))) (room_nodes scene).

(** The name of the camera of a room and a direction. *)
Definition bucket_label (scene : R3Scene) (bucket : NodeId * Z) : option string :=
  Some (room_camera_name (node_name scene (fst bucket)) (snd bucket)).

End RoomBuckets.

(** ** Rasterising a subtree into a grid *)

(** The tests and the drawing of the geometry and grid packages that
    [RasterizeIntoXYGrid] calls. *)
Class GridKernel {AK : AffineKernel} := {
  (** [R3Intersects(box1, box2)] *)
  R3Intersects : R3Box -> R3Box -> bool;
  (** [R2Contains(box, point)] *)
  R2Contains : R2Box -> R2Point -> bool;
  (** [shape->BBox()] *)
  ShapeBBox : R3Shape -> R3Box;
  (** [triangle->BBox()] *)
  TriangleBBox : R3Triangle -> R3Box;
  (** [grid.RasterizeWorldTriangle(p0, p1, p2, value)] *)
  RasterizeWorldTriangle : R2Grid -> R2Point -> R2Point -> R2Point -> Q -> R2Grid
}.

Module XYGrid.

(** A call of [RasterizeWorldTriangle]: the node of the triangle and the
    three points. *)
Record Call := mkCall {
  call_node : NodeId;
  p0 : R2Point;
  p1 : R2Point;
  p2 : R2Point
}.

Section Rasterizing.

Context {AK : AffineKernel} {GK : GridKernel}.

(** The body of the loop over the triangles of a triangle array: the
    grid and the calls made so far. *)
Definition rasterize_triangle (transformation : R3Affine) (world_bbox : R3Box)
    (node : NodeId) (acc : R2Grid * list Call) (triangle : R3Triangle)
    : R2Grid * list Call :=
  let '(grid, calls) := acc in
  let triangle_bbox := BoxTransform (TriangleBBox triangle) transformation in
  if negb (R3Intersects world_bbox triangle_bbox) then acc else
  let vp0 := PointTransform (V0 triangle) transformation in
  let p0 := mkR2Point (px vp0) (py vp0) in
  if negb (R2Contains (WorldBox grid) p0) then acc else
  let vp1 := PointTransform (V1 triangle) transformation in
  let p1 := mkR2Point (px vp1) (py vp1) in
  if negb (R2Contains (WorldBox grid) p1) then acc else
  let vp2 := PointTransform (V2 triangle) transformation in
  let p2 := mkR2Point (px vp2) (py vp2) in
  if negb (R2Contains (WorldBox grid) p2) then acc else
  (RasterizeWorldTriangle grid p0 p1 p2 1, calls ++ [mkCall node p0 p1 p2]).

(** The body of the loop over the shapes of an element. *)
Definition rasterize_shape (transformation : R3Affine) (world_bbox : R3Box)
    (node : NodeId) (acc : R2Grid * list Call) (shape : R3Shape) : R2Grid * list Call :=
  let shape_bbox := BoxTransform (ShapeBBox shape) transformation in
  if negb (R3Intersects world_bbox shape_bbox) then acc else
  match shape with
  | TriangleArray triangles =>
      fold_left (rasterize_triangle transformation world_bbox node) triangles acc
  | OtherShape _ => acc
  end.

(** The loop over the children. *)
Fixpoint rasterize_children
    (rasterize : R2Grid * list Call -> NodeId -> option (R2Grid * list Call))
    (children : list NodeId) (acc : R2Grid * list Call) : option (R2Grid * list Call) :=
  match children with
  | [] => Some acc
  | child :: rest =>
      match rasterize acc child with
      | Some acc => rasterize_children rasterize rest acc
      | None => None
      end
  end.

(** [RasterizeIntoXYGrid(grid, node, parent_transformation, world_bbox)]
    on the grid and the calls made so far.  [fuel] bounds the depth of the
    recursion; the result is [None] when it does not reach the leaves or
    a child is not a node of the scene. *)
Fixpoint RasterizeIntoXYGrid (fuel : nat) (scene : R3Scene) (acc : R2Grid * list Call)
    (node : NodeId) (parent_transformation : R3Affine) (world_bbox : R3Box)
    : option (R2Grid * list Call) :=
  match fuel with
  | O => None
  | S fuel' =>
      match Node scene node with
      | None => None
      | Some nd =>
          let node_bbox := BoxTransform (BBox nd) parent_transformation in
          if negb (R3Intersects world_bbox node_bbox) then Some acc else
          let transformation := AffineTransform parent_transformation (Transformation nd) in
          let acc :=
            fold_left
              (fun acc element =>
                 fold_left (rasterize_shape transformation world_bbox node) element acc)
              (Elements nd) acc in
          rasterize_children
            (fun acc child =>
               RasterizeIntoXYGrid fuel' scene acc child transformation world_bbox)
            (Children nd) acc
      end
  end.

(** The three points of a call lie in the box. *)
Definition inside (box : R2Box) (call : Call) : Prop :=
  R2Contains box (p0 call) = true /\ R2Contains box (p1 call) = true
  /\ R2Contains box (p2 call) = true.

(** The grid after the calls, one after the other. *)
Definition replay (calls : list Call) (grid : R2Grid) : R2Grid :=
  fold_left (fun grid call => RasterizeWorldTriangle grid (p0 call) (p1 call) (p2 call) 1)
            calls grid.

(** What the loops keep, for the grid [grid] they started with: the world
    box, that the points of every call lie in it, and that the grid is the
    one the calls made. *)
Definition rasterized_from (grid : R2Grid) (acc : R2Grid * list Call) : Prop :=
  WorldBox (fst acc) = WorldBox grid
  /\ Forall (inside (WorldBox grid)) (snd acc)
  /\ fst acc = replay (snd acc) grid.

End Rasterizing.

End XYGrid.

(** A grid kernel for the examples: boxes always meet, a point lies in a
    box when its coordinates lie between the corners, and a triangle sets
    every entry of the grid. *)
Definition filling_kernel : @GridKernel unit_affine := {|
  R3Intersects := fun _ _ => true;
  R2Contains := fun box p =>
    Qle_bool (b2_xmin box) (p2x p) && Qle_bool (p2x p) (b2_xmax box)
    && Qle_bool (b2_ymin box) (p2y p) && Qle_bool (p2y p) (b2_ymax box);
  ShapeBBox := fun _ => room_box;
  TriangleBBox := fun _ => room_box;
  RasterizeWorldTriangle := fun grid _ _ _ value =>
    mkR2Grid (XResolution grid) (YResolution grid) (WorldBox grid) (fun _ => value)
|}.

(** A triangle of the chair that reaches beyond the box
    [0, 1] x [0, 1]. *)
Definition wide_triangle : R3Triangle :=
  mkR3Triangle (mkR3Point 0 0 1) (mkR3Point 2 0 1) (mkR3Point 0 1 1) 1.

Definition chair_scene : @R3Scene unit_affine :=
  @mkScene unit_affine
    [ @mkNode unit_affine (Some "Room#1_0"%string) None [1] tt room_box [];
      leaf "chair" 0 room_box [[TriangleArray [chair_triangle; wide_triangle]]] ]
    0.

(** ** The walls of the project *)

(** [l1] is [l2] with some of its elements left out. *)
Inductive subsequence {A : Type} : list A -> list A -> Prop :=
| subsequence_nil : subsequence [] []
| subsequence_skip (x : A) (l1 l2 : list A) :
    subsequence l1 l2 -> subsequence l1 (x :: l2)
| subsequence_keep (x : A) (l1 l2 : list A) :
    subsequence l1 l2 -> subsequence (x :: l1) (x :: l2).


Section WallLabels.

Context {AK : AffineKernel}.




End WallLabels.
(** ** A large image

    The default configuration of the program with [-width 8192 -height
    4096], and a hall with 64 pieces of furniture, each of which fills a
    strip of 64 rows of the image. *)




(** * Properties *)

(** ** The C++ [int] *)

Lemma wrap_in_range (z : Z) : Int.in_range (Int.wrap z).
Proof.
  unfold Int.in_range, Int.wrap, Int.MIN, Int.MAX.
  pose proof (Z.mod_pos_bound (z + 2 ^ 31) (2 ^ 32) ltac:(lia)). lia.
Qed.

Lemma wrap_id (z : Z) : Int.in_range z -> Int.wrap z = z.
Proof.
  unfold Int.in_range, Int.wrap, Int.MIN, Int.MAX. intros H.
  rewrite Z.mod_small; lia.
Qed.

Lemma wrap_abs (z : Z) : Z.abs (Int.wrap z) <= Z.abs z.
Proof.
  destruct (Z_le_dec Int.MIN z) as [Hlo|Hlo].
  - destruct (Z_le_dec z Int.MAX) as [Hhi|Hhi].
    + rewrite wrap_id; [lia | split; assumption].
    + pose proof (wrap_in_range z) as Hr.
      unfold Int.in_range, Int.MIN, Int.MAX in *. lia.
  - pose proof (wrap_in_range z) as Hr.
    unfold Int.in_range, Int.MIN, Int.MAX in *. lia.
Qed.

Lemma trunc_small (a : Z) (b : positive) : Z.abs a < Zpos b -> Z.quot a (Zpos b) = 0.
Proof.
  intros H. destruct (Z_le_dec 0 a) as [Ha|Ha].
  - apply Z.quot_small. lia.
  - replace a with (- (- a)) by lia.
    rewrite Z.quot_opp_l by lia.
    rewrite Z.quot_small; lia.
Qed.

Lemma trunc_nonneg (q : Q) : (0 <= q)%Q -> Int.trunc q = Qfloor q.
Proof.
  destruct q as [a b]. unfold Qle, Int.trunc, Qfloor. simpl. intros H.
  apply Z.quot_div_nonneg; lia.
Qed.

(** ** Scene coverage: the guards *)

Section ScoringFacts.

Context {AK : AffineKernel} {RD : Renderer}.
Variable cfg : Config.

(** The threshold truncates to zero on the wrapped pixel count whenever
    it does on the exact one. *)
Lemma threshold_zero (f : Q) (n : Z) :
  Qfloor (f * inject_Z n) = 0 -> Int.of_double (f * inject_Z (Int.wrap n)) = 0.
Proof.
  destruct f as [a b]. unfold Qfloor, Int.of_double, Int.trunc. simpl.
  intros H.
  assert (Hb : 0 < Zpos (b * 1)) by lia.
  assert (Hr : 0 <= a * n < Zpos (b * 1)).
  { pose proof (Z.div_mod (a * n) (Zpos (b * 1)) ltac:(lia)) as Hd.
    pose proof (Z.mod_pos_bound (a * n) (Zpos (b * 1)) Hb) as Hm.
    rewrite H in Hd. lia. }
  rewrite trunc_small; [reflexivity|].
  pose proof (wrap_abs n) as Hw.
  rewrite Z.abs_mul.
  assert (Z.abs a * Z.abs (Int.wrap n) <= Z.abs a * Z.abs n) by (apply Z.mul_le_mono_nonneg_l; lia).
  rewrite <- Z.abs_mul in *. lia.
Qed.

(** Either guard of [SceneCoverageScore] returns 0 before the rendering. *)
Lemma guards_return_zero (camera : R3Camera) (scene : R3Scene)
    (parent_node : option NodeId) :
  width cfg * height cfg = 0
  \/ Qfloor (min_visible_fraction cfg * inject_Z (width cfg * height cfg)) = 0 ->
  SceneCoverageScore cfg camera scene parent_node = (0%R, []).
Proof.
  intros H. unfold SceneCoverageScore, Int.mul.
  destruct (Int.wrap (width cfg * height cfg) =? 0) eqn:E0; [reflexivity|].
  destruct H as [H|H].
  - rewrite H in E0. discriminate.
  - rewrite (threshold_zero _ _ H). reflexivity.
Qed.

(** C9.  When the image has no pixels ([width * height = 0]) or the
    minimum pixel count per object truncates to zero
    ([floor(min_visible_fraction * width * height) = 0]), the scene
    coverage score is 0 for every camera and every room argument, and the
    renderer is not called. *)
Theorem SceneCoverageScore_guards (camera : R3Camera) (scene : R3Scene)
    (parent_node : option NodeId) :
  width cfg * height cfg = 0
  \/ Qfloor (min_visible_fraction cfg * inject_Z (width cfg * height cfg)) = 0 ->
  fst (SceneCoverageScore cfg camera scene parent_node) = 0%R
  /\ snd (SceneCoverageScore cfg camera scene parent_node) = [].
Proof.
  intros H. rewrite (guards_return_zero camera scene parent_node H).
  split; reflexivity.
Qed.

(** The room argument of [SceneCoverageScore] has no influence: the
    renderer is called once at most, on the root of the scene. *)
Lemma SceneCoverageScore_room_unused (camera : R3Camera) (scene : R3Scene)
    (parent_node : option NodeId) :
  SceneCoverageScore cfg camera scene parent_node
  = SceneCoverageScore cfg camera scene None
  /\ Forall (fun call => rc_root call = Root scene)
            (snd (SceneCoverageScore cfg camera scene parent_node)).
Proof.
  split; [reflexivity|].
  unfold SceneCoverageScore.
  destruct (Int.mul (width cfg) (height cfg) =? 0); [constructor|].
  destruct (Int.of_double _ =? 0); [constructor|].
  simpl. constructor; [reflexivity | constructor].
Qed.

(** [SceneCoverageScore] past its guards. *)
Lemma SceneCoverageScore_rendered (camera : R3Camera) (scene : R3Scene)
    (parent_node : option NodeId) (n m : Z) :
  Int.mul (width cfg) (height cfg) = n -> n <> 0 ->
  Int.of_double (min_visible_fraction cfg * inject_Z n) = m -> m <> 0 ->
  SceneCoverageScore cfg camera scene parent_node
  = (score_image cfg scene (scored_image cfg camera scene) n m,
     [mkRenderCall camera (Root scene) None NODE_INDEX_IMAGE]).
Proof.
  intros Hn Hn0 Hm Hm0. unfold SceneCoverageScore, scored_image.
  rewrite Hn. apply Z.eqb_neq in Hn0. rewrite Hn0.
  rewrite Hm. apply Z.eqb_neq in Hm0. rewrite Hm0. reflexivity.
Qed.

Lemma SceneCoverageScore_restricted_rendered (camera : R3Camera) (scene : R3Scene)
    (parent_node : option NodeId) (n m : Z) :
  Int.mul (width cfg) (height cfg) = n -> n <> 0 ->
  Int.of_double (min_visible_fraction cfg * inject_Z n) = m -> m <> 0 ->
  SceneCoverageScore_restricted cfg camera scene parent_node
  = (score_image cfg scene
       (RenderImage cfg (R2Grid_new (width cfg) (height cfg) null_box2) camera scene
                    (spec_render_root scene parent_node) None NODE_INDEX_IMAGE) n m,
     [mkRenderCall camera (spec_render_root scene parent_node) None NODE_INDEX_IMAGE]).
Proof.
  intros Hn Hn0 Hm Hm0. unfold SceneCoverageScore_restricted.
  rewrite Hn. apply Z.eqb_neq in Hn0. rewrite Hn0.
  rewrite Hm. apply Z.eqb_neq in Hm0. rewrite Hm0. reflexivity.
Qed.

(** The score of an image under method 0, from the outcome of its loop. *)
Lemma score_image_method0 (scene : R3Scene) (image : R2Grid) (n m nc pc : Z) :
  scene_scoring_method cfg = 0 ->
  count_visible_objects scene (count_node_pixels scene image) m = (nc, pc) ->
  score_image cfg scene image n m
  = if enough_objects cfg nc then (IZR (Int.mul nc pc) / IZR n)%R else 0%R.
Proof.
  intros Hm Hc. unfold score_image. rewrite Hm, Hc. reflexivity.
Qed.

End ScoringFacts.

(** ** Scene coverage: the two loops *)

Section ScoringLoops.

Context {AK : AffineKernel} {RD : Renderer}.
Variable cfg : Config.

(** The loop of method 0 adds one node and its pixels for every counted
    node. *)
Lemma count_visible_objects_fold (scene : R3Scene) (counts : list Z) (m : Z) :
  count_visible_objects scene counts m
  = fold_left
      (fun acc i => (Int.add (fst acc) 1, Int.add (snd acc) (array_get counts i)))
      (counted_nodes scene counts m) (0, 0).
Proof.
  unfold count_visible_objects, counted_nodes.
  generalize (0, 0). induction (indices (NNodes scene)) as [|i l IH]; intros acc.
  - reflexivity.
  - simpl. destruct acc as [nc pc].
    destruct (Node scene i) as [node|] eqn:En.
    + destruct (IsObject node); simpl.
      * destruct (array_get counts i <=? m); simpl; apply IH.
      * apply IH.
    + apply IH.
Qed.

(** The loop of method 1 adds one logarithm for every counted node. *)
Lemma sum_visible_logs_fold (scene : R3Scene) (counts : list Z) (m : Z) :
  sum_visible_logs scene counts m
  = fold_left
      (fun acc i => ((fst acc + log_int (Int.div (array_get counts i) m))%R,
                     Int.add (snd acc) 1))
      (counted_nodes scene counts m) (0%R, 0).
Proof.
  unfold sum_visible_logs, counted_nodes.
  generalize (0%R, 0). induction (indices (NNodes scene)) as [|i l IH]; intros acc.
  - reflexivity.
  - simpl. destruct acc as [s nc].
    destruct (Node scene i) as [node|] eqn:En.
    + destruct (IsObject node); simpl.
      * destruct (array_get counts i <=? m); simpl; apply IH.
      * apply IH.
    + apply IH.
Qed.

Lemma score_image_method1 (scene : R3Scene) (image : R2Grid) (n m nc : Z) (sum : R) :
  scene_scoring_method cfg = 1 ->
  sum_visible_logs scene (count_node_pixels scene image) m = (sum, nc) ->
  score_image cfg scene image n m = if enough_objects cfg nc then sum else 0%R.
Proof.
  intros Hm Hc. unfold score_image. rewrite Hm, Hc. reflexivity.
Qed.

End ScoringLoops.

(** ** Scene coverage in the small house *)

(** A closed instance of C9: an image of 100 pixels of which an object
    needs more than a thousandth. *)
Lemma SceneCoverageScore_guards_witness :
  Qfloor ((1 # 1000) * inject_Z (10 * 10)) = 0
  /\ fst (@SceneCoverageScore unit_affine (picture_renderer (table_picture 50))
            (small_image 0 (1 # 1000)) R3Camera_default house (Some 1)) = 0%R
  /\ snd (@SceneCoverageScore unit_affine (picture_renderer (table_picture 50))
            (small_image 0 (1 # 1000)) R3Camera_default house (Some 1)) = [].
Proof.
  split; [reflexivity|].
  apply (@SceneCoverageScore_guards unit_affine (picture_renderer (table_picture 50))
           (small_image 0 (1 # 1000)) R3Camera_default house (Some 1)).
  right. vm_compute. reflexivity.
Defined.

(** The table of the second room on half of the image scores 1/2,
    whatever room is given. *)
Lemma house_table_score (parent_node : option NodeId) :
  @SceneCoverageScore unit_affine (picture_renderer (table_picture 50))
    (small_image 0 (1 # 10)) R3Camera_default house parent_node
  = ((1 / 2)%R, [mkRenderCall R3Camera_default 0 None NODE_INDEX_IMAGE]).
Proof.
  rewrite (SceneCoverageScore_rendered _ _ _ _ 100 10)
    by (vm_compute; first [reflexivity | discriminate]).
  rewrite (score_image_method0 _ _ _ _ _ 1 50)
    by (vm_compute; reflexivity).
  replace (enough_objects (small_image 0 (1 # 10)) 1) with true
    by (vm_compute; reflexivity).
  replace (Int.mul 1 50) with 50 by (vm_compute; reflexivity).
  f_equal. lra.
Qed.

(** C1.  In the small house the camera sees the table of the second room
    on half of the image.  Scored for the first room, [SceneCoverageScore]
    renders from the root of the scene and counts the table: the score is
    1/2.  With the image restricted to the subtree of the first room the
    table does not contribute and the score is 0. *)
Theorem SceneCoverageScore_renders_whole_scene :
  @SceneCoverageScore unit_affine (picture_renderer (table_picture 50))
    (small_image 0 (1 # 10)) R3Camera_default house (Some 1)
  = ((1 / 2)%R, [mkRenderCall R3Camera_default 0 None NODE_INDEX_IMAGE])
  /\ @SceneCoverageScore_restricted unit_affine (picture_renderer (table_picture 50))
       (small_image 0 (1 # 10)) R3Camera_default house (Some 1)
     = (0%R, [mkRenderCall R3Camera_default 1 None NODE_INDEX_IMAGE]).
Proof.
  split; [apply house_table_score|].
  rewrite (SceneCoverageScore_restricted_rendered _ _ _ _ 100 10)
    by (vm_compute; first [reflexivity | discriminate]).
  rewrite (score_image_method0 _ _ _ _ _ 0 0)
    by (vm_compute; reflexivity).
  replace (enough_objects (small_image 0 (1 # 10)) 0) with false
    by (vm_compute; reflexivity).
  reflexivity.
Qed.

(** C4.  In the small house with scoring method 1 and a threshold of 10
    pixels, the camera sees the chair on 15 pixels.  The loop takes the
    logarithm of the [int] quotient [15 / 10 = 1], so the score is
    [ln 1 = 0]; the logarithm of the real-valued ratio is [ln (3/2)], which
    is positive. *)
Theorem SceneCoverageScore_method1_truncates :
  fst (@SceneCoverageScore unit_affine (picture_renderer (chair_picture 15))
         (small_image 1 (1 # 10)) R3Camera_default house None) = 0%R
  /\ @method1_spec unit_affine (picture_renderer (chair_picture 15))
       (small_image 1 (1 # 10)) house
       (@scored_image unit_affine (picture_renderer (chair_picture 15))
          (small_image 1 (1 # 10)) R3Camera_default house)
     = (ln (15 / 10) + 0)%R
  /\ (0 < ln (15 / 10) + 0)%R.
Proof.
  split; [|split].
  - rewrite (SceneCoverageScore_rendered _ _ _ _ 100 10)
      by (vm_compute; first [reflexivity | discriminate]).
    simpl fst.
    rewrite (score_image_method1 _ _ _ _ _ 1 (0 + ln 1)%R).
    + replace (enough_objects (small_image 1 (1 # 10)) 1) with true
        by (vm_compute; reflexivity).
      rewrite ln_1. lra.
    + reflexivity.
    + rewrite sum_visible_logs_fold.
      replace (counted_nodes _ _ _) with [5] by (vm_compute; reflexivity).
      simpl fold_left. unfold log_int.
      replace (Int.div _ _) with 1 by (vm_compute; reflexivity).
      replace (Int.add 0 1) with 1 by (vm_compute; reflexivity).
      reflexivity.
  - unfold method1_spec.
    replace (qualifying_count _ _ _) with 1 by (vm_compute; reflexivity).
    replace (Qlt_bool _ _) with true by (vm_compute; reflexivity).
    replace (qualifying_nodes _ _ _) with [5] by (vm_compute; reflexivity).
    simpl map. unfold Rsum. simpl fold_right.
    replace (visible_pixel_count _ _ _) with 15 by (vm_compute; reflexivity).
    replace (min_pixel_count_threshold _) with 10 by (vm_compute; reflexivity).
    reflexivity.
  - rewrite Rplus_0_r. rewrite <- ln_1. apply ln_increasing; lra.
Qed.

(** C5 as stated fails where the guard on the truncated threshold fires:
    with a minimum fraction of a thousandth of 100 pixels the table
    qualifies ([k = 1], [p = 50], [k * p / 100 = 1/2]) and yet the score
    is 0. *)
Lemma SceneCoverageScore_method0_guarded :
  fst (@SceneCoverageScore unit_affine (picture_renderer (table_picture 50))
         (small_image 0 (1 # 1000)) R3Camera_default house None)
  <> @method0_spec unit_affine (picture_renderer (table_picture 50))
       (small_image 0 (1 # 1000)) house
       (@scored_image unit_affine (picture_renderer (table_picture 50))
          (small_image 0 (1 # 1000)) R3Camera_default house).
Proof.
  replace (@SceneCoverageScore unit_affine _ _ _ _ _) with (0%R, @nil RenderCall).
  - unfold method0_spec.
    replace (qualifying_count _ _ _) with 1 by (vm_compute; reflexivity).
    replace (qualifying_pixels _ _ _) with 50 by (vm_compute; reflexivity).
    replace (Qlt_bool _ _) with true by (vm_compute; reflexivity).
    replace (image_pixel_count _) with 100 by (vm_compute; reflexivity).
    simpl. lra.
  - symmetry. apply guards_return_zero. right. vm_compute. reflexivity.
Qed.

(** ** Scene coverage: the pixel counts *)

Section PixelCounts.

Context {AK : AffineKernel} {RD : Renderer}.

Lemma array_incr_length (a : list Z) (k : nat) : length (array_incr a k) = length a.
Proof.
  revert k. induction a as [|c r IH]; intros [|k]; simpl; try reflexivity.
  now rewrite IH.
Qed.

Lemma array_incr_same (a : list Z) (k : nat) :
  (k < length a)%nat -> nth k (array_incr a k) 0 = Int.add (nth k a 0) 1.
Proof.
  revert k. induction a as [|c r IH]; intros [|k] H; simpl in *.
  - lia.
  - lia.
  - reflexivity.
  - apply IH. lia.
Qed.

Lemma array_incr_other (a : list Z) (k j : nat) :
  j <> k -> nth j (array_incr a k) 0 = nth j a 0.
Proof.
  revert k j. induction a as [|c r IH]; intros [|k] [|j] H; simpl; try reflexivity.
  - congruence.
  - apply IH. congruence.
Qed.

Lemma log_pixel_length (nnodes : Z) (counts : list Z) (v : Q) :
  length (log_pixel nnodes counts v) = length counts.
Proof.
  unfold log_pixel.
  destruct (Qeq_bool v R2_GRID_UNKNOWN_VALUE); [reflexivity|].
  destruct ((_ <? 0) || (_ >=? nnodes)); [reflexivity|].
  apply array_incr_length.
Qed.

(** One round of the counting loop: the entry of the node that the pixel
    shows goes up by one. *)
Lemma log_pixel_get (nnodes : Z) (counts : list Z) (v : Q) (i : Z) :
  Z.of_nat (length counts) = nnodes -> 0 <= i < nnodes ->
  array_get (log_pixel nnodes counts v) i
  = if shows_node nnodes v i then Int.add (array_get counts i) 1 else array_get counts i.
Proof.
  intros Hlen Hi. unfold log_pixel, shows_node, array_get.
  destruct (Qeq_bool v R2_GRID_UNKNOWN_VALUE); simpl; [reflexivity|].
  set (node_index := Int.of_double (v + (1 # 2))).
  replace (0 <=? i) with true by (symmetry; apply Z.leb_le; lia).
  replace (i <? nnodes) with true by (symmetry; apply Z.ltb_lt; lia).
  simpl.
  destruct (node_index <? 0) eqn:E1; simpl.
  - apply Z.ltb_lt in E1.
    replace (node_index =? i) with false by (symmetry; apply Z.eqb_neq; lia).
    reflexivity.
  - apply Z.ltb_ge in E1.
    destruct (node_index >=? nnodes) eqn:E2.
    + apply Z.geb_le in E2.
      replace (node_index =? i) with false by (symmetry; apply Z.eqb_neq; lia).
      reflexivity.
    + rewrite Z.geb_leb in E2. apply Z.leb_gt in E2.
      destruct (node_index =? i) eqn:E3.
      * apply Z.eqb_eq in E3. subst i.
        apply array_incr_same. lia.
      * apply Z.eqb_neq in E3.
        apply array_incr_other. lia.
Qed.

Lemma shown_cons (nnodes : Z) (image : R2Grid) (e : Z) (es : list Z) (i : Z) :
  shown nnodes image (e :: es) i
  = (if shows_node nnodes (GridValue image e) i then 1 else 0) + shown nnodes image es i.
Proof.
  unfold shown. simpl. destruct (shows_node _ _ _); simpl length; lia.
Qed.

Lemma shown_nonneg (nnodes : Z) (image : R2Grid) (es : list Z) (i : Z) :
  0 <= shown nnodes image es i.
Proof. unfold shown. lia. Qed.

(** The counting loop, from any array that leaves room for the entries
    still to come. *)
Lemma count_loop (nnodes : Z) (image : R2Grid) (es : list Z) :
  forall counts,
    Z.of_nat (length counts) = nnodes ->
    (forall i, 0 <= i < nnodes ->
               0 <= array_get counts i
               /\ array_get counts i + Z.of_nat (length es) <= Int.MAX) ->
    forall i, 0 <= i < nnodes ->
      array_get
        (fold_left (fun counts e => log_pixel nnodes counts (GridValue image e)) es counts) i
      = array_get counts i + shown nnodes image es i.
Proof.
  induction es as [|e es IH]; intros counts Hlen Hb i Hi.
  - unfold shown. simpl. lia.
  - simpl fold_left. rewrite IH.
    + rewrite shown_cons, (log_pixel_get _ _ _ _ Hlen Hi).
      destruct (shows_node _ _ _); [|lia].
      unfold Int.add. rewrite wrap_id; [lia|].
      destruct (Hb i Hi) as [H0 H1]. simpl length in H1.
      unfold Int.in_range, Int.MIN. lia.
    + now rewrite log_pixel_length.
    + intros j Hj. rewrite (log_pixel_get _ _ _ _ Hlen Hj).
      destruct (Hb j Hj) as [H0 H1]. simpl length in H1.
      destruct (shows_node _ _ _); [|lia].
      unfold Int.add. rewrite wrap_id; [lia|].
      unfold Int.in_range, Int.MIN. lia.
    + exact Hi.
Qed.

Lemma indices_length (n : Z) : length (indices n) = Z.to_nat n.
Proof. unfold indices. now rewrite length_map, length_seq. Qed.

Lemma indices_in (n i : Z) : In i (indices n) <-> 0 <= i < n.
Proof.
  unfold indices. rewrite in_map_iff. split.
  - intros [k [Hk Hin]]. apply in_seq in Hin. lia.
  - intros H. exists (Z.to_nat i). split; [lia|]. apply in_seq. lia.
Qed.

Lemma indices_NoDup (n : Z) : NoDup (indices n).
Proof.
  unfold indices. apply Injective_map_NoDup.
  - intros a b H. lia.
  - apply seq_NoDup.
Qed.

Lemma array_get_zeros (n : nat) (i : Z) : array_get (repeat 0 n) i = 0.
Proof.
  unfold array_get. generalize (Z.to_nat i). induction n as [|n IH]; intros [|k]; simpl; auto.
Qed.

(** The array of the counting loop holds the visible pixel count of every
    node. *)
Lemma count_node_pixels_get (scene : R3Scene) (image : R2Grid) (i : Z) :
  0 <= i < NNodes scene ->
  array_get (count_node_pixels scene image) i = visible_pixel_count scene image i.
Proof.
  intros Hi. unfold count_node_pixels, visible_pixel_count.
  rewrite (count_loop (NNodes scene) image).
  - rewrite array_get_zeros. reflexivity.
  - rewrite repeat_length. reflexivity.
  - intros j Hj. rewrite array_get_zeros, indices_length.
    pose proof (wrap_in_range (XResolution image * YResolution image)) as Hr.
    unfold NEntries, Int.mul, Int.in_range, Int.MIN, Int.MAX in *. lia.
  - exact Hi.
Qed.

End PixelCounts.

(** ** Scene coverage: method 0 against its specification *)

Section Method0.

Context {AK : AffineKernel} {RD : Renderer}.
Variable cfg : Config.

Lemma Zsum_nonneg (f : Z -> Z) (l : list Z) :
  (forall i, 0 <= f i) -> 0 <= Zsum (map f l).
Proof.
  intros Hf. induction l as [|a l IH]; simpl; [lia|]. pose proof (Hf a). lia.
Qed.

Lemma Zsum_plus (f g : Z -> Z) (l : list Z) :
  Zsum (map (fun i => f i + g i) l) = Zsum (map f l) + Zsum (map g l).
Proof. induction l as [|a l IH]; simpl; lia. Qed.

Lemma Zsum_filter_le (f : Z -> Z) (q : Z -> bool) (l : list Z) :
  (forall i, 0 <= f i) -> Zsum (map f (filter q l)) <= Zsum (map f l).
Proof.
  intros Hf. induction l as [|a l IH]; simpl; [lia|].
  pose proof (Hf a). destruct (q a); simpl; lia.
Qed.

(** A pixel shows one node at most. *)
Lemma Zsum_indicator (P : Z -> bool) (l : list Z) :
  NoDup l -> (forall i j, P i = true -> P j = true -> i = j) ->
  Zsum (map (fun i => if P i then 1 else 0) l) <= 1.
Proof.
  intros Hnd Huniq. induction Hnd as [|a l Hnotin Hnd IH]; simpl; [lia|].
  destruct (P a) eqn:Ea; [|lia].
  assert (Hz : Zsum (map (fun i => if P i then 1 else 0) l) = 0).
  { clear IH. induction l as [|b l IHl]; simpl; [reflexivity|].
    destruct (P b) eqn:Eb.
    - exfalso. apply Hnotin. left. symmetry. apply Huniq; assumption.
    - rewrite IHl; [reflexivity| |].
      + intros Hin. apply Hnotin. right. exact Hin.
      + inversion Hnd; assumption. }
  lia.
Qed.

Lemma shows_node_unique (nnodes : Z) (v : Q) (i j : Z) :
  shows_node nnodes v i = true -> shows_node nnodes v j = true -> i = j.
Proof.
  unfold shows_node. intros Hi Hj.
  apply andb_prop in Hi. destruct Hi as [_ Hi]. apply Z.eqb_eq in Hi.
  apply andb_prop in Hj. destruct Hj as [_ Hj]. apply Z.eqb_eq in Hj.
  congruence.
Qed.

(** The pixel counts of distinct nodes add up to the number of entries at
    most. *)
Lemma shown_sum (nnodes : Z) (image : R2Grid) (es l : list Z) :
  NoDup l -> Zsum (map (shown nnodes image es) l) <= Z.of_nat (length es).
Proof.
  intros Hnd. induction es as [|e es IH].
  - unfold shown. simpl. induction l; simpl; [lia|].
    inversion Hnd; subst. auto.
  - rewrite (map_ext _ (fun i => (if shows_node nnodes (GridValue image e) i then 1 else 0)
                                 + shown nnodes image es i))
      by (intros i; apply shown_cons).
    rewrite Zsum_plus.
    pose proof (Zsum_indicator (shows_node nnodes (GridValue image e)) l Hnd
                  (shows_node_unique nnodes (GridValue image e))) as H1.
    simpl length. lia.
Qed.

Lemma visible_pixel_count_nonneg (scene : R3Scene) (image : R2Grid) (i : Z) :
  0 <= visible_pixel_count scene image i.
Proof. unfold visible_pixel_count. lia. Qed.

Lemma visible_pixel_count_sum (scene : R3Scene) (image : R2Grid) (l : list Z) :
  NoDup l -> Zsum (map (visible_pixel_count scene image) l) <= Int.MAX.
Proof.
  intros Hnd.
  pose proof (shown_sum (NNodes scene) image (indices (NEntries image)) l Hnd) as H.
  rewrite indices_length in H.
  pose proof (wrap_in_range (XResolution image * YResolution image)) as Hr.
  unfold NEntries, Int.mul, Int.in_range, Int.MIN, Int.MAX in *.
  unfold visible_pixel_count, shown, NEntries, Int.mul in *. lia.
Qed.

(** The loop of method 0 from any accumulator that leaves room. *)
Lemma count_fold (f : Z -> Z) (l : list Z) :
  (forall i, 0 <= f i) ->
  forall nc pc,
    0 <= nc -> nc + Z.of_nat (length l) <= Int.MAX ->
    0 <= pc -> pc + Zsum (map f l) <= Int.MAX ->
    fold_left (fun acc i => (Int.add (fst acc) 1, Int.add (snd acc) (f i))) l (nc, pc)
    = (nc + Z.of_nat (length l), pc + Zsum (map f l)).
Proof.
  intros Hf. induction l as [|a l IH]; intros nc pc Hnc Hncb Hpc Hpcb.
  - simpl. f_equal; lia.
  - simpl fold_left. simpl fst. simpl snd.
    simpl length in Hncb. simpl in Hpcb.
    pose proof (Hf a) as Ha.
    pose proof (Zsum_nonneg f l Hf) as Hs.
    unfold Int.add.
    rewrite !wrap_id by (unfold Int.in_range, Int.MIN; lia).
    rewrite IH by lia.
    simpl length. simpl. f_equal; lia.
Qed.

(** An integer exceeds the floor of a rational exactly when it exceeds the
    rational. *)
Lemma floor_lt (x : Q) (c : Z) : (Qfloor x <? c) = Qlt_bool x (inject_Z c).
Proof.
  unfold Qlt_bool.
  destruct (Qfloor x <? c) eqn:E.
  - apply Z.ltb_lt in E. symmetry. apply negb_true_iff.
    destruct (Qle_bool (inject_Z c) x) eqn:E2; [|reflexivity].
    apply Qle_bool_iff in E2.
    pose proof (Qlt_floor x) as H.
    assert (Hc : (inject_Z (Qfloor x + 1) <= inject_Z c)%Q)
      by (rewrite <- Zle_Qle; lia).
    exfalso. apply (Qlt_irrefl x).
    eapply Qlt_le_trans; [exact H|]. eapply Qle_trans; eassumption.
  - apply Z.ltb_ge in E. symmetry. apply negb_false_iff. apply Qle_bool_iff.
    eapply Qle_trans; [|apply Qfloor_le].
    rewrite <- Zle_Qle. exact E.
Qed.

End Method0.

Section Method0Spec.

Context {AK : AffineKernel} {RD : Renderer}.
Variable cfg : Config.

Lemma fold_left_ext_in {A B : Type} (f g : A -> B -> A) (l : list B) :
  (forall a b, In b l -> f a b = g a b) ->
  forall a, fold_left f l a = fold_left g l a.
Proof.
  induction l as [|b l IH]; intros H a; simpl; [reflexivity|].
  rewrite H by (left; reflexivity). apply IH.
  intros a' b' Hin. apply H. right. exact Hin.
Qed.

Lemma filter_length_le {A : Type} (q : A -> bool) (l : list A) :
  (length (filter q l) <= length l)%nat.
Proof. induction l as [|a l IH]; simpl; [lia|]. destruct (q a); simpl; lia. Qed.

(** Without overflow the [int] threshold is the floor of the rational
    one. *)
Lemma threshold_is_floor :
  0 <= image_pixel_count cfg <= Int.MAX ->
  (0 <= min_visible_fraction cfg * inject_Z (image_pixel_count cfg))%Q ->
  Qfloor (min_visible_fraction cfg * inject_Z (image_pixel_count cfg)) <= Int.MAX ->
  Int.mul (width cfg) (height cfg) = image_pixel_count cfg
  /\ Int.of_double (min_visible_fraction cfg * inject_Z (Int.mul (width cfg) (height cfg)))
     = Qfloor (min_visible_fraction cfg * inject_Z (image_pixel_count cfg))
  /\ 0 <= Qfloor (min_visible_fraction cfg * inject_Z (image_pixel_count cfg)).
Proof.
  intros Hn Hx Hf.
  assert (Hmul : Int.mul (width cfg) (height cfg) = image_pixel_count cfg).
  { unfold Int.mul, image_pixel_count in *. apply wrap_id.
    unfold Int.in_range, Int.MIN. lia. }
  assert (H0 : 0 <= Qfloor (min_visible_fraction cfg * inject_Z (image_pixel_count cfg))).
  { change 0 with (Qfloor 0). apply Qfloor_resp_le. exact Hx. }
  split; [exact Hmul|]. split; [|exact H0].
  rewrite Hmul. unfold Int.of_double. rewrite trunc_nonneg by exact Hx.
  apply wrap_id. unfold Int.in_range, Int.MIN. lia.
Qed.

(** The nodes the loops count are the qualifying nodes. *)
Lemma counted_is_qualifying (scene : R3Scene) (image : R2Grid) :
  counted_nodes scene (count_node_pixels scene image)
    (Qfloor (min_visible_fraction cfg * inject_Z (image_pixel_count cfg)))
  = qualifying_nodes cfg scene image.
Proof.
  unfold counted_nodes, qualifying_nodes. apply filter_ext_in.
  intros i Hi. apply indices_in in Hi. unfold qualifies.
  destruct (Node scene i) as [node|]; [|reflexivity].
  f_equal. rewrite (count_node_pixels_get scene image i Hi).
  rewrite <- floor_lt. rewrite Z.ltb_antisym. reflexivity.
Qed.

(** The loop of method 0 computes [k] and [p]. *)
Lemma method0_loop (scene : R3Scene) (image : R2Grid) :
  NNodes scene <= Int.MAX ->
  count_visible_objects scene (count_node_pixels scene image)
    (Qfloor (min_visible_fraction cfg * inject_Z (image_pixel_count cfg)))
  = (qualifying_count cfg scene image, qualifying_pixels cfg scene image).
Proof.
  intros Hn. rewrite count_visible_objects_fold, counted_is_qualifying.
  rewrite (fold_left_ext_in _
             (fun acc i => (Int.add (fst acc) 1,
                            Int.add (snd acc) (visible_pixel_count scene image i)))).
  - rewrite count_fold.
    + reflexivity.
    + apply visible_pixel_count_nonneg.
    + lia.
    + pose proof (filter_length_le (qualifies cfg scene image) (indices (NNodes scene))) as H.
      rewrite indices_length in H. unfold qualifying_nodes, NNodes in *. lia.
    + lia.
    + pose proof (visible_pixel_count_sum scene image (qualifying_nodes cfg scene image)) as H.
      simpl. apply H. unfold qualifying_nodes. apply NoDup_filter, indices_NoDup.
  - intros acc i Hin. unfold qualifying_nodes in Hin.
    apply filter_In in Hin. destruct Hin as [Hin _]. apply indices_in in Hin.
    rewrite (count_node_pixels_get scene image i Hin). reflexivity.
Qed.

Lemma qualifying_count_nonneg (scene : R3Scene) (image : R2Grid) :
  0 <= qualifying_count cfg scene image.
Proof. unfold qualifying_count. lia. Qed.

Lemma qualifying_pixels_nonneg (scene : R3Scene) (image : R2Grid) :
  0 <= qualifying_pixels cfg scene image.
Proof. unfold qualifying_pixels. apply Zsum_nonneg, visible_pixel_count_nonneg. Qed.

(** The score of method 0 past the guards, when no [int] overflows. *)
Lemma method0_score (camera : R3Camera) (scene : R3Scene) (parent_node : option NodeId) :
  scene_scoring_method cfg = 0 ->
  within_int cfg scene (scored_image cfg camera scene) ->
  1 <= Qfloor (min_visible_fraction cfg * inject_Z (image_pixel_count cfg)) ->
  fst (SceneCoverageScore cfg camera scene parent_node)
  = method0_spec cfg scene (scored_image cfg camera scene).
Proof.
  intros Hm [Hn [Hf [Hnn Hkp]]] Hg.
  assert (Hx : (0 <= min_visible_fraction cfg * inject_Z (image_pixel_count cfg))%Q).
  { eapply Qle_trans; [|apply Qfloor_le]. change 0%Q with (inject_Z 0).
    rewrite <- Zle_Qle. lia. }
  destruct (threshold_is_floor Hn Hx Hf) as [Hmul [Hthr H0]].
  assert (Hn0 : image_pixel_count cfg <> 0).
  { intros E. rewrite E in Hg. destruct (min_visible_fraction cfg) as [a b].
    unfold Qfloor in Hg. simpl in Hg. rewrite Z.mul_0_r in Hg.
    rewrite Z.div_0_l in Hg by lia. lia. }
  rewrite (SceneCoverageScore_rendered cfg camera scene parent_node
             (image_pixel_count cfg)
             (Qfloor (min_visible_fraction cfg * inject_Z (image_pixel_count cfg))));
    try assumption.
  - simpl fst.
    rewrite (score_image_method0 cfg scene _ _ _ _ _ Hm (method0_loop scene _ Hnn)).
    unfold method0_spec, enough_objects, Qlt_bool.
    destruct (negb (Qle_bool _ _)); [|reflexivity].
    unfold Int.mul. rewrite wrap_id; [reflexivity|].
    pose proof (qualifying_count_nonneg scene (scored_image cfg camera scene)).
    pose proof (qualifying_pixels_nonneg scene (scored_image cfg camera scene)).
    unfold Int.in_range, Int.MIN. nia.
  - rewrite Hmul in Hthr. exact Hthr.
  - lia.
Qed.

(** C5 (amended).  With scene scoring method 0, when the truncated
    threshold [floor(min_visible_fraction * image_pixel_count)] is at least
    1 and the [int] computations stay within 32 bits, the scene coverage
    score equals [k * p / image_pixel_count] when [k > min_visible_objects]
    and 0 otherwise, where a node qualifies iff it is an object and its
    visible pixel count exceeds [min_visible_fraction * image_pixel_count],
    [k] is the number of qualifying nodes and [p] the sum of their pixel
    counts. *)
Theorem SceneCoverageScore_method0 (camera : R3Camera) (scene : R3Scene)
    (parent_node : option NodeId) :
  scene_scoring_method cfg = 0 ->
  within_int cfg scene (scored_image cfg camera scene) ->
  1 <= Qfloor (min_visible_fraction cfg * inject_Z (image_pixel_count cfg)) ->
  fst (SceneCoverageScore cfg camera scene parent_node)
  = if Qlt_bool (min_visible_objects cfg)
                (inject_Z (qualifying_count cfg scene (scored_image cfg camera scene)))
    then (IZR (qualifying_count cfg scene (scored_image cfg camera scene)
               * qualifying_pixels cfg scene (scored_image cfg camera scene))
          / IZR (image_pixel_count cfg))%R
    else 0%R.
Proof.
  intros Hm Hw Hg. rewrite (method0_score camera scene parent_node Hm Hw Hg).
  reflexivity.
Qed.

End Method0Spec.


Ltac closed_le := apply Z.leb_le; vm_compute; reflexivity.

Lemma house_within_int (method : Z) (n : Z) :
  n = 50 ->
  @within_int unit_affine (picture_renderer (table_picture n)) (small_image method (1 # 10))
    house
    (@scored_image unit_affine (picture_renderer (table_picture n))
       (small_image method (1 # 10)) R3Camera_default house).
Proof.
  intros ->. unfold within_int.
  replace (qualifying_count _ _ _) with 1 by (vm_compute; reflexivity).
  replace (qualifying_pixels _ _ _) with 50 by (vm_compute; reflexivity).
  repeat split; closed_le.
Qed.

(** A closed instance of C5: the table on half of a 10 x 10 image, with a
    threshold of 10 pixels, scores [1 * 50 / 100]. *)
Lemma SceneCoverageScore_method0_witness :
  fst (@SceneCoverageScore unit_affine (picture_renderer (table_picture 50))
         (small_image 0 (1 # 10)) R3Camera_default house (Some 1))
  = (IZR (1 * 50) / IZR 100)%R.
Proof.
  rewrite (@SceneCoverageScore_method0 unit_affine (picture_renderer (table_picture 50))
             (small_image 0 (1 # 10)) R3Camera_default house (Some 1)
             eq_refl (house_within_int 0 50 eq_refl)).
  - replace (qualifying_count _ _ _) with 1 by (vm_compute; reflexivity).
    replace (qualifying_pixels _ _ _) with 50 by (vm_compute; reflexivity).
    reflexivity.
  - closed_le.
Defined.

(** ** Scene coverage is never negative *)

Section SceneScoreSign.

Context {AK : AffineKernel} {RD : Renderer}.
Variable cfg : Config.



Lemma visible_pixel_count_max (scene : R3Scene) (image : R2Grid) (i : Z) :
  visible_pixel_count scene image i <= Int.MAX.
Proof.
  pose proof (visible_pixel_count_sum scene image [i]) as H.
  simpl in H. rewrite Z.add_0_r in H. apply H.
  constructor; [intros [] | constructor].
Qed.


(** The loop of method 1 from any accumulator that leaves room. *)
Lemma log_fold (g : Z -> R) (l : list Z) :
  forall (sum : R) (nc : Z),
    0 <= nc -> nc + Z.of_nat (length l) <= Int.MAX ->
    fold_left (fun acc i => ((fst acc + g i)%R, Int.add (snd acc) 1)) l (sum, nc)
    = ((sum + Rsum (map g l))%R, nc + Z.of_nat (length l)).
Proof.
  induction l as [|a l IH]; intros sum nc H0 H1.
  - simpl. f_equal; [lra | lia].
  - change (length (a :: l)) with (S (length l)) in *. rewrite Nat2Z.inj_succ in *.
    simpl fold_left. cbn [fst snd].
    unfold Int.add. rewrite wrap_id by (unfold Int.in_range, Int.MIN; lia).
    rewrite IH by lia. simpl. f_equal; [lra | lia].
Qed.

(** The score of method 1 past the guards, when no [int] overflows: the
    sum, over the qualifying nodes, of the logarithm of the pixel count
    divided by the threshold in [int] arithmetic (a truncated quotient). *)
Lemma method1_score (camera : R3Camera) (scene : R3Scene) (parent_node : option NodeId) :
  scene_scoring_method cfg = 1 ->
  within_int cfg scene (scored_image cfg camera scene) ->
  1 <= Qfloor (min_visible_fraction cfg * inject_Z (image_pixel_count cfg)) ->
  fst (SceneCoverageScore cfg camera scene parent_node)
  = if Qlt_bool (min_visible_objects cfg)
                (inject_Z (qualifying_count cfg scene (scored_image cfg camera scene)))
    then Rsum (map (fun i =>
                      ln (IZR (Z.quot
                                 (visible_pixel_count scene (scored_image cfg camera scene) i)
                                 (Qfloor (min_visible_fraction cfg
                                          * inject_Z (image_pixel_count cfg))))))
                   (qualifying_nodes cfg scene (scored_image cfg camera scene)))
    else 0%R.
Proof.
  intros Hm [Hn [Hf [Hnn Hkp]]] Hg.
  assert (Hx : (0 <= min_visible_fraction cfg * inject_Z (image_pixel_count cfg))%Q).
  { eapply Qle_trans; [|apply Qfloor_le]. change 0%Q with (inject_Z 0).
    rewrite <- Zle_Qle. lia. }
  destruct (threshold_is_floor cfg Hn Hx Hf) as [Hmul [Hthr H0]].
  assert (Hn0 : image_pixel_count cfg <> 0).
  { intros E. rewrite E in Hg. destruct (min_visible_fraction cfg) as [a b].
    unfold Qfloor in Hg. simpl in Hg. rewrite Z.mul_0_r in Hg.
    rewrite Z.div_0_l in Hg by lia. lia. }
  rewrite (SceneCoverageScore_rendered cfg camera scene parent_node
             (image_pixel_count cfg)
             (Qfloor (min_visible_fraction cfg * inject_Z (image_pixel_count cfg))));
    try assumption; [|rewrite Hmul in Hthr; exact Hthr | lia].
  cbn [fst]. set (image := scored_image cfg camera scene).
  set (m := Qfloor (min_visible_fraction cfg * inject_Z (image_pixel_count cfg))) in *.
  assert (Hloop : sum_visible_logs scene (count_node_pixels scene image) m
                  = ((0 + Rsum (map (fun i => ln (IZR (Z.quot (visible_pixel_count scene image i) m)))
                                    (qualifying_nodes cfg scene image)))%R,
                     0 + qualifying_count cfg scene image)).
  { rewrite sum_visible_logs_fold. unfold m. rewrite counted_is_qualifying. fold m.
    rewrite (fold_left_ext_in _
               (fun acc i => ((fst acc + ln (IZR (Z.quot (visible_pixel_count scene image i) m)))%R,
                              Int.add (snd acc) 1))).
    - apply log_fold; [lia|].
      pose proof (filter_length_le (qualifies cfg scene image) (indices (NNodes scene))) as H.
      rewrite indices_length in H. unfold qualifying_nodes, NNodes in *. lia.
    - intros acc i Hin. unfold qualifying_nodes in Hin.
      apply filter_In in Hin. destruct Hin as [Hin _]. apply indices_in in Hin.
      rewrite (count_node_pixels_get scene image i Hin).
      unfold log_int, Int.div. rewrite wrap_id; [reflexivity|].
      pose proof (visible_pixel_count_nonneg scene image i) as Hv0.
      pose proof (visible_pixel_count_max scene image i) as Hv1.
      assert (0 <= Z.quot (visible_pixel_count scene image i) m
              <= visible_pixel_count scene image i).
      { rewrite Z.quot_div_nonneg by lia. split.
        - apply Z.div_pos; lia.
        - apply Z.div_le_upper_bound; nia. }
      unfold Int.in_range, Int.MIN. lia. }
  rewrite (score_image_method1 cfg scene image _ m _ _ Hm Hloop).
  unfold enough_objects, Qlt_bool. rewrite Z.add_0_l.
  destruct (negb (Qle_bool _ _)); [|reflexivity]. lra.
Qed.

End SceneScoreSign.

(** ** Object coverage lies between 0 and 1 *)

Section ObjectScoreRange.

Context {AK : AffineKernel} {SQ : SceneQuery}.










End ObjectScoreRange.

Section ScoreRanges.

Context {AK : AffineKernel} {RD : Renderer} {SQ : SceneQuery}.
Variable cfg : Config.


End ScoreRanges.


(** ** The cameras that the strategies emit *)

Lemma emits_refl (P : Camera -> Prop) (cameras : list Camera) : emits P cameras cameras.
Proof. exists []. split; [now rewrite app_nil_r | constructor]. Qed.

Lemma emits_trans (P : Camera -> Prop) (a b c : list Camera) :
  emits P a b -> emits P b c -> emits P a c.
Proof.
  intros [e1 [H1 F1]] [e2 [H2 F2]]. exists (e1 ++ e2). split.
  - rewrite H2, H1. now rewrite app_assoc.
  - apply Forall_app. split; assumption.
Qed.

Lemma emits_impl (P Q : Camera -> Prop) (a b : list Camera) :
  (forall c, P c -> Q c) -> emits P a b -> emits Q a b.
Proof.
  intros H [e [He F]]. exists e. split; [exact He|].
  eapply Forall_impl; [|exact F]. exact H.
Qed.

Lemma fold_left_invariant {A B : Type} (I : A -> Prop) (f : A -> B -> A) (l : list B) :
  (forall a b, In b l -> I a -> I (f a b)) -> forall a, I a -> I (fold_left f l a).
Proof.
  induction l as [|b l IH]; intros Hf a Ha; simpl; [exact Ha|].
  apply IH.
  - intros a' b' Hin. apply Hf. right. exact Hin.
  - apply Hf; [left; reflexivity | exact Ha].
Qed.

Section Emission.

Context {AK : AffineKernel} {RD : Renderer} {SQ : SceneQuery}
        {RZ : Rasterizer} {VS : ViewSampler}.
Variable cfg : Config.

Lemma default_good : good_best cfg R3Camera_default.
Proof. left. reflexivity. Qed.

(** The acceptance test keeps the best camera good. *)
Lemma remember_best_good (camera best_camera : R3Camera) :
  good_best cfg best_camera -> good_best cfg (remember_best cfg camera best_camera).
Proof.
  intros Hb. unfold remember_best.
  destruct (Req_EM_T (Value camera) 0) as [E|E]; [exact Hb|].
  destruct (Rlt_dec (Value camera) (Q2R (min_score cfg))) as [L|L]; [exact Hb|].
  destruct (Rgt_dec (Value camera) (Value best_camera)) as [G|G]; [|exact Hb].
  right. split.
  - destruct Hb as [Hb|[Hb _]]; lra.
  - lra.
Qed.

(** A candidate that passes the three tests becomes the best camera. *)
Lemma remember_best_takes (camera best_camera : R3Camera) :
  (Value camera > 0)%R -> (Value camera >= Q2R (min_score cfg))%R ->
  (Value camera > Value best_camera)%R ->
  remember_best cfg camera best_camera = camera.
Proof.
  intros H0 Hm Hb. unfold remember_best.
  destruct (Req_EM_T (Value camera) 0) as [E|E]; [lra|].
  destruct (Rlt_dec (Value camera) (Q2R (min_score cfg))) as [L|L]; [lra|].
  destruct (Rgt_dec (Value camera) (Value best_camera)) as [G|G]; [reflexivity | lra].
Qed.

(** A candidate that fails one of the tests leaves the best camera. *)
Lemma remember_best_keeps (camera best_camera : R3Camera) :
  (Value camera <= Value best_camera)%R ->
  remember_best cfg camera best_camera = best_camera.
Proof.
  intros Hb. unfold remember_best.
  destruct (Req_EM_T (Value camera) 0) as [E|E]; [reflexivity|].
  destruct (Rlt_dec (Value camera) (Q2R (min_score cfg))) as [L|L]; [reflexivity|].
  destruct (Rgt_dec (Value camera) (Value best_camera)) as [G|G]; [lra | reflexivity].
Qed.

(** A good best camera is inserted only when it is accepted. *)
Lemma insert_best_emits (P : Camera -> Prop) (best_camera : R3Camera)
    (nm : option string) (cameras : list Camera) :
  good_best cfg best_camera ->
  (accepted cfg (mkCamera best_camera nm) -> P (mkCamera best_camera nm)) ->
  emits P cameras (insert_best best_camera nm cameras).
Proof.
  intros Hg HP. unfold insert_best.
  destruct (Rgt_dec (Value best_camera) 0) as [G|G]; [|apply emits_refl].
  exists [mkCamera best_camera nm]. split; [reflexivity|].
  constructor; [|constructor]. apply HP. unfold accepted. simpl.
  destruct Hg as [Hg|Hg]; [lra | exact Hg].
Qed.

(** *** Object cameras *)

Lemma best_object_camera_good (scene : R3Scene) (node : NodeId) (st : ScoreState) :
  good_best cfg (fst (best_object_camera cfg scene node st)).
Proof.
  unfold best_object_camera.
  apply (fold_left_invariant (fun acc : R3Camera * ScoreState => good_best cfg (fst acc))).
  - intros [best st'] j _ Hb. simpl in Hb.
    destruct (ObjectView cfg scene node j (rng st')) as [camera r].
    destruct (ObjectCoverageScore (set_rng st' r) camera scene node) as [score st''].
    simpl. apply remember_best_good. exact Hb.
  - simpl. apply default_good.
Qed.

Lemma CreateObjectCameras_emits (scene : R3Scene) (cameras : list Camera)
    (st : ScoreState) :
  emits (accepted cfg) cameras (fst (CreateObjectCameras cfg scene cameras st)).
Proof.
  unfold CreateObjectCameras.
  apply (fold_left_invariant
           (fun acc : list Camera * ScoreState => emits (accepted cfg) cameras (fst acc))).
  - intros [cams st'] i _ H. simpl in H.
    destruct (Node scene i) as [node|]; [|exact H].
    destruct (IsObject node); simpl; [|exact H].
    pose proof (best_object_camera_good scene i st') as Hg.
    destruct (best_object_camera cfg scene i st') as [best st''].
    simpl in *. eapply emits_trans; [exact H|].
    apply insert_best_emits; [exact Hg | auto].
  - simpl. apply emits_refl.
Qed.

(** *** Wall cameras *)

Lemma best_wall_camera_good (scene : R3Scene) (room_node : NodeId)
    (views : list R3Camera) :
  good_best cfg (best_wall_camera cfg scene room_node views).
Proof.
  unfold best_wall_camera. apply fold_left_invariant.
  - intros best camera _ Hb. apply remember_best_good. exact Hb.
  - apply default_good.
Qed.

Lemma enumerate_in {A : Type} (l : list A) (k : Z) (a : A) :
  In (k, a) (enumerate l) -> 0 <= k < Z.of_nat (length l).
Proof.
  unfold enumerate. intros H. apply in_combine_l in H.
  apply in_map_iff in H. destruct H as [n [Hn Hin]]. apply in_seq in Hin. lia.
Qed.

(** The loop index of an element is its position in the list. *)
Lemma enumerate_nth {A : Type} (l : list A) (k : Z) (a : A) :
  In (k, a) (enumerate l) -> 0 <= k /\ nth_error l (Z.to_nat k) = Some a.
Proof.
  unfold enumerate. intros H.
  assert (G : forall (start : nat) (l' : list A),
             In (k, a) (combine (map Z.of_nat (seq start (length l'))) l') ->
             exists n, k = Z.of_nat (start + n) /\ nth_error l' n = Some a).
  { intros start l'. revert start.
    induction l' as [|x l' IH]; intros start Hin; [destruct Hin|].
    cbn [length seq map combine] in Hin. destruct Hin as [E|Hin].
    - inversion E; subst. exists 0%nat. split; [f_equal; lia | reflexivity].
    - destruct (IH (S start) Hin) as [n [Hk Hn]].
      exists (S n). split; [rewrite Hk; f_equal; lia | exact Hn]. }
  destruct (G 0%nat l H) as [n [Hk Hn]]. subst k.
  split; [lia|]. rewrite Nat2Z.id. exact Hn.
Qed.

Lemma room_wall_cameras_emits (scene : R3Scene) (project : P5DProject)
    (floor : P5DFloor) (room : P5DRoom) (z : Q)
    (cameras : list Camera) (st : ScoreState) :
  In floor (Floors project) -> In room (Rooms floor) ->
  emits (wall_emitted cfg scene (Some project)) cameras
        (fst (room_wall_cameras cfg scene room z cameras st)).
Proof.
  intros Hfloor Hinroom. unfold room_wall_cameras.
  destruct (wall_room_node scene room) as [[room_node nd]|] eqn:Ew; [|apply emits_refl].
  assert (Hroom : room_data room = Some room_node /\ Node scene room_node = Some nd).
  { unfold wall_room_node in Ew.
    destruct (room_data room) as [rn|]; [|discriminate].
    destruct (Node scene rn) as [nd'|] eqn:En; [|discriminate].
    destruct (NChildren nd' <? 3); [discriminate|].
    destruct (Child nd' 2) as [ceiling_node|]; [|discriminate].
    destruct (Node scene ceiling_node) as [ceiling|]; [|discriminate].
    destruct (name_has_prefix "Ceilings#" (Name ceiling)); [|discriminate].
    inversion Ew; subst. split; [reflexivity | exact En]. }
  destruct Hroom as [Hdata Hnode].
  apply (fold_left_invariant
           (fun acc : list Camera * ScoreState =>
              emits (wall_emitted cfg scene (Some project)) cameras (fst acc))).
  - intros [cams st'] [k wall] Hin H. simpl in H.
    destruct (WallViews cfg room wall z (rng st')) as [views r].
    simpl. eapply emits_trans; [exact H|].
    apply insert_best_emits; [apply best_wall_camera_good|].
    intros Ha. split; [exact Ha|].
    destruct (enumerate_nth _ _ _ Hin) as [Hk Hwall].
    exists project, floor, room, room_node, nd, k, wall.
    repeat split; assumption.
  - simpl. apply emits_refl.
Qed.

Lemma floor_wall_cameras_emits (scene : R3Scene) (project : P5DProject)
    (floors : list P5DFloor) :
  (forall floor, In floor floors -> In floor (Floors project)) ->
  forall (next_z : Q) (cameras : list Camera) (st : ScoreState),
    emits (wall_emitted cfg scene (Some project)) cameras
          (fst (floor_wall_cameras cfg scene floors next_z cameras st)).
Proof.
  induction floors as [|floor rest IH]; intros Hfloors next_z cameras st; simpl.
  - apply emits_refl.
  - assert (H : emits (wall_emitted cfg scene (Some project)) cameras
                  (fst (fold_left
                          (fun acc room =>
                             let '(cameras, st) := acc in
                             room_wall_cameras cfg scene room next_z cameras st)
                          (Rooms floor) (cameras, st)))).
    { apply (fold_left_invariant
               (fun acc : list Camera * ScoreState =>
                  emits (wall_emitted cfg scene (Some project)) cameras (fst acc))).
      - intros [cams st'] room Hroom H. simpl in H.
        eapply emits_trans; [exact H|].
        apply (room_wall_cameras_emits scene project floor room);
          [apply Hfloors; left; reflexivity | exact Hroom].
      - simpl. apply emits_refl. }
    destruct (fold_left _ (Rooms floor) (cameras, st)) as [cams st'].
    simpl in H. eapply emits_trans; [exact H|].
    apply IH. intros f Hf. apply Hfloors. right. exact Hf.
Qed.

(** *** Room cameras *)

Lemma room_candidate_good (scene : R3Scene) (room_node : NodeId) (viewpoint_mask : R2Grid)
    (j : Z) (z y : Q) (acc : R3Camera * nat) (x : Q) :
  good_best cfg (fst acc) ->
  good_best cfg (fst (room_candidate cfg scene room_node viewpoint_mask j z y acc x)).
Proof.
  intros H. unfold room_candidate. destruct acc as [best r]. simpl in H.
  destruct (Qlt_bool (WorldValue viewpoint_mask _) (1 # 2)); simpl; [exact H|].
  apply remember_best_good. exact H.
Qed.

Lemma best_room_camera_good (scene : R3Scene) (room_node : NodeId) (viewpoint_mask : R2Grid)
    (room_bbox : R3Box) (j : Z) (z : Q) (r : nat) (best : R3Camera) (r' : nat) :
  best_room_camera cfg scene room_node viewpoint_mask room_bbox j z r = Some (best, r') ->
  good_best cfg best.
Proof.
  unfold best_room_camera.
  destruct (for_upto (YMin room_bbox) (YMax room_bbox) (position_sampling cfg))
    as [ys|]; [|discriminate].
  assert (G : forall xs,
            good_best cfg
              (fst (fold_left
                      (fun acc y =>
                         fold_left
                           (room_candidate cfg scene room_node viewpoint_mask j z y) xs acc)
                      ys (R3Camera_default, r)))).
  { intros xs.
    apply (fold_left_invariant (fun acc : R3Camera * nat => good_best cfg (fst acc))).
    - intros acc y _ Hacc.
      apply (fold_left_invariant (fun acc : R3Camera * nat => good_best cfg (fst acc)));
        [|exact Hacc].
      intros acc' x _ Hacc'. apply room_candidate_good. exact Hacc'.
    - simpl. apply default_good. }
  destruct ys as [|y ys'].
  - intros H. inversion H; subst. apply default_good.
  - destruct (for_upto (XMin room_bbox) (XMax room_bbox) (position_sampling cfg))
      as [xs|]; [|discriminate].
    intros H. injection H as H1.
    change best with (fst (best, r')). rewrite <- H1. exact (G xs).
Qed.

Lemma room_direction_cameras_emits (scene : R3Scene) (i : NodeId) (nm : string)
    (viewpoint_mask : R2Grid) (room_bbox : R3Box) (z : Q) (js : list Z) :
  (exists nd, Node scene i = Some nd /\ Name nd = Some nm) ->
  has_prefix "Room#" nm = true ->
  (forall j, In j js -> 0 <= j < nangles_around cfg) ->
  forall (cameras : list Camera) (r : nat) (cameras' : list Camera) (r' : nat),
    room_direction_cameras cfg scene i (Some nm) viewpoint_mask room_bbox z js cameras r
    = Some (cameras', r') ->
    emits (room_emitted cfg scene) cameras cameras'.
Proof.
  intros Hnode Hprefix. induction js as [|j js IH]; intros Hjs cameras r cameras' r' H.
  - simpl in H. inversion H; subst. apply emits_refl.
  - simpl in H.
    destruct (best_room_camera cfg scene i viewpoint_mask room_bbox j z r)
      as [[best r1]|] eqn:Eb; [|discriminate].
    apply best_room_camera_good in Eb.
    eapply emits_trans; [|eapply IH; [|exact H]].
    + apply insert_best_emits; [exact Eb|].
      intros Ha. split; [exact Ha|].
      exists i, nm, j. split; [exact Hnode|]. split; [exact Hprefix|].
      split; [apply Hjs; left; reflexivity | reflexivity].
    + intros j' Hin. apply Hjs. right. exact Hin.
Qed.

Lemma room_cameras_emits (scene : R3Scene) (i : NodeId) (cameras : list Camera)
    (st : ScoreState) (cameras' : list Camera) (st' : ScoreState) :
  room_cameras cfg scene i cameras st = Done (cameras', st') ->
  emits (room_emitted cfg scene) cameras cameras'.
Proof.
  unfold room_cameras.
  destruct (Node scene i) as [room|] eqn:En.
  2:{ intros H. inversion H; subst. apply emits_refl. }
  destruct (Name room) as [nm|] eqn:Enm; simpl.
  2:{ intros H. inversion H; subst. apply emits_refl. }
  destruct (has_prefix "Room#" nm) eqn:Ep; simpl.
  2:{ intros H. inversion H; subst. apply emits_refl. }
  destruct (Qlt_bool _ _).
  { intros H. inversion H; subst. apply emits_refl. }
  destruct (ComputeViewpointMask cfg scene (Some i)) as [viewpoint_mask| |].
  - destruct (room_direction_cameras _ _ _ _ _ _ _ _ _ _) as [[cams r]|] eqn:Ed;
      [|discriminate].
    intros H. inversion H; subst.
    eapply room_direction_cameras_emits; [| |  |exact Ed].
    + exists room. split; [exact En | exact Enm].
    + exact Ep.
    + intros j Hj. apply indices_in in Hj. exact Hj.
  - intros H. inversion H; subst. apply emits_refl.
  - discriminate.
Qed.

Lemma rooms_cameras_emits (scene : R3Scene) (nodes : list NodeId) :
  forall (cameras : list Camera) (st : ScoreState) (cameras' : list Camera)
         (st' : ScoreState),
    rooms_cameras cfg scene nodes cameras st = Done (cameras', st') ->
    emits (room_emitted cfg scene) cameras cameras'.
Proof.
  induction nodes as [|i rest IH]; intros cameras st cameras' st' H; simpl in H.
  - inversion H; subst. apply emits_refl.
  - destruct (room_cameras cfg scene i cameras st) as [[cams1 st1]| |] eqn:Er;
      try discriminate.
    eapply emits_trans; [eapply room_cameras_emits; exact Er|].
    eapply IH. exact H.
Qed.

Lemma CreateRoomCameras_emits (scene : R3Scene) (cameras : list Camera)
    (st : ScoreState) (cameras' : list Camera) (st' : ScoreState) :
  CreateRoomCameras cfg scene cameras st = Done (cameras', st') ->
  emits (room_emitted cfg scene) cameras cameras'.
Proof. apply rooms_cameras_emits. Qed.

Lemma CreateWallCameras_emits (scene : R3Scene) (data : option P5DProject)
    (cameras : list Camera) (st : ScoreState) :
  emits (wall_emitted cfg scene data) cameras
        (fst (CreateWallCameras cfg scene data cameras st)).
Proof.
  unfold CreateWallCameras.
  destruct (Node scene (Root scene)) as [rootnode|]; [|apply emits_refl].
  destruct (negb (name_has_prefix "Project#" (Name rootnode))); [apply emits_refl|].
  destruct data as [project|]; [|apply emits_refl].
  apply floor_wall_cameras_emits. intros floor H. exact H.
Qed.

End Emission.

(** ** Labels *)

Lemma append_assoc (a b c : string) : ((a ++ b) ++ c = a ++ (b ++ c))%string.
Proof. induction a as [|x a IH]; simpl; [reflexivity | now rewrite IH]. Qed.

Lemma last_char_app (a b : string) :
  b <> EmptyString -> last_char (a ++ b) = last_char b.
Proof.
  intros Hb. induction a as [|c a IH]; simpl; [reflexivity|].
  rewrite IH. destruct (a ++ b)%string eqn:E; [|reflexivity].
  destruct a; simpl in E; [contradiction | discriminate].
Qed.

Lemma last_char_newline (a : string) : last_char (a ++ newline) = Some newline_char.
Proof. rewrite last_char_app; [reflexivity | discriminate]. Qed.







Section Claims.

Context {AK : AffineKernel} {RD : Renderer} {SQ : SceneQuery}
        {RZ : Rasterizer} {VS : ViewSampler}.
Variable cfg : Config.

(** C6.  Every camera emitted by the object-centric, the wall-centric or
    the room-centric strategy has a score strictly greater than 0 and at
    least [min_score], whatever [min_score] is: each strategy extends the
    camera list by accepted cameras only. *)
Theorem emitted_cameras_accepted (scene : R3Scene) (data : option P5DProject)
    (cameras : list Camera) (st : ScoreState) :
  emits (accepted cfg) cameras (fst (CreateObjectCameras cfg scene cameras st))
  /\ emits (accepted cfg) cameras (fst (CreateWallCameras cfg scene data cameras st))
  /\ match CreateRoomCameras cfg scene cameras st with
     | Done (cameras', _) => emits (accepted cfg) cameras cameras'
     | Diverges => True
     | Fault => True
     end.
Proof.
  split; [apply CreateObjectCameras_emits|]. split.
  - eapply emits_impl; [|apply CreateWallCameras_emits]. intros c [H _]. exact H.
  - destruct (CreateRoomCameras cfg scene cameras st) as [[cameras' st']| |] eqn:E;
      [|exact I|exact I].
    eapply emits_impl; [|eapply CreateRoomCameras_emits; exact E].
    intros c [H _]. exact H.
Qed.

End Claims.

(** In the small house the wall strategy emits one camera for the wall of
    the first room: its score is 1/2 and its label ends with the
    newline. *)
Example house_wall_camera :
  fst (@CreateWallCameras unit_affine (picture_renderer (table_picture 50)) fixed_views
         (small_image 0 (1 # 10)) house (Some house_project) [] initial_state)
  = [mkCamera (SetValue R3Camera_default (1 / 2))
              (Some ("Room#1_0_0" ++ newline)%string)].
Proof.
  unfold CreateWallCameras.
  replace (Node house (Root house)) with (Some (nth 0 (Nodes house) (leaf "" 0 room_box [])))
    by reflexivity.
  replace (negb (name_has_prefix "Project#" _)) with false by reflexivity.
  cbn [house_project Floors floor_wall_cameras Rooms fold_left].
  unfold room_wall_cameras.
  replace (wall_room_node house _)
    with (Some (1, nth 1 (Nodes house) (leaf "" 0 room_box []))) by reflexivity.
  cbn [Walls enumerate length seq map combine fold_left].
  cbn [WallViews fixed_views].
  unfold best_wall_camera. cbn [fold_left].
  rewrite house_table_score. cbn [fst].
  rewrite remember_best_takes.
  - unfold insert_best.
    destruct (Rgt_dec _ _) as [G|G].
    + reflexivity.
    + exfalso. apply G. simpl. lra.
  - simpl. lra.
  - simpl. unfold Q2R. simpl. lra.
  - simpl. lra.
Qed.

(** ** Viewpoint masks *)

Section MaskFacts.

Context {AK : AffineKernel} {SQ : SceneQuery} {RZ : Rasterizer}.
Variable cfg : Config.

(** The grid spacing is [min(0.1, min_distance_from_obstacle / 2)], and 0.1
    when the clearance is 0. *)
Lemma grid_sample_spacing_value :
  ((min_distance_from_obstacle cfg == 0)%Q -> grid_sample_spacing cfg = (1 # 10)%Q)
  /\ (~ (min_distance_from_obstacle cfg == 0)%Q ->
      (grid_sample_spacing cfg == Qmin (1 # 10) (min_distance_from_obstacle cfg / 2))%Q).
Proof.
  unfold grid_sample_spacing, grid_sampling_factor.
  set (d := min_distance_from_obstacle cfg). split.
  - intros Hd.
    assert (E : Qeq_bool (d / 2) 0 = true).
    { apply Qeq_bool_iff. rewrite Hd. reflexivity. }
    rewrite E. reflexivity.
  - intros Hd.
    assert (E : Qeq_bool (d / 2) 0 = false).
    { destruct (Qeq_bool (d / 2) 0) eqn:E; [|reflexivity].
      apply Qeq_bool_iff in E. exfalso. apply Hd.
      assert (H2 : (d == d / 2 * 2)%Q) by (field).
      rewrite H2, E. reflexivity. }
    rewrite E. unfold Qlt_bool.
    destruct (Qle_bool (d / 2) (1 # 10)) eqn:L; simpl.
    + apply Qle_bool_iff in L. symmetry. apply Q.min_r. exact L.
    + assert (Hlt : ((1 # 10) < d / 2)%Q).
      { apply Qnot_le_lt. intros H. apply Qle_bool_iff in H. congruence. }
      symmetry. apply Q.min_l. apply Qlt_le_weak. exact Hlt.
Qed.

(** The grid spans the XY bounding box of the room, and both resolutions
    are computed from the X extent. *)
Lemma grid_resolution_value (room_bbox : R3Box) :
  grid_bbox room_bbox
  = mkR2Box (XMin room_bbox) (YMin room_bbox) (XMax room_bbox) (YMax room_bbox)
  /\ fst (grid_resolution cfg room_bbox)
     = Int.of_double ((XMax room_bbox - XMin room_bbox) / grid_sample_spacing cfg)
  /\ snd (grid_resolution cfg room_bbox)
     = Int.of_double ((XMax room_bbox - XMin room_bbox) / grid_sample_spacing cfg).
Proof. repeat split. Qed.

Lemma Threshold_binary (g : R2Grid) (t : Q) (i : Z) :
  GridValue (Threshold g t 0 1) i = 0%Q \/ GridValue (Threshold g t 0 1) i = 1%Q.
Proof. simpl. destruct (Qle_bool (GridValue g i) t); auto. Qed.

Lemma Erode_binary (g : R2Grid) (d : Q) (i : Z) :
  GridValue (Erode g d) i = 0%Q \/ GridValue (Erode g d) i = 1%Q.
Proof. simpl. destruct (forallb _ _); auto. Qed.

(** A masked grid holds the value of the grid or 0. *)
Lemma Mask_value (g mask : R2Grid) (i : Z) :
  GridValue (Mask g mask) i = 0%Q \/ GridValue (Mask g mask) i = GridValue g i.
Proof. simpl. destruct (Qeq_bool (GridValue mask i) 0); auto. Qed.

(** A built mask is the floor mask masked by the object mask. *)
Lemma ComputeViewpointMask_built (scene : R3Scene) (room_node : option NodeId)
    (mask : R2Grid) :
  ComputeViewpointMask cfg scene room_node = MaskBuilt mask ->
  exists room_id room wall_node floor_node ceiling_node xres yres object_mask,
    room_structure scene room_node
    = Some (room_id, room, wall_node, floor_node, ceiling_node)
    /\ grid_resolution cfg (RoomWorldBBox scene room_id room) = (xres, yres)
    /\ 3 <= xres /\ 3 <= yres
    /\ ObjectMask scene room_id room floor_node ceiling_node xres yres = Some object_mask
    /\ mask = Mask (FloorMask scene room_id room floor_node xres yres) object_mask.
Proof.
  unfold ComputeViewpointMask.
  destruct (room_structure scene room_node)
    as [[[[[room_id room] wall_node] floor_node] ceiling_node]|]; [|discriminate].
  destruct (grid_resolution cfg (RoomWorldBBox scene room_id room)) as [xres yres] eqn:Eg.
  destruct ((xres <? 3) || (yres <? 3)) eqn:E; [discriminate|].
  apply orb_false_elim in E. destruct E as [Ex Ey].
  apply Z.ltb_ge in Ex. apply Z.ltb_ge in Ey.
  destruct (ObjectMask scene room_id room floor_node ceiling_node xres yres)
    as [object_mask|] eqn:Eo; [|discriminate].
  intros H. inversion H; subst.
  exists room_id, room, wall_node, floor_node, ceiling_node, xres, yres, object_mask.
  split; [reflexivity|]. split; [exact Eg|]. split; [exact Ex|].
  split; [exact Ey|]. split; [exact Eo | reflexivity].
Qed.

Lemma room_structure_some (scene : R3Scene) (room_node : option NodeId)
    (room_id : NodeId) (room : R3SceneNode) (wall_node floor_node ceiling_node : NodeId) :
  room_structure scene room_node
  = Some (room_id, room, wall_node, floor_node, ceiling_node) ->
  room_node = Some room_id /\ Node scene room_id = Some room
  /\ Child room 1 = Some floor_node.
Proof.
  unfold room_structure.
  destruct room_node as [rid|]; [|discriminate].
  destruct (Node scene rid) as [r|] eqn:En; [|discriminate].
  destruct (negb (name_has_prefix "Room#" (Name r))); [discriminate|].
  destruct (NChildren r <? 3); [discriminate|].
  destruct (Child r 0) as [w|]; [|discriminate].
  destruct (Child r 1) as [f|] eqn:Ef; [|discriminate].
  destruct (Child r 2) as [c|]; [|discriminate].
  destruct (Node scene w) as [wn|]; [|discriminate].
  destruct (Node scene f) as [fn|]; [|discriminate].
  destruct (Node scene c) as [cn|]; [|discriminate].
  destruct (negb (name_has_prefix "Walls#" (Name wn))); [discriminate|].
  destruct (negb (name_has_prefix "Floors#" (Name fn))); [discriminate|].
  destruct (negb (name_has_prefix "Ceilings#" (Name cn))); [discriminate|].
  intros H. inversion H; subst. repeat split; assumption.
Qed.

(** C7.  Every cell of a successfully built viewpoint mask holds exactly
    the value 0 or 1, and the mask is a subset of the eroded floor mask:
    a cell that is 1 in the mask is 1 in the floor mask. *)
Theorem viewpoint_mask_binary (scene : R3Scene) (room_node : option NodeId)
    (mask : R2Grid) :
  ComputeViewpointMask cfg scene room_node = MaskBuilt mask ->
  exists room_id room floor_node,
    room_node = Some room_id /\ Node scene room_id = Some room
    /\ Child room 1 = Some floor_node
    /\ (forall i, GridValue mask i = 0%Q \/ GridValue mask i = 1%Q)
    /\ (forall ix iy, CellValue mask ix iy = 0%Q \/ CellValue mask ix iy = 1%Q)
    /\ (forall i,
          GridValue mask i = 1%Q ->
          GridValue (FloorMask scene room_id room floor_node
                               (XResolution mask) (YResolution mask)) i = 1%Q).
Proof.
  intros H. apply ComputeViewpointMask_built in H.
  destruct H as [room_id [room [wall_node [floor_node [ceiling_node
                [xres [yres [object_mask [Hs [_ [_ [_ [_ Hm]]]]]]]]]]]]].
  exists room_id, room, floor_node.
  destruct (room_structure_some _ _ _ _ _ _ _ Hs) as [H1 [H2 H3]].
  split; [exact H1|]. split; [exact H2|]. split; [exact H3|].
  assert (Hb : forall i, GridValue mask i = 0%Q \/ GridValue mask i = 1%Q).
  { intros i. subst mask.
    destruct (Mask_value (FloorMask scene room_id room floor_node xres yres)
                         object_mask i) as [E|E]; [left; exact E|].
    rewrite E. apply Erode_binary. }
  split; [exact Hb|]. split; [intros ix iy; apply Hb|].
  intros i Hi. subst mask.
  destruct (Mask_value (FloorMask scene room_id room floor_node xres yres)
                       object_mask i) as [E|E].
  - rewrite E in Hi. discriminate.
  - rewrite E in Hi. exact Hi.
Qed.

End MaskFacts.

(** ** Viewpoint masks in the small house *)

(** C3.  The first room of the small house is 1 long in X and 0.1 long in
    Y; with a clearance of 0.1 the grid spacing is 0.05.  The Y extent
    divided by the spacing is 2, below 3, yet both resolutions are 20 (the
    Y resolution is computed from the X extent) and the mask is built
    instead of the room being rejected. *)
Theorem grid_resolution_uses_x_extent :
  grid_sample_spacing (small_image 0 (1 # 10)) = (1 # 20)%Q
  /\ grid_resolution (small_image 0 (1 # 10)) room_box = (20, 20)
  /\ Int.of_double (YLength2 (grid_bbox room_box)
                    / grid_sample_spacing (small_image 0 (1 # 10))) = 2
  /\ exists mask,
       @ComputeViewpointMask unit_affine clear_view full_raster
         (small_image 0 (1 # 10)) house (Some 1) = MaskBuilt mask
       /\ XResolution mask = 20 /\ YResolution mask = 20.
Proof.
  split; [reflexivity|]. split; [reflexivity|]. split; [reflexivity|].
  eexists. split.
  - unfold ComputeViewpointMask.
    replace (room_structure house (Some 1))
      with (Some (1, nth 1 (Nodes house) (nth 0 (Nodes house) (leaf "" 0 room_box [])),
                  2, 3, 4)) by reflexivity.
    replace (grid_resolution _ _) with (20, 20) by reflexivity.
    cbn [orb Z.ltb Z.compare Pos.compare Pos.compare_cont].
    unfold ObjectMask. cbn [Parent nth house Nodes leaf].
    reflexivity.
  - split; reflexivity.
Qed.

Lemma house_mask_built :
  exists mask,
    @ComputeViewpointMask unit_affine clear_view full_raster
      (small_image 0 (1 # 10)) house (Some 1) = MaskBuilt mask
    /\ XResolution mask = 20 /\ YResolution mask = 20.
Proof.
  eexists. split.
  - unfold ComputeViewpointMask.
    replace (room_structure house (Some 1))
      with (Some (1, nth 1 (Nodes house) (nth 0 (Nodes house) (leaf "" 0 room_box [])),
                  2, 3, 4)) by reflexivity.
    replace (grid_resolution _ _) with (20, 20) by reflexivity.
    cbn [orb Z.ltb Z.compare Pos.compare Pos.compare_cont].
    unfold ObjectMask. cbn [Parent nth house Nodes leaf].
    reflexivity.
  - split; reflexivity.
Qed.

(** A closed instance of C7: the mask of the first room of the small
    house. *)
Lemma viewpoint_mask_binary_witness :
  exists mask,
    @ComputeViewpointMask unit_affine clear_view full_raster
      (small_image 0 (1 # 10)) house (Some 1) = MaskBuilt mask
    /\ (forall i, GridValue mask i = 0%Q \/ GridValue mask i = 1%Q).
Proof.
  destruct house_mask_built as [mask [H _]].
  exists mask. split; [exact H|].
  destruct (@viewpoint_mask_binary unit_affine clear_view full_raster
              (small_image 0 (1 # 10)) house (Some 1) mask H)
    as [room_id [room [floor_node [_ [_ [_ [Hb _]]]]]]].
  exact Hb.
Defined.

(** ** Room cameras in the small house *)

Local Abbreviation house_cfg := (small_image 0 (1 # 10)).
Local Abbreviation house_renderer := (picture_renderer (table_picture 50)).

Lemma house_floor_mask :
  exists mask,
    @ComputeViewpointMask unit_affine clear_view floor_raster house_cfg house (Some 1)
    = MaskBuilt mask
    /\ Qlt_bool (GridValue mask 0) (1 # 2) = false.
Proof.
  eexists. split.
  - unfold ComputeViewpointMask.
    replace (room_structure house (Some 1))
      with (Some (1, nth 1 (Nodes house) (nth 0 (Nodes house) (leaf "" 0 room_box [])),
                  2, 3, 4)) by reflexivity.
    replace (grid_resolution _ _) with (20, 20) by reflexivity.
    cbn [orb Z.ltb Z.compare Pos.compare Pos.compare_cont].
    unfold ObjectMask. cbn [Parent nth house Nodes leaf].
    reflexivity.
  - vm_compute. reflexivity.
Qed.

(** Every admissible candidate of the first room scores 1/2. *)
Lemma candidate_value (mask : R2Grid) (j : Z) (z y : Q) (best : R3Camera) (r : nat) (x : Q) :
  Qlt_bool (GridValue mask 0) (1 # 2) = false ->
  @room_candidate unit_affine house_renderer clear_view floor_raster fixed_views
    house_cfg house 1 mask j z y (best, r) x
  = (remember_best house_cfg half_camera best, S (S (S r))).
Proof.
  intros Hm. unfold room_candidate.
  cbn [WorldValue floor_raster]. rewrite Hm.
  cbn [RoomView fixed_views].
  rewrite house_table_score. reflexivity.
Qed.

(** Later candidates of the same score do not replace the best camera. *)
Lemma scan_rest (mask : R2Grid) (j : Z) (z y : Q) (xs : list Q) :
  Qlt_bool (GridValue mask 0) (1 # 2) = false ->
  forall r,
    fold_left (@room_candidate unit_affine house_renderer clear_view floor_raster
                 fixed_views house_cfg house 1 mask j z y) xs (half_camera, r)
    = (half_camera, (r + 3 * length xs)%nat).
Proof.
  intros Hm. induction xs as [|x xs IH]; intros r.
  - simpl. f_equal. lia.
  - cbn [fold_left]. rewrite candidate_value by exact Hm.
    rewrite remember_best_keeps by (simpl; lra).
    rewrite IH. f_equal. simpl. lia.
Qed.

Lemma scan_first (mask : R2Grid) (j : Z) (z y : Q) (x : Q) (xs : list Q) :
  Qlt_bool (GridValue mask 0) (1 # 2) = false ->
  forall r,
    fold_left (@room_candidate unit_affine house_renderer clear_view floor_raster
                 fixed_views house_cfg house 1 mask j z y) (x :: xs) (R3Camera_default, r)
    = (half_camera, (r + 3 * length (x :: xs))%nat).
Proof.
  intros Hm r. cbn [fold_left]. rewrite candidate_value by exact Hm.
  rewrite remember_best_takes; try (simpl; unfold Q2R; simpl; lra).
  rewrite scan_rest by exact Hm. f_equal. simpl. lia.
Qed.

(** In the small house the room strategy emits four cameras for the first
    room, one for each direction: the first candidate of each direction,
    with score 1/2 and a label without newline. *)
Example house_room_cameras :
  exists st',
    @room_cameras unit_affine house_renderer clear_view floor_raster fixed_views
      house_cfg house 1 [] initial_state
    = Done ([mkCamera half_camera (Some "Room#1_0_0"%string);
             mkCamera half_camera (Some "Room#1_0_1"%string);
             mkCamera half_camera (Some "Room#1_0_2"%string);
             mkCamera half_camera (Some "Room#1_0_3"%string)], st').
Proof.
  destruct house_floor_mask as [mask [Hbuilt Hm]].
  assert (Hbest : forall j z r,
            @best_room_camera unit_affine house_renderer clear_view floor_raster
              fixed_views house_cfg house 1 mask room_box j z r
            = Some (half_camera, (r + 15)%nat)).
  { intros j z r. unfold best_room_camera.
    replace (for_upto (YMin room_box) (YMax room_box) (position_sampling house_cfg))
      with (Some [0%Q]) by reflexivity.
    set (xs := Qiter 4 (0 + (1 # 4)) (1 # 4)).
    replace (for_upto (XMin room_box) (XMax room_box) (position_sampling house_cfg))
      with (Some (0%Q :: xs)) by reflexivity.
    cbv iota. change (fold_left ?f [?y] ?a) with (f a y). cbv beta.
    rewrite scan_first by exact Hm. reflexivity. }
  assert (Hins : forall nm cams,
            insert_best half_camera nm cams = cams ++ [mkCamera half_camera nm]).
  { intros nm cams. unfold insert_best.
    destruct (Rgt_dec (Value half_camera) 0) as [G|G]; [reflexivity|].
    exfalso. apply G. simpl. lra. }
  unfold room_cameras.
  replace (Node house 1) with (Some (nth 1 (Nodes house) (leaf "" 0 room_box [])))
    by reflexivity.
  replace (negb (name_has_prefix "Room#" _)) with false by reflexivity.
  replace (Qlt_bool _ _) with false by (vm_compute; reflexivity).
  replace (ComputeViewpointMask _ _ _) with (MaskBuilt mask) by (symmetry; exact Hbuilt).
  replace (nangles_around _) with 4 by reflexivity.
  replace (indices 4) with [0; 1; 2; 3] by reflexivity.
  change (BoxTransform _ _) with room_box.
  cbn [room_direction_cameras].
  rewrite !Hbest, !Hins.
  eexists. reflexivity.
Qed.

(** ** Loops over rationals *)

Lemma Qiter_length (n : nat) (v step : Q) : length (Qiter n v step) = n.
Proof. revert v. induction n as [|n IH]; intros v; simpl; [reflexivity | now rewrite IH]. Qed.

(** The [k]-th value of the loop is the start plus [k] steps. *)
Lemma Qiter_nth (n : nat) (step : Q) :
  forall (v : Q) (k : nat) (x : Q),
    nth_error (Qiter n v step) k = Some x ->
    (k < n)%nat /\ (x == v + inject_Z (Z.of_nat k) * step)%Q.
Proof.
  induction n as [|n IH]; intros v k x H.
  - destruct k; discriminate.
  - destruct k as [|k]; simpl in H.
    + inversion H; subst. split; [lia|]. simpl. ring.
    + apply IH in H. destruct H as [Hk Hx]. split; [lia|].
      rewrite Hx. rewrite Nat2Z.inj_succ. unfold Z.succ.
      rewrite inject_Z_plus. ring.
Qed.

(** [for_upto] lists the values for which the loop condition holds, and
    the condition fails for the value after the last. *)
Lemma for_upto_sound (lo hi step : Q) (vs : list Q) :
  for_upto lo hi step = Some vs ->
  (forall k x, nth_error vs k = Some x ->
               (x == lo + inject_Z (Z.of_nat k) * step)%Q /\ (x <= hi)%Q)
  /\ (hi < lo + inject_Z (Z.of_nat (length vs)) * step)%Q.
Proof.
  unfold for_upto, Qlt_bool.
  destruct (Qle_bool lo hi) eqn:E1; cbn [negb].
  - apply Qle_bool_iff in E1.
    destruct (Qle_bool step 0) eqn:E2; cbn [negb]; [discriminate|].
    assert (Hs : (0 < step)%Q).
    { apply Qnot_le_lt. intros H. apply Qle_bool_iff in H. congruence. }
    assert (Hne : ~ (step == 0)%Q) by (intros H; rewrite H in Hs; discriminate).
    set (q := ((hi - lo) / step)%Q).
    intros H.
    assert (Hv : vs = Qiter (Z.to_nat (Qfloor q + 1)) lo step) by congruence.
    clear H. subst vs.
    assert (Hq : (0 <= q)%Q).
    { unfold q. apply Qle_shift_div_l; [exact Hs|]. lra. }
    assert (Hf : 0 <= Qfloor q) by (change 0 with (Qfloor 0); apply Qfloor_resp_le, Hq).
    assert (Hmul : (q * step == hi - lo)%Q) by (unfold q; field; exact Hne).
    split.
    + intros k x Hk. apply Qiter_nth in Hk. destruct Hk as [Hlt Hx].
      split; [exact Hx|]. rewrite Hx.
      assert (Hkq : (inject_Z (Z.of_nat k) <= q)%Q).
      { eapply Qle_trans; [|apply Qfloor_le]. rewrite <- Zle_Qle. lia. }
      assert ((inject_Z (Z.of_nat k) * step <= q * step)%Q)
        by (apply Qmult_le_compat_r; [exact Hkq | apply Qlt_le_weak, Hs]).
      lra.
    + rewrite Qiter_length. rewrite Z2Nat.id by lia.
      pose proof (Qlt_floor q) as Hlt.
      assert ((q * step < inject_Z (Qfloor q + 1) * step)%Q)
        by (apply Qmult_lt_compat_r; assumption).
      lra.
  - intros H. inversion H; subst. split.
    + intros k x Hk. destruct k; discriminate.
    + assert (Hlt : (hi < lo)%Q).
      { apply Qnot_le_lt. intros Hle. apply Qle_bool_iff in Hle. congruence. }
      change (inject_Z (Z.of_nat (length (@nil Q)))) with 0%Q. lra.
Qed.

(** The loop does not end exactly when it is entered with a step that is
    not positive. *)
Lemma for_upto_diverges (lo hi step : Q) :
  for_upto lo hi step = None <-> (lo <= hi)%Q /\ (step <= 0)%Q.
Proof.
  unfold for_upto, Qlt_bool. split.
  - destruct (Qle_bool lo hi) eqn:E1; simpl; [|discriminate].
    destruct (Qle_bool step 0) eqn:E2; simpl; [|discriminate].
    intros _. split; apply Qle_bool_iff; assumption.
  - intros [H1 H2]. apply Qle_bool_iff in H1. apply Qle_bool_iff in H2.
    rewrite H1, H2. reflexivity.
Qed.

(** ** Trajectory interpolation *)

Section TrajectoryFacts.

Context {AK : AffineKernel} {SQ : SceneQuery} {SK : SplineKernel}.

(** C2 (amended).  The interpolator does not check the number of cameras.
    On an empty list it faults at once, reading the head of the list, and
    does not reach the resampling; on every non-empty list, a single
    camera included, and with a positive step it resamples the splines and
    returns 1 with the resampled cameras. *)
Theorem InterpolateCameraTrajectory_any_count (trajectory_step : Q)
    (cameras : list Camera) :
  (cameras = [] -> InterpolateCameraTrajectory trajectory_step cameras = Fault)
  /\ (cameras <> [] -> (0 < trajectory_step)%Q ->
      exists head us,
        hd_error cameras = Some head
        /\ for_upto (StartParameter (map (fun c => Origin (base c)) cameras)
                                    (trajectory_parameters cameras))
                    (EndParameter (map (fun c => Origin (base c)) cameras)
                                  (trajectory_parameters cameras))
                    trajectory_step = Some us
        /\ InterpolateCameraTrajectory trajectory_step cameras
           = Done (1, map (trajectory_camera head cameras (trajectory_parameters cameras))
                          us)).
Proof.
  split; [intros ->; reflexivity|].
  intros Hne Hs. destruct cameras as [|head rest]; [contradiction|].
  unfold InterpolateCameraTrajectory. cbv zeta.
  destruct (for_upto _ _ trajectory_step) as [us|] eqn:E.
  - exists head, us. split; [reflexivity|]. split; reflexivity.
  - apply for_upto_diverges in E. destruct E as [_ E].
    exfalso. apply (Qlt_irrefl 0). eapply Qlt_le_trans; eassumption.
Qed.

End TrajectoryFacts.

(** A closed instance of C2 (amended): one camera and a step of 0.1. *)
Lemma InterpolateCameraTrajectory_any_count_witness :
  exists head us,
    hd_error one_camera = Some head
    /\ us = [0%Q]
    /\ @InterpolateCameraTrajectory unit_affine clear_view held_spline (1 # 10) one_camera
       = Done (1, map (@trajectory_camera held_spline head one_camera
                         (@trajectory_parameters unit_affine clear_view held_spline
                            one_camera)) us).
Proof.
  destruct (@InterpolateCameraTrajectory_any_count unit_affine clear_view held_spline
              (1 # 10) one_camera) as [_ H].
  destruct (H ltac:(discriminate) ltac:(reflexivity)) as [head [us [Hh [Hu Hr]]]].
  exists head, us. split; [exact Hh|]. split; [|exact Hr].
  vm_compute in Hu. congruence.
Defined.

(** C2 as stated fails on a single camera: the interpolator returns 1 and
    resamples it into the camera labelled [T0.000000]. *)
Lemma InterpolateCameraTrajectory_single_camera :
  (length one_camera < 2)%nat
  /\ @InterpolateCameraTrajectory unit_affine clear_view held_spline (1 # 10) one_camera
     = Done (1, [mkCamera (mkR3Camera origin3 origin3 origin3 0 0 0 0 0%R)
                          (Some "T0.000000"%string)])
  /\ @InterpolateCameraTrajectory unit_affine clear_view held_spline (1 # 10) one_camera
     <> Fault.
Proof.
  split; [simpl; lia|]. split; [reflexivity | discriminate].
Qed.

(** ** The room strategy returns *)

Section RoomTermination.

Context {AK : AffineKernel} {RD : Renderer} {SQ : SceneQuery}
        {RZ : Rasterizer} {VS : ViewSampler}.
Variable cfg : Config.

Lemma for_upto_returns (lo hi step : Q) :
  (0 < step)%Q -> exists vs, for_upto lo hi step = Some vs.
Proof.
  intros Hs. destruct (for_upto lo hi step) as [vs|] eqn:E; [eauto|].
  apply for_upto_diverges in E. destruct E as [_ E].
  exfalso. apply (Qlt_irrefl 0). eapply Qlt_le_trans; eassumption.
Qed.

Lemma best_room_camera_returns (scene : R3Scene) (room_node : NodeId)
    (viewpoint_mask : R2Grid) (room_bbox : R3Box) (j : Z) (z : Q) (r : nat) :
  (0 < position_sampling cfg)%Q ->
  exists res, best_room_camera cfg scene room_node viewpoint_mask room_bbox j z r = Some res.
Proof.
  intros Hs. unfold best_room_camera.
  destruct (for_upto_returns (YMin room_bbox) (YMax room_bbox) _ Hs) as [ys Hy].
  destruct (for_upto_returns (XMin room_bbox) (XMax room_bbox) _ Hs) as [xs Hx].
  rewrite Hy, Hx. destruct ys; eauto.
Qed.

Lemma room_direction_cameras_returns (scene : R3Scene) (room_node : NodeId)
    (room_name : option string) (viewpoint_mask : R2Grid) (room_bbox : R3Box) (z : Q)
    (js : list Z) :
  (0 < position_sampling cfg)%Q ->
  forall cameras r,
  exists res,
    room_direction_cameras cfg scene room_node room_name viewpoint_mask room_bbox z js
      cameras r = Some res.
Proof.
  intros Hs. induction js as [|j js IH]; intros cameras r; simpl; [eauto|].
  destruct (best_room_camera_returns scene room_node viewpoint_mask room_bbox j z r Hs)
    as [[best r'] Hb].
  rewrite Hb. apply IH.
Qed.

(** The mask construction faults only on a room node without parent. *)
Lemma ComputeViewpointMask_fault (scene : R3Scene) (i : NodeId) :
  ComputeViewpointMask cfg scene (Some i) = MaskFault ->
  exists room, Node scene i = Some room /\ Parent room = None.
Proof.
  unfold ComputeViewpointMask.
  destruct (room_structure scene (Some i))
    as [[[[[room_id room] wall_node] floor_node] ceiling_node]|] eqn:Es; [|discriminate].
  apply room_structure_some in Es. destruct Es as [Hid [Hnode _]].
  inversion Hid; subst room_id.
  destruct (grid_resolution cfg (RoomWorldBBox scene i room)) as [xres yres].
  destruct ((xres <? 3) || (yres <? 3)); [discriminate|].
  unfold ObjectMask. destruct (Parent room) eqn:Ep; [discriminate|].
  intros _. exists room. split; [exact Hnode | exact Ep].
Qed.

(** With a positive position sampling, in a scene whose room nodes have
    parents, [CreateRoomCameras] returns. *)
Lemma CreateRoomCameras_returns (scene : R3Scene) (cameras : list Camera)
    (st : ScoreState) :
  (0 < position_sampling cfg)%Q ->
  (forall i room, Node scene i = Some room ->
                  name_has_prefix "Room#" (Name room) = true -> Parent room <> None) ->
  exists res, CreateRoomCameras cfg scene cameras st = Done res.
Proof.
  intros Hs Hp. unfold CreateRoomCameras.
  generalize (indices (NNodes scene)). intros nodes. revert cameras st.
  induction nodes as [|i rest IH]; intros cameras st; simpl; [eauto|].
  assert (Hr : exists res, room_cameras cfg scene i cameras st = Done res).
  { unfold room_cameras.
    destruct (Node scene i) as [room|] eqn:En; [|eauto].
    destruct (negb (name_has_prefix "Room#" (Name room))) eqn:Ename; [eauto|].
    apply negb_false_iff in Ename. cbv zeta.
    destruct (Qlt_bool _ _); [eauto|].
    destruct (ComputeViewpointMask _ _ _) as [mask| |] eqn:Em; [|eauto|].
    - destruct (room_direction_cameras _ _ _ _ _ _ _ _ _ _) as [[cams r']|] eqn:Ed;
        [eauto|].
      match type of Ed with
      | @room_direction_cameras _ _ _ _ _ _ ?s ?n ?nm ?m ?b ?z ?js ?cs ?r = None =>
          destruct (room_direction_cameras_returns s n nm m b z js Hs cs r) as [res Hd]
      end.
      rewrite Hd in Ed. discriminate.
    - apply ComputeViewpointMask_fault in Em. destruct Em as [room' [Hn Hpar]].
      rewrite En in Hn. inversion Hn; subst room'.
      exfalso. exact (Hp i room En Ename Hpar). }
  destruct Hr as [[cams st'] Hr]. rewrite Hr. apply IH.
Qed.

End RoomTermination.

(** ** Rendering with OpenGL: node indices as colours *)

(** The three bytes of a value, put together again by [CaptureScalar], are
    its low 24 bits. *)
Lemma capture_of_bytes (x : Z) :
  capture_value (mkColor (Z.land (Z.shiftr x 16) 255) (Z.land (Z.shiftr x 8) 255)
                         (Z.land x 255))
  = Z.land x (Z.ones 24).
Proof.
  unfold capture_value. cbn [red green blue].
  change 16711680 with (Z.shiftl (Z.ones 8) 16).
  change 65280 with (Z.shiftl (Z.ones 8) 8).
  change 255 with (Z.ones 8).
  apply Z.bits_inj'. intros n Hn.
  rewrite !Z.lor_spec, !Z.land_spec, Z.bits_0, !Z.shiftl_spec by lia.
  rewrite (Z.testbit_ones_nonneg 24 n) by lia.
  rewrite (Z.testbit_ones_nonneg 8 n) by lia.
  destruct (Z.ltb_spec n 8).
  - rewrite !(Z.testbit_neg_r _ (n - 16)) by lia.
    rewrite !(Z.testbit_neg_r _ (n - 8)) by lia.
    replace (n <? 24) with true by (symmetry; apply Z.ltb_lt; lia).
    simpl. rewrite andb_true_r. reflexivity.
  - destruct (Z.ltb_spec n 16).
    + rewrite !(Z.testbit_neg_r _ (n - 16)) by lia.
      rewrite !Z.land_spec, !Z.shiftr_spec by lia.
      rewrite !(Z.testbit_ones_nonneg 8 (n - 8)) by lia.
      replace (n - 8 <? 8) with true by (symmetry; apply Z.ltb_lt; lia).
      replace (n <? 24) with true by (symmetry; apply Z.ltb_lt; lia).
      replace (n - 8 + 8) with n by lia. simpl.
      rewrite !andb_true_r, andb_false_r, orb_false_r. reflexivity.
    + rewrite !Z.land_spec, !Z.shiftr_spec by lia.
      rewrite !(Z.testbit_ones_nonneg 8 (n - 8)) by lia.
      rewrite !(Z.testbit_ones_nonneg 8 (n - 16)) by lia.
      replace (n - 8 <? 8) with false by (symmetry; apply Z.ltb_ge; lia).
      replace (n - 16 + 16) with n by lia.
      destruct (Z.ltb_spec n 24).
      * replace (n - 16 <? 8) with true by (symmetry; apply Z.ltb_lt; lia).
        simpl. rewrite !andb_true_r, !andb_false_r, !orb_false_r. reflexivity.
      * replace (n - 16 <? 8) with false by (symmetry; apply Z.ltb_ge; lia).
        simpl. rewrite !andb_false_r. reflexivity.
Qed.

Lemma node_index_of_small (i : Z) : 0 <= i < Int.MAX -> node_index_of i = i + 1.
Proof.
  unfold node_index_of, Int.add, Int.MAX. intros H.
  rewrite wrap_id by (unfold Int.in_range, Int.MIN, Int.MAX; lia).
  apply Z.mod_small. lia.
Qed.

Lemma capture_node_color (i : Z) :
  capture_value (node_color i) = node_index_of i mod 2 ^ 24.
Proof.
  unfold node_color. cbv zeta. rewrite capture_of_bytes.
  apply Z.land_ones. lia.
Qed.

(** X1.  The colour a node is drawn with, read back by [CaptureScalar], is
    the scene index of the node plus one, as long as the index is below
    2^24 - 1; it differs from what the cleared window reads back as. *)
Theorem node_color_round_trip (i : Z) :
  0 <= i < 2 ^ 24 - 1 ->
  capture_value (node_color i) = i + 1
  /\ capture_value (node_color i) <> capture_value clear_color.
Proof.
  intros H. rewrite capture_node_color.
  rewrite node_index_of_small by (unfold Int.MAX; lia).
  rewrite Z.mod_small by lia.
  split; [reflexivity|]. change (capture_value clear_color) with 0. lia.
Qed.

Lemma node_color_round_trip_witness :
  0 <= 5 < 2 ^ 24 - 1
  /\ capture_value (node_color 5) = 5 + 1
  /\ capture_value (node_color 5) <> capture_value clear_color.
Proof.
  assert (H : 0 <= 5 < 2 ^ 24 - 1) by lia.
  split; [exact H | exact (node_color_round_trip 5 H)].
Defined.

Lemma byte_of_shifted (x k : Z) :
  0 <= k -> Z.land (Z.shiftr x k) 255 = (x / 2 ^ k) mod 2 ^ 8.
Proof.
  intros Hk. change 255 with (Z.ones 8).
  rewrite Z.land_ones by lia. rewrite Z.shiftr_div_pow2 by lia. reflexivity.
Qed.

(** X2.  The colour keeps the low 24 bits of the index only: two nodes
    whose indices differ by 2^24 are drawn in the same colour, and the node
    of index 2^24 - 1 is drawn in the colour of the cleared window. *)
Theorem node_color_wraps (i : Z) :
  0 <= i -> i + 2 ^ 24 < Int.MAX ->
  node_color (i + 2 ^ 24) = node_color i
  /\ node_color (2 ^ 24 - 1) = clear_color.
Proof.
  intros H0 H1. split; [|reflexivity].
  unfold node_color. cbv zeta.
  rewrite (node_index_of_small (i + 2 ^ 24)) by lia.
  rewrite (node_index_of_small i) by lia.
  rewrite !byte_of_shifted by lia.
  f_equal.
  - replace (i + 2 ^ 24 + 1) with (i + 1 + 2 ^ 8 * 2 ^ 16) by lia.
    rewrite Z.div_add by lia. rewrite Z.add_mod by lia.
    rewrite Z.mod_same by lia. rewrite Z.add_0_r. apply Z.mod_mod. lia.
  - replace (i + 2 ^ 24 + 1) with (i + 1 + 2 ^ 16 * 2 ^ 8) by lia.
    rewrite Z.div_add by lia.
    replace (2 ^ 16) with (2 ^ 8 * 2 ^ 8) by lia.
    rewrite Z.mod_add by lia. reflexivity.
  - change 255 with (Z.ones 8). rewrite !Z.land_ones by lia.
    replace (i + 2 ^ 24 + 1) with (i + 1 + 2 ^ 16 * 2 ^ 8) by lia.
    rewrite Z.mod_add by lia. reflexivity.
Qed.

Lemma node_color_wraps_witness :
  0 <= 3 /\ 3 + 2 ^ 24 < Int.MAX
  /\ node_color (3 + 2 ^ 24) = node_color 3
  /\ node_color (2 ^ 24 - 1) = clear_color.
Proof.
  assert (H0 : 0 <= 3) by lia.
  assert (H1 : 3 + 2 ^ 24 < Int.MAX) by (unfold Int.MAX; lia).
  split; [exact H0 | split; [exact H1 | exact (node_color_wraps 3 H0 H1)]].
Defined.
(** ** Loops over [indices] *)

Lemma indices_snoc (n : Z) : 0 <= n -> indices (n + 1) = indices n ++ [n].
Proof.
  intros H. unfold indices.
  replace (Z.to_nat (n + 1)) with (S (Z.to_nat n)) by lia.
  rewrite seq_S, map_app. cbn [map Nat.add]. rewrite Z2Nat.id by lia. reflexivity.
Qed.

(** An invariant of a loop [for (i = 0; i < n; i++)]. *)
Lemma fold_indices {A : Type} (f : A -> Z -> A) (P : Z -> A -> Prop) (n : Z) (a : A) :
  0 <= n -> P 0 a ->
  (forall i b, 0 <= i < n -> P i b -> P (i + 1) (f b i)) ->
  P n (fold_left f (indices n) a).
Proof.
  intros Hn H0 Hstep.
  assert (H : forall m, 0 <= m -> m <= n -> P m (fold_left f (indices m) a)).
  { intros m Hm. pattern m. apply natlike_ind; [| |exact Hm].
    - intros _. exact H0.
    - intros k Hk IH Hle. change (Z.succ k) with (k + 1).
      rewrite indices_snoc by lia. rewrite fold_left_app. cbn [fold_left].
      apply Hstep; [lia|]. apply IH. lia. }
  apply H; lia.
Qed.

Lemma cell_index_inj (w x y x' y' : Z) :
  0 <= x < w -> 0 <= x' < w -> x + y * w = x' + y' * w -> x = x' /\ y = y'.
Proof.
  intros Hx Hx' H.
  assert (Hy : y = y') by nia. subst y'. lia.
Qed.

(** ** Drawing a subtree with OpenGL *)

Section DrawingFacts.

Context {AK : AffineKernel}.

Lemma drawn_app (color : Color) (t1 t2 : list OpenGL.Command) :
  OpenGL.drawn color (t1 ++ t2)
  = OpenGL.drawn color t1 ++ OpenGL.drawn (OpenGL.color_after color t1) t2.
Proof.
  revert color. induction t1 as [|c t1 IH]; intros color; [reflexivity|].
  destruct c; cbn [app OpenGL.drawn OpenGL.color_after]; rewrite IH; reflexivity.
Qed.

Lemma stack_after_app (stack : list R3Affine) (t1 t2 : list OpenGL.Command) :
  OpenGL.stack_after stack (t1 ++ t2)
  = match OpenGL.stack_after stack t1 with
    | Some stack' => OpenGL.stack_after stack' t2
    | None => None
    end.
Proof.
  revert stack. induction t1 as [|c t1 IH]; intros stack; [reflexivity|].
  destruct c; cbn [app OpenGL.stack_after]; try apply IH.
  destruct stack; [reflexivity | apply IH].
Qed.

(** A property of traces that holds of the empty trace and of the
    concatenation of two traces holds of the trace of the children. *)
Lemma draw_children_all (Q : list OpenGL.Command -> Prop)
    (draw : NodeId -> option (list OpenGL.Command)) (children : list NodeId)
    (ts : list OpenGL.Command) :
  Q [] -> (forall t1 t2, Q t1 -> Q t2 -> Q (t1 ++ t2)) ->
  (forall child t, draw child = Some t -> Q t) ->
  OpenGL.draw_children draw children = Some ts -> Q ts.
Proof.
  intros Hnil Happ Hdraw. revert ts.
  induction children as [|child rest IH]; intros ts H; cbn in H.
  - inversion H. exact Hnil.
  - destruct (draw child) as [t|] eqn:Et; [|discriminate].
    destruct (OpenGL.draw_children draw rest) as [ts'|]; [|discriminate].
    inversion H. apply Happ; [exact (Hdraw child t Et) | apply IH; reflexivity].
Qed.

Lemma drawn_elements (color : Color) (node : NodeId) (flags : RNFlags) (l : list Z) :
  OpenGL.drawn color (map (fun i => OpenGL.Draw node i flags) l)
  = map (fun i => (color, node, i)) l.
Proof.
  induction l as [|i l IH]; [reflexivity|].
  cbn [map OpenGL.drawn]. rewrite IH. reflexivity.
Qed.

Lemma color_after_elements (color : Color) (node : NodeId) (flags : RNFlags) (l : list Z) :
  OpenGL.color_after color (map (fun i => OpenGL.Draw node i flags) l) = color.
Proof.
  induction l as [|i l IH]; [reflexivity|]. cbn [map OpenGL.color_after]. exact IH.
Qed.

Lemma stack_after_elements (stack : list R3Affine) (node : NodeId) (flags : RNFlags)
    (l : list Z) :
  OpenGL.stack_after stack (map (fun i => OpenGL.Draw node i flags) l) = Some stack.
Proof.
  induction l as [|i l IH]; [reflexivity|]. cbn [map OpenGL.stack_after]. exact IH.
Qed.

(** The trace of a node, taken apart. *)
Lemma DrawNodeWithOpenGL_trace (fuel : nat) (scene : R3Scene) (node : NodeId)
    (selected_node : option NodeId) (image_type : Z) (trace : list OpenGL.Command) :
  OpenGL.DrawNodeWithOpenGL (S fuel) scene node selected_node image_type = Some trace ->
  exists nd children,
    Node scene node = Some nd
    /\ OpenGL.draw_children
         (fun child => OpenGL.DrawNodeWithOpenGL fuel scene child selected_node image_type)
         (Children nd) = Some children
    /\ trace =
       [OpenGL.Push (Transformation nd)]
       ++ (if image_type =? NODE_INDEX_IMAGE
           then [OpenGL.glColor3ubv (node_color node)] else [])
       ++ map (fun i => OpenGL.Draw node i
                          (if image_type =? NODE_INDEX_IMAGE
                           then R3_SURFACES_DRAW_FLAG else R3_DEFAULT_DRAW_FLAGS))
              (OpenGL.own_elements node nd selected_node)
       ++ children ++ [OpenGL.Pop (Transformation nd)].
Proof.
  cbn [OpenGL.DrawNodeWithOpenGL]. intros H.
  destruct (Node scene node) as [nd|]; [|discriminate].
  destruct (OpenGL.draw_children _ (Children nd)) as [children|] eqn:Ec; [|discriminate].
  exists nd, children. split; [reflexivity|]. split; [exact Ec|].
  inversion H. unfold OpenGL.own_elements.
  destruct selected_node as [s|]; [destruct (s =? node)|]; reflexivity.
Qed.

(** X3.  In a node index image every element is drawn in the colour of
    the node it belongs to, whatever colour was current before. *)
Theorem DrawNodeWithOpenGL_colors (fuel : nat) (scene : R3Scene) (node : NodeId)
    (selected_node : option NodeId) (trace : list OpenGL.Command) (color : Color) :
  OpenGL.DrawNodeWithOpenGL fuel scene node selected_node NODE_INDEX_IMAGE = Some trace ->
  Forall (fun d => fst (fst d) = node_color (snd (fst d))) (OpenGL.drawn color trace).
Proof.
  revert node trace color.
  induction fuel as [|fuel IH]; intros node trace color H; [discriminate|].
  apply DrawNodeWithOpenGL_trace in H.
  destruct H as (nd & children & _ & Hc & ->).
  change (NODE_INDEX_IMAGE =? NODE_INDEX_IMAGE) with true. cbv iota.
  cbn [app OpenGL.drawn].
  rewrite drawn_app, drawn_elements, color_after_elements, drawn_app.
  cbn [OpenGL.drawn]. rewrite app_nil_r.
  apply Forall_app. split.
  - apply Forall_forall. intros d Hd. apply in_map_iff in Hd.
    destruct Hd as (i & <- & _). reflexivity.
  - revert Hc. generalize (node_color node).
    intros c Hc. revert c.
    apply (draw_children_all
             (fun t => forall c, Forall (fun d => fst (fst d) = node_color (snd (fst d)))
                                        (OpenGL.drawn c t))) with (4 := Hc).
    + intros c. constructor.
    + intros t1 t2 H1 H2 c. rewrite drawn_app. apply Forall_app. split; [apply H1 | apply H2].
    + intros child t Ht c. exact (IH child t c Ht).
Qed.

(** X4.  With a selected node, no element of another node is drawn; and
    an element that is drawn is one of the elements of its node. *)
Theorem DrawNodeWithOpenGL_selected (fuel : nat) (scene : R3Scene) (node : NodeId)
    (s : NodeId) (image_type : Z) (trace : list OpenGL.Command) (color : Color) :
  OpenGL.DrawNodeWithOpenGL fuel scene node (Some s) image_type = Some trace ->
  Forall (fun d => snd (fst d) = s
                   /\ 0 <= snd d < Z.of_nat (length (NodeElements scene s)))
         (OpenGL.drawn color trace).
Proof.
  revert node trace color.
  induction fuel as [|fuel IH]; intros node trace color H; [discriminate|].
  apply DrawNodeWithOpenGL_trace in H.
  destruct H as (nd & children & En & Hc & ->).
  cbn [app OpenGL.drawn].
  rewrite drawn_app.
  cbn [OpenGL.drawn].
  set (good := fun d : Color * NodeId * Z =>
                 snd (fst d) = s
                 /\ 0 <= snd d < Z.of_nat (length (NodeElements scene s))) in *.
  assert (Hrest : forall c,
             Forall good
               (OpenGL.drawn c
                  (map (fun i => OpenGL.Draw node i
                                   (if image_type =? NODE_INDEX_IMAGE
                                    then R3_SURFACES_DRAW_FLAG else R3_DEFAULT_DRAW_FLAGS))
                       (OpenGL.own_elements node nd (Some s))
                   ++ children ++ [OpenGL.Pop (Transformation nd)]))).
  { intros c. rewrite drawn_app, drawn_elements, color_after_elements, drawn_app.
    cbn [OpenGL.drawn]. rewrite app_nil_r.
    apply Forall_app. split.
    - apply Forall_forall. intros d Hd. apply in_map_iff in Hd.
      destruct Hd as (i & <- & Hi). unfold OpenGL.own_elements in Hi.
      destruct (Z.eqb_spec s node) as [->|]; [|contradiction].
      unfold good. cbn [fst snd]. split; [reflexivity|].
      unfold NodeElements. rewrite En.
      unfold indices in Hi. apply in_map_iff in Hi.
      destruct Hi as (k & <- & Hk). apply in_seq in Hk. lia.
    - revert c.
      apply (draw_children_all (fun t => forall c, Forall good (OpenGL.drawn c t)))
        with (4 := Hc).
      + intros c. constructor.
      + intros t1 t2 H1 H2 c. rewrite drawn_app. apply Forall_app.
        split; [apply H1 | apply H2].
      + intros child t Ht c. exact (IH child t c Ht). }
  destruct (image_type =? NODE_INDEX_IMAGE); cbn [app OpenGL.drawn]; apply Hrest.
Qed.

Lemma Node_in_range (scene : R3Scene) (n : NodeId) :
  0 <= n < NNodes scene -> exists nd, Node scene n = Some nd.
Proof.
  unfold Node, NNodes. intros H.
  destruct (Z.ltb_spec n 0); [lia|].
  destruct (nth_error (Nodes scene) (Z.to_nat n)) as [nd|] eqn:E; [eauto|].
  apply nth_error_None in E. lia.
Qed.

Lemma DrawNodeWithOpenGL_returns (scene : R3Scene) (selected_node : option NodeId)
    (image_type : Z) :
  OpenGL.numbered_downwards scene ->
  forall fuel node,
    0 <= node < NNodes scene -> NNodes scene - node <= Z.of_nat fuel ->
    exists trace,
      OpenGL.DrawNodeWithOpenGL fuel scene node selected_node image_type = Some trace.
Proof.
  intros Hs. induction fuel as [|fuel IH]; intros node Hn Hf; [lia|].
  destruct (Node_in_range scene node Hn) as [nd En].
  cbn [OpenGL.DrawNodeWithOpenGL]. rewrite En.
  assert (Hc : exists children,
             OpenGL.draw_children
               (fun child => OpenGL.DrawNodeWithOpenGL fuel scene child selected_node
                                                       image_type)
               (Children nd) = Some children).
  { pose proof (Hs node nd En) as Hch.
    induction (Children nd) as [|child rest IHc]; [exists []; reflexivity|].
    inversion Hch as [|? ? Hchild Hrest]; subst.
    destruct (IH child) as [t Ht]; [lia | lia |].
    destruct (IHc Hrest) as [ts Hts].
    exists (t ++ ts). cbn [OpenGL.draw_children]. rewrite Ht, Hts. reflexivity. }
  destruct Hc as [children Hc]. rewrite Hc. eauto.
Qed.

(** X5.  In a scene numbered from the root down the drawing of a subtree
    returns, and it leaves the matrix stack as it found it: every
    transformation it pushes it pops again. *)
Theorem DrawNodeWithOpenGL_restores_stack (scene : R3Scene) (node : NodeId)
    (selected_node : option NodeId) (image_type : Z) :
  OpenGL.numbered_downwards scene -> 0 <= node < NNodes scene ->
  exists trace,
    OpenGL.DrawNodeWithOpenGL (length (Nodes scene)) scene node selected_node image_type
    = Some trace
    /\ forall stack, OpenGL.stack_after stack trace = Some stack.
Proof.
  intros Hs Hn.
  destruct (DrawNodeWithOpenGL_returns scene selected_node image_type Hs
              (length (Nodes scene)) node Hn) as [trace Ht].
  { unfold NNodes. lia. }
  exists trace. split; [exact Ht|].
  revert Ht. generalize (length (Nodes scene)). intros fuel. revert node Hn trace.
  induction fuel as [|fuel IH]; intros node Hn trace H; [discriminate|].
  apply DrawNodeWithOpenGL_trace in H.
  destruct H as (nd & children & En & Hc & ->). intros stack.
  cbn [app OpenGL.stack_after].
  assert (Hrest : OpenGL.stack_after (Transformation nd :: stack)
                    (map (fun i => OpenGL.Draw node i
                                     (if image_type =? NODE_INDEX_IMAGE
                                      then R3_SURFACES_DRAW_FLAG else R3_DEFAULT_DRAW_FLAGS))
                         (OpenGL.own_elements node nd selected_node)
                     ++ children ++ [OpenGL.Pop (Transformation nd)]) = Some stack).
  { rewrite stack_after_app, stack_after_elements, stack_after_app.
    assert (Hch : forall st, OpenGL.stack_after st children = Some st).
    { pose proof (Hs node nd En) as Hrange.
      clear - IH Hc Hrange Hn. revert children Hc.
      induction (Children nd) as [|child rest IHc]; intros children Hc st; cbn in Hc.
      - inversion Hc. reflexivity.
      - inversion Hrange as [|? ? Hchild Hrest]; subst.
        destruct (OpenGL.DrawNodeWithOpenGL fuel scene child selected_node image_type)
          as [t|] eqn:Et; [|discriminate].
        destruct (OpenGL.draw_children _ rest) as [ts|] eqn:Ets; [|discriminate].
        inversion Hc. rewrite stack_after_app.
        rewrite (IH child ltac:(lia) t Et st).
        exact (IHc Hrest ts eq_refl st). }
    rewrite Hch. reflexivity. }
  destruct (image_type =? NODE_INDEX_IMAGE); cbn [app OpenGL.stack_after]; exact Hrest.
Qed.

End DrawingFacts.
Section DrawingExamples.

Lemma nth_error_enumerate {A : Type} (l : list A) (k : nat) (a : A) :
  nth_error l k = Some a -> In (Z.of_nat k, a) (enumerate l).
Proof.
  unfold enumerate.
  assert (H : forall s, nth_error l k = Some a ->
                        In (Z.of_nat (s + k), a)
                           (combine (map Z.of_nat (seq s (length l))) l)).
  { revert k. induction l as [|x l IH]; intros k s Hk.
    - destruct k; discriminate.
    - destruct k as [|k]; cbn [length seq map combine].
      + inversion Hk. left. rewrite Nat.add_0_r. reflexivity.
      + right. replace (s + S k)%nat with (S s + k)%nat by lia.
        apply IH. exact Hk. }
  exact (H 0%nat).
Qed.

Lemma numbered_downwards_check {AK : AffineKernel} (scene : R3Scene) :
  OpenGL.numbered_downwards_b scene = true -> OpenGL.numbered_downwards scene.
Proof.
  unfold OpenGL.numbered_downwards_b, OpenGL.numbered_downwards.
  intros H n nd En. rewrite forallb_forall in H.
  unfold Node in En. destruct (Z.ltb_spec n 0); [discriminate|].
  apply nth_error_enumerate in En. rewrite Z2Nat.id in En by lia.
  specialize (H _ En). cbn [fst snd] in H. rewrite forallb_forall in H.
  apply Forall_forall. intros c Hc. specialize (H c Hc).
  apply andb_true_iff in H. destruct H as [H1 H2].
  apply Z.ltb_lt in H1. apply Z.ltb_lt in H2. lia.
Qed.

Lemma house_numbered_downwards : @OpenGL.numbered_downwards unit_affine house.
Proof. apply numbered_downwards_check. vm_compute. reflexivity. Qed.

End DrawingExamples.

(** The house drawn from its root as a node index image: the chair, the
    one node with an element, is drawn in its colour. *)
Lemma DrawNodeWithOpenGL_colors_witness :
  exists trace,
    @OpenGL.DrawNodeWithOpenGL unit_affine 11 house 0 None NODE_INDEX_IMAGE = Some trace
    /\ @OpenGL.drawn unit_affine clear_color trace
       = [(node_color 5, 5, 0)]
    /\ Forall (fun d => fst (fst d) = node_color (snd (fst d)))
              (@OpenGL.drawn unit_affine clear_color trace).
Proof.
  destruct (@OpenGL.DrawNodeWithOpenGL unit_affine 11 house 0 None NODE_INDEX_IMAGE)
    as [trace|] eqn:E.
  - exists trace. split; [reflexivity|]. split.
    + vm_compute in E. inversion E. vm_compute. reflexivity.
    + exact (@DrawNodeWithOpenGL_colors unit_affine 11 house 0 None trace clear_color E).
  - vm_compute in E. discriminate E.
Defined.

(** The house drawn with the chair selected. *)
Lemma DrawNodeWithOpenGL_selected_witness :
  exists trace,
    @OpenGL.DrawNodeWithOpenGL unit_affine 11 house 0 (Some 5) NODE_INDEX_IMAGE = Some trace
    /\ Forall (fun d => snd (fst d) = 5
                        /\ 0 <= snd d < Z.of_nat (length (@NodeElements unit_affine house 5)))
              (@OpenGL.drawn unit_affine clear_color trace).
Proof.
  destruct (@OpenGL.DrawNodeWithOpenGL unit_affine 11 house 0 (Some 5) NODE_INDEX_IMAGE)
    as [trace|] eqn:E.
  - exists trace. split; [reflexivity|].
    exact (@DrawNodeWithOpenGL_selected unit_affine 11 house 0 5 NODE_INDEX_IMAGE trace
             clear_color E).
  - vm_compute in E. discriminate E.
Defined.

Lemma DrawNodeWithOpenGL_restores_stack_witness :
  exists trace,
    @OpenGL.DrawNodeWithOpenGL unit_affine (length (@Nodes unit_affine house)) house 1 None
      NODE_INDEX_IMAGE = Some trace
    /\ forall stack, @OpenGL.stack_after unit_affine stack trace = Some stack.
Proof.
  apply (@DrawNodeWithOpenGL_restores_stack unit_affine house 1 None NODE_INDEX_IMAGE).
  - exact house_numbered_downwards.
  - unfold NNodes. cbn [house Nodes length]. lia.
Defined.
(** ** Reading the frame buffer *)

(** X6.  [CaptureScalar] leaves in the cell [(ix, iy)] the value of the
    three bytes at the offset [3 * (iy * width + ix)] of the frame buffer,
    for every pixel of an image that is [width] wide. *)
Theorem CaptureScalar_cell (cfg : Config) (pixels : Z -> Z) (image : R2Grid) (ix iy : Z) :
  XResolution image = width cfg ->
  0 <= ix < width cfg -> 0 <= iy < height cfg ->
  CellValue (OpenGL.CaptureScalar cfg pixels image) ix iy
  = inject_Z (capture_value (mkColor (pixels (3 * (iy * width cfg + ix)))
                                     (pixels (3 * (iy * width cfg + ix) + 1))
                                     (pixels (3 * (iy * width cfg + ix) + 2)))).
Proof.
  intros Hres Hx Hy.
  set (w := width cfg) in *.
  set (dec := fun o => inject_Z (capture_value
                                   (mkColor (pixels o) (pixels (o + 1)) (pixels (o + 2))))).
  set (Inv := fun (k : Z) (acc : R2Grid * Z) =>
                snd acc = 3 * k /\ XResolution (fst acc) = w
                /\ forall x y, 0 <= x < w -> 0 <= y -> x + y * w < k ->
                               GridValue (fst acc) (x + y * w) = dec (3 * (y * w + x))).
  assert (Hrows : Inv (height cfg * w)
                      (fold_left
                         (fun acc iy => fold_left (OpenGL.capture_pixel pixels iy)
                                                  (indices w) acc)
                         (indices (height cfg)) (image, 0))).
  { apply (fold_indices _ (fun r acc => Inv (r * w) acc)); [lia| |].
    - unfold Inv. cbn [fst snd]. split; [lia|]. split; [exact Hres|].
      intros x y Hx0 Hy0 Hlt. nia.
    - intros r acc Hr Hacc.
      replace ((r + 1) * w) with (r * w + w) by lia.
      apply (fold_indices _ (fun c acc => Inv (r * w + c) acc)); [lia| |].
      + rewrite Z.add_0_r. exact Hacc.
      + intros c [g p] Hc (Hp & Hg & Hcells). cbn [fst snd] in *.
        unfold OpenGL.capture_pixel, Inv. cbn [fst snd SetGridValue XResolution GridValue].
        split; [lia|]. split; [exact Hg|].
        intros x y Hx0 Hy0 Hlt. rewrite Hg.
        destruct (Z.eqb_spec (x + y * w) (c + r * w)) as [E|E].
        * destruct (cell_index_inj w x y c r Hx0 Hc E) as [-> ->].
          subst p. unfold dec. reflexivity.
        * apply Hcells; [assumption | assumption | lia]. }
  destruct Hrows as (_ & Hg & Hcells).
  unfold CellValue, OpenGL.CaptureScalar. fold w. rewrite Hg.
  rewrite Hcells; [reflexivity | lia | lia | nia].
Qed.

(** A frame buffer that shows the colour of node 5 everywhere. *)
Lemma CaptureScalar_cell_witness :
  CellValue (OpenGL.CaptureScalar (small_image 0 (1 # 10))
               (fun o => if o mod 3 =? 2 then 6 else 0)
               (R2Grid_new 10 10 null_box2)) 4 7
  = inject_Z 6.
Proof.
  apply (CaptureScalar_cell (small_image 0 (1 # 10))
           (fun o => if o mod 3 =? 2 then 6 else 0) (R2Grid_new 10 10 null_box2) 4 7).
  - reflexivity.
  - cbn [small_image width]. lia.
  - cbn [small_image height]. lia.
Defined.

(** ** Rendering with ray casting *)

Section RayCastingFacts.

Context {AK : AffineKernel} {RC : RayCaster}.

(** The value [RenderImageWithRayCasting] leaves in every cell. *)
Lemma RenderImageWithRayCasting_cells (unknown : Q) (image : R2Grid) (camera : R3Camera)
    (scene : R3Scene) (root_node : NodeId) (selected_node : option NodeId)
    (image_type : Z) (ix iy : Z) :
  0 <= ix < XResolution image -> 0 <= iy < YResolution image ->
  XResolution (RayCasting.RenderImageWithRayCasting unknown image camera scene root_node
                 selected_node image_type) = XResolution image
  /\ CellValue (RayCasting.RenderImageWithRayCasting unknown image camera scene root_node
                  selected_node image_type) ix iy
     = match RayCasting.pixel_node image camera scene root_node selected_node image_type
               (AncestorTransformation scene (length (Nodes scene))
                  (match Node scene root_node with Some nd => Parent nd | None => None end)
                  R3identity_affine) ix iy with
       | Some n => inject_Z n
       | None => unknown
       end.
Proof.
  intros Hx Hy. unfold RayCasting.RenderImageWithRayCasting.
  set (T := AncestorTransformation scene (length (Nodes scene)) _ R3identity_affine).
  set (w := XResolution image) in *. set (h := YResolution image) in *.
  set (val := fun x y =>
                match RayCasting.pixel_node image camera scene root_node selected_node
                        image_type T x y with
                | Some n => inject_Z n
                | None => unknown
                end).
  set (Inv := fun (k : Z) (g : R2Grid) =>
                XResolution g = w /\ YResolution g = h
                /\ (forall x y, 0 <= x < w -> 0 <= y -> x + y * w < k ->
                                GridValue g (x + y * w) = val x y)
                /\ (forall x y, 0 <= x < w -> 0 <= y -> k <= x + y * w ->
                                GridValue g (x + y * w) = unknown)).
  cbv zeta. cbn [Clear XResolution YResolution]. fold w h.
  assert (Hrows :
            Inv (h * w)
                (fold_left
                   (fun image0 iy0 =>
                      fold_left
                        (fun image1 ix0 =>
                           match RayCasting.pixel_node image1 camera scene root_node
                                   selected_node image_type T ix0 iy0 with
                           | Some n => SetGridValue image1 ix0 iy0 (inject_Z n)
                           | None => image1
                           end)
                        (indices (XResolution image0)) image0)
                   (indices h) (Clear image unknown))).
  { apply (fold_indices _ (fun r g => Inv (r * w) g)); [lia| |].
    - unfold Inv. cbn [Clear XResolution YResolution GridValue].
      repeat split; try reflexivity. intros x y Hx0 Hy0 Hlt. nia.
    - intros r g Hr Hg.
      replace ((r + 1) * w) with (r * w + w) by lia.
      destruct Hg as (Hgx & Hgy & Hlow & Hhigh). rewrite Hgx.
      apply (fold_indices _ (fun c g => Inv (r * w + c) g)); [lia| |].
      + rewrite Z.add_0_r. repeat split; assumption.
      + intros c g' Hc (Hx' & Hy' & Hlow' & Hhigh').
        assert (Hval : val c r
                       = match RayCasting.pixel_node g' camera scene root_node
                                 selected_node image_type T c r with
                         | Some n => inject_Z n
                         | None => unknown
                         end).
        { unfold val, RayCasting.pixel_node. rewrite Hx', Hy'. reflexivity. }
        destruct (RayCasting.pixel_node g' camera scene root_node selected_node
                    image_type T c r) as [n|].
        * unfold Inv. cbn [SetGridValue XResolution YResolution GridValue].
          split; [exact Hx'|]. split; [exact Hy'|]. rewrite Hx'. split.
          -- intros x y Hx0 Hy0 Hlt.
             destruct (Z.eqb_spec (x + y * w) (c + r * w)) as [E|E].
             ++ destruct (cell_index_inj w x y c r Hx0 Hc E) as [-> ->].
                symmetry. exact Hval.
             ++ apply Hlow'; [assumption | assumption | lia].
          -- intros x y Hx0 Hy0 Hge.
             destruct (Z.eqb_spec (x + y * w) (c + r * w)) as [E|E]; [lia|].
             apply Hhigh'; [assumption | assumption | lia].
        * split; [exact Hx'|]. split; [exact Hy'|]. split.
          -- intros x y Hx0 Hy0 Hlt.
             destruct (Z.eq_dec (x + y * w) (c + r * w)) as [E|E].
             ++ destruct (cell_index_inj w x y c r Hx0 Hc E) as [-> ->].
                rewrite Hval. apply Hhigh'; [assumption | lia | lia].
             ++ apply Hlow'; [assumption | assumption | lia].
          -- intros x y Hx0 Hy0 Hge. apply Hhigh'; [assumption | assumption | lia]. }
  destruct Hrows as (Hgx & _ & Hlow & _).
  split; [exact Hgx|].
  unfold CellValue. rewrite Hgx.
  rewrite Hlow; [reflexivity | lia | lia | nia].
Qed.

(** X7.  Ray casting writes nothing but the index of the selected node
    when a node is selected, and nothing at all into an image that is not
    a node index image: the other cells hold the unknown value. *)
Theorem RenderImageWithRayCasting_selected (unknown : Q) (image : R2Grid)
    (camera : R3Camera) (scene : R3Scene) (root_node : NodeId)
    (selected_node : option NodeId) (image_type : Z) (ix iy : Z) :
  0 <= ix < XResolution image -> 0 <= iy < YResolution image ->
  let cell := CellValue (RayCasting.RenderImageWithRayCasting unknown image camera scene
                           root_node selected_node image_type) ix iy in
  (image_type <> NODE_INDEX_IMAGE -> cell = unknown)
  /\ (forall s, selected_node = Some s -> cell = unknown \/ cell = inject_Z s).
Proof.
  intros Hx Hy cell. subst cell.
  rewrite (proj2 (RenderImageWithRayCasting_cells unknown image camera scene root_node
                    selected_node image_type ix iy Hx Hy)).
  unfold RayCasting.pixel_node.
  destruct (NodeIntersects scene root_node _) as [[n|]|]; split; intros; auto.
  - destruct (Z.eqb_spec image_type NODE_INDEX_IMAGE); [contradiction|].
    destruct selected_node as [s|]; [destruct (s =? n)|]; reflexivity.
  - subst selected_node. destruct (Z.eqb_spec s n) as [->|]; [|left; reflexivity].
    destruct (image_type =? NODE_INDEX_IMAGE); [right | left]; reflexivity.
Qed.

End RayCastingFacts.
Lemma of_double_half (n : Z) :
  0 <= n <= Int.MAX -> Int.of_double (inject_Z n + (1 # 2))%Q = n.
Proof.
  intros H. unfold Int.of_double, Int.trunc. cbn [Qplus inject_Z Qnum Qden].
  change (Z.pos (1 * 2)) with 2.
  rewrite Z.quot_div_nonneg by lia.
  replace ((n * 2 + 1 * 1) / 2) with n.
  - apply wrap_id. unfold Int.in_range, Int.MIN, Int.MAX in *. lia.
  - apply Z.div_unique with (r := 1); lia.
Qed.

Section RayCastingCounts.

Context {AK : AffineKernel} {RC : RayCaster}.
Variable cfg : Config.
Variable unknown : Q.
Variable opengl : R2Grid -> R3Camera -> R3Scene -> NodeId -> option NodeId -> Z -> Z -> Q.

(** X8.  With ray casting, the count that [SceneCoverageScore] keeps for a
    node is the number of pixels whose ray hits that node first. *)
Theorem ray_casting_pixel_counts (camera : R3Camera) (scene : R3Scene) (i : NodeId) :
  glut cfg = false -> mesa cfg = false ->
  0 < width cfg -> 0 <= height cfg -> width cfg * height cfg <= Int.MAX ->
  (unknown < 0)%Q ->
  NNodes scene <= Int.MAX ->
  (forall ray n, NodeIntersects scene (Root scene) ray = Some (Some n) ->
                 0 <= n < NNodes scene) ->
  0 <= i < NNodes scene ->
  array_get
    (@count_node_pixels AK (RayCasting.renderer unknown opengl) scene
       (@scored_image AK (RayCasting.renderer unknown opengl) cfg camera scene)) i
  = hit_count cfg camera scene i.
Proof.
  intros Hglut Hmesa Hw Hh Hwh Hu Hn Hhits Hi.
  rewrite count_node_pixels_get by exact Hi.
  unfold visible_pixel_count, hit_count, scored_image, RenderImage.
  rewrite Hglut, Hmesa. cbn [orb].
  unfold NEntries. cbn [SetGridValues XResolution YResolution R2Grid_new GridValue].
  unfold Int.mul. rewrite wrap_id by (unfold Int.in_range, Int.MIN, Int.MAX in *; nia).
  f_equal. f_equal. apply filter_ext_in. intros e He.
  apply indices_in in He.
  cbn [RenderImageWithRayCasting RayCasting.renderer R2_GRID_UNKNOWN_VALUE].
  assert (Hdiv : 0 <= e / width cfg < height cfg).
  { split; [apply Z.div_pos; lia|]. apply Z.div_lt_upper_bound; lia. }
  pose proof (Z.mod_pos_bound e (width cfg) Hw) as Hmod.
  pose proof (RenderImageWithRayCasting_cells unknown
                (R2Grid_new (width cfg) (height cfg) null_box2) camera scene (Root scene)
                None NODE_INDEX_IMAGE (e mod width cfg) (e / width cfg) Hmod Hdiv)
    as [Hres Hcell].
  unfold CellValue in Hcell. rewrite Hres in Hcell. cbn [XResolution R2Grid_new] in Hcell.
  replace (e mod width cfg + e / width cfg * width cfg) with e in Hcell
    by (rewrite (Z.div_mod e (width cfg)) at 1; lia).
  rewrite Hcell. fold (ray_hit cfg camera scene (e mod width cfg) (e / width cfg)).
  unfold shows_node. cbn [R2_GRID_UNKNOWN_VALUE RayCasting.renderer].
  destruct (ray_hit cfg camera scene (e mod width cfg) (e / width cfg)) as [n|] eqn:En.
  - assert (Hnr : 0 <= n < NNodes scene).
    { unfold ray_hit, RayCasting.pixel_node in En.
      destruct (NodeIntersects scene (Root scene) _) as [[m|]|] eqn:Em; try discriminate.
      cbn in En. inversion En; subst. exact (Hhits _ _ Em). }
    rewrite of_double_half by lia.
    assert (Hq : Qeq_bool (inject_Z n) unknown = false).
    { destruct (Qeq_bool (inject_Z n) unknown) eqn:E; [|reflexivity].
      apply Qeq_bool_iff in E. exfalso.
      assert (H0 : (0 <= inject_Z n)%Q) by (unfold Qle; cbn; lia).
      rewrite E in H0. apply (Qlt_irrefl 0). eapply Qle_lt_trans; eassumption. }
    rewrite Hq. cbn [negb andb].
    replace (0 <=? i) with true by (symmetry; apply Z.leb_le; lia).
    replace (i <? NNodes scene) with true by (symmetry; apply Z.ltb_lt; lia).
    reflexivity.
  - rewrite Qeq_bool_refl. reflexivity.
Qed.

End RayCastingCounts.

(** The table of the small house, hit through the left half of a 10 x 10
    image: 50 pixels. *)
Lemma ray_casting_pixel_counts_witness :
  array_get
    (@count_node_pixels unit_affine
       (@RayCasting.renderer unit_affine left_half_caster (-1) (fun _ _ _ _ _ _ _ => 0%Q))
       house
       (@scored_image unit_affine
          (@RayCasting.renderer unit_affine left_half_caster (-1) (fun _ _ _ _ _ _ _ => 0%Q))
          (raycast_image 0 (1 # 10)) R3Camera_default house)) 10
  = @hit_count unit_affine left_half_caster (raycast_image 0 (1 # 10)) R3Camera_default
      house 10.
Proof.
  apply (@ray_casting_pixel_counts unit_affine left_half_caster (raycast_image 0 (1 # 10))
           (-1) (fun _ _ _ _ _ _ _ => 0%Q) R3Camera_default house 10).
  - reflexivity.
  - reflexivity.
  - cbn [raycast_image width]. lia.
  - cbn [raycast_image height]. lia.
  - vm_compute. discriminate.
  - reflexivity.
  - vm_compute. discriminate.
  - intros ray n H. cbn [NodeIntersects left_half_caster] in H.
    destruct (fst ray <? 5); [|discriminate]. inversion H. vm_compute.
    split; [discriminate | reflexivity].
  - vm_compute. split; [discriminate | reflexivity].
Defined.

(** With the chair selected, the cells of the same image hold nothing but
    the unknown value: the rays hit the table only. *)
Lemma RenderImageWithRayCasting_selected_witness :
  let cell :=
    CellValue (@RayCasting.RenderImageWithRayCasting unit_affine left_half_caster (-1)
                 (R2Grid_new 10 10 null_box2) R3Camera_default house 0 (Some 5)
                 NODE_INDEX_IMAGE) 2 3 in
  (NODE_INDEX_IMAGE <> NODE_INDEX_IMAGE -> cell = (-1)%Q)
  /\ (forall s, Some 5 = Some s -> cell = (-1)%Q \/ cell = inject_Z s).
Proof.
  apply (@RenderImageWithRayCasting_selected unit_affine left_half_caster (-1)
           (R2Grid_new 10 10 null_box2) R3Camera_default house 0 (Some 5)
           NODE_INDEX_IMAGE 2 3).
  - cbn [R2Grid_new XResolution]. lia.
  - cbn [R2Grid_new YResolution]. lia.
Defined.
(** ** The sample points of the object coverage score *)

Section ObjectCache.

Context {AK : AffineKernel} {SQ : SceneQuery}.

Lemma ObjectCoverageScore_last_node (st : ScoreState) (camera : R3Camera)
    (scene : R3Scene) (node : NodeId) :
  last_node (snd (ObjectCoverageScore st camera scene node)) = Some node.
Proof.
  unfold ObjectCoverageScore.
  destruct (last_node st) as [n|] eqn:El.
  - destruct (Z.eqb_spec n node) as [->|Hne].
    + destruct (npoints_of (points st) =? 0); exact El.
    + destruct (RNIsZero _ _); [reflexivity|].
      destruct (generate_points scene node _ (rng st)) as [pts r].
      cbn [points]. destruct (npoints_of pts =? 0); reflexivity.
  - destruct (RNIsZero _ _); [reflexivity|].
    destruct (generate_points scene node _ (rng st)) as [pts r].
    cbn [points]. destruct (npoints_of pts =? 0); reflexivity.
Qed.

(** The score from the stored samples. *)
Lemma ObjectCoverageScore_same_node (st : ScoreState) (camera : R3Camera)
    (scene : R3Scene) (node : NodeId) :
  last_node st = Some node ->
  ObjectCoverageScore st camera scene node
  = (if npoints_of (points st) =? 0 then 0%R
     else (IZR (count_visible camera scene node (points st))
           / IZR (npoints_of (points st)))%R,
     st).
Proof.
  intros El. unfold ObjectCoverageScore. rewrite El, Z.eqb_refl.
  destruct (npoints_of (points st) =? 0); reflexivity.
Qed.

Lemma ObjectCoverageScore_from_state (st : ScoreState) (camera : R3Camera)
    (scene : R3Scene) (node : NodeId) :
  fst (ObjectCoverageScore st camera scene node)
  = let st1 := snd (ObjectCoverageScore st camera scene node) in
    if npoints_of (points st1) =? 0 then 0%R
    else (IZR (count_visible camera scene node (points st1))
          / IZR (npoints_of (points st1)))%R.
Proof.
  unfold ObjectCoverageScore.
  destruct (match last_node st with Some n => n =? node | None => false end).
  - destruct (npoints_of (points st) =? 0) eqn:E; cbn [fst snd]; rewrite E; reflexivity.
  - destruct (RNIsZero _ _); [reflexivity|].
    destruct (generate_points scene node _ (rng st)) as [pts r].
    cbn [points]. destruct (npoints_of pts =? 0) eqn:E; cbn [fst snd points];
      rewrite E; reflexivity.
Qed.

(** X9.  After a call for a node, further calls for the same node reuse
    the stored sample points: they leave the static variables and the
    position in the random stream as they are, whatever the camera, and
    the call repeated for the same camera returns the same score. *)
Theorem ObjectCoverageScore_reuses_samples (st : ScoreState) (camera camera' : R3Camera)
    (scene : R3Scene) (node : NodeId) :
  let st1 := snd (ObjectCoverageScore st camera scene node) in
  last_node st1 = Some node
  /\ snd (ObjectCoverageScore st1 camera' scene node) = st1
  /\ fst (ObjectCoverageScore st1 camera scene node)
     = fst (ObjectCoverageScore st camera scene node).
Proof.
  intros st1. pose proof (ObjectCoverageScore_last_node st camera scene node) as Hl.
  fold st1 in Hl. split; [exact Hl|]. split.
  - rewrite (ObjectCoverageScore_same_node st1 camera' scene node Hl). reflexivity.
  - rewrite (ObjectCoverageScore_same_node st1 camera scene node Hl). cbn [fst].
    rewrite (ObjectCoverageScore_from_state st camera scene node). reflexivity.
Qed.

End ObjectCache.

(** ** The best candidate *)

Section BestCandidate.

Context {AK : AffineKernel} {RD : Renderer}.
Variable cfg : Config.

Lemma remember_best_cases (camera best_camera : R3Camera) :
  (remember_best cfg camera best_camera = best_camera
   /\ (passes_tests cfg camera -> (Value camera <= Value best_camera)%R))
  \/ (remember_best cfg camera best_camera = camera
      /\ passes_tests cfg camera /\ (Value camera > Value best_camera)%R).
Proof.
  unfold remember_best, passes_tests.
  destruct (Req_EM_T (Value camera) 0) as [E|E]; [left; split; [reflexivity|tauto]|].
  destruct (Rlt_dec (Value camera) (Q2R (min_score cfg))) as [L|L];
    [left; split; [reflexivity|lra]|].
  destruct (Rgt_dec (Value camera) (Value best_camera)) as [G|G].
  - right. split; [reflexivity|]. split; [split; [exact E | lra] | exact G].
  - left. split; [reflexivity | lra].
Qed.

(** The best camera after a run of candidates: the camera the run started
    with, when no candidate that passes the tests has a larger value;
    otherwise the first candidate of the largest value. *)
Lemma fold_remember_best (l : list R3Camera) (b0 : R3Camera) :
  let b := fold_left (fun best camera => remember_best cfg camera best) l b0 in
  (b = b0 /\ Forall (fun c => passes_tests cfg c -> (Value c <= Value b0)%R) l)
  \/ (exists before after,
        l = before ++ b :: after
        /\ passes_tests cfg b /\ (Value b > Value b0)%R
        /\ Forall (fun c => passes_tests cfg c -> (Value c < Value b)%R) before
        /\ Forall (fun c => passes_tests cfg c -> (Value c <= Value b)%R) after).
Proof.
  cbv zeta. revert b0. induction l as [|c l IH]; intros b0; cbn [fold_left].
  - left. split; [reflexivity | constructor].
  - destruct (remember_best_cases c b0) as [[E Hc]|[E [Hp Hc]]]; rewrite E.
    + destruct (IH b0) as [[Eb Hall]|(before & after & Hl & Hp & Hgt & Hb & Ha)].
      * left. split; [exact Eb|]. constructor; assumption.
      * right. exists (c :: before), after. split; [rewrite Hl at 1; reflexivity|].
        split; [exact Hp|]. split; [exact Hgt|]. split; [|exact Ha].
        constructor; [|exact Hb]. intros Hpc. specialize (Hc Hpc). lra.
    + destruct (IH c) as [[Eb Hall]|(before & after & Hl & Hp' & Hgt & Hb & Ha)].
      * right. exists [], l. rewrite Eb. split; [reflexivity|].
        split; [exact Hp|]. split; [exact Hc|]. split; [constructor | exact Hall].
      * right. exists (c :: before), after. split; [rewrite Hl at 1; reflexivity|].
        split; [exact Hp'|]. split; [lra|]. split; [|exact Ha].
        constructor; [|exact Hb]. intros _. lra.
Qed.

(** X10.  The camera kept for a wall is the first of the candidates with
    the largest score among those that pass the tests (score not 0, at
    least [min_score]) and are positive; when there is none, it is the
    default camera and nothing is inserted for the wall. *)
Theorem best_wall_camera_first_best (scene : R3Scene) (room_node : NodeId)
    (views : list R3Camera) :
  let best := best_wall_camera cfg scene room_node views in
  let candidates := scored_wall_views cfg scene room_node views in
  (best = R3Camera_default
   /\ Forall (fun c => passes_tests cfg c -> (Value c <= 0)%R) candidates
   /\ forall nm cameras, insert_best best nm cameras = cameras)
  \/ (exists before after,
        candidates = before ++ best :: after
        /\ passes_tests cfg best /\ (Value best > 0)%R
        /\ Forall (fun c => passes_tests cfg c -> (Value c < Value best)%R) before
        /\ Forall (fun c => passes_tests cfg c -> (Value c <= Value best)%R) after).
Proof.
  intros best candidates.
  assert (Hdef : forall nm cameras, insert_best R3Camera_default nm cameras = cameras).
  { intros nm cameras. unfold insert_best. cbn [R3Camera_default Value].
    destruct (Rgt_dec 0 0) as [H|H]; [lra | reflexivity]. }
  assert (E : best = fold_left (fun b camera => remember_best cfg camera b) candidates
                               R3Camera_default).
  { unfold best, best_wall_camera, candidates, scored_wall_views.
    generalize R3Camera_default. induction views as [|v views IH]; intros b0;
      [reflexivity|]. cbn [fold_left map]. apply IH. }
  rewrite E.
  destruct (fold_remember_best candidates R3Camera_default) as [[Eb Hall]|H].
  - left. rewrite Eb. split; [reflexivity|]. split; [exact Hall | exact Hdef].
  - right. exact H.
Qed.

End BestCandidate.
(** ** Scene coverage, method 0: how large the score can be *)

Section Method0Bound.

Context {AK : AffineKernel} {RD : Renderer}.
Variable cfg : Config.

Lemma scored_image_resolution (camera : R3Camera) (scene : R3Scene) :
  XResolution (scored_image cfg camera scene) = width cfg
  /\ YResolution (scored_image cfg camera scene) = height cfg.
Proof.
  unfold scored_image, RenderImage.
  destruct (glut cfg || mesa cfg); split; reflexivity.
Qed.

Lemma qualifying_nodes_NoDup (scene : R3Scene) (image : R2Grid) :
  NoDup (qualifying_nodes cfg scene image).
Proof. unfold qualifying_nodes. apply NoDup_filter, indices_NoDup. Qed.

(** The qualifying nodes share the pixels of the image. *)
Lemma qualifying_pixels_le (camera : R3Camera) (scene : R3Scene) :
  0 <= image_pixel_count cfg <= Int.MAX ->
  qualifying_pixels cfg scene (scored_image cfg camera scene) <= image_pixel_count cfg.
Proof.
  intros Hn. unfold qualifying_pixels.
  pose proof (shown_sum (NNodes scene) (scored_image cfg camera scene)
                (indices (NEntries (scored_image cfg camera scene)))
                (qualifying_nodes cfg scene (scored_image cfg camera scene))
                (qualifying_nodes_NoDup scene _)) as H.
  rewrite indices_length in H.
  destruct (scored_image_resolution camera scene) as [Hx Hy].
  unfold NEntries in H at 2. rewrite Hx, Hy in H.
  unfold Int.mul in H. unfold image_pixel_count in *.
  rewrite wrap_id in H by (unfold Int.in_range, Int.MIN, Int.MAX in *; lia).
  rewrite Z2Nat.id in H by lia. exact H.
Qed.

Lemma Zsum_above (c : Q) (g : Z -> Z) (l : list Z) :
  Forall (fun i => (c < inject_Z (g i))%Q) l ->
  (inject_Z (Z.of_nat (length l)) * c <= inject_Z (Zsum (map g l)))%Q
  /\ (l <> [] -> (inject_Z (Z.of_nat (length l)) * c < inject_Z (Zsum (map g l)))%Q).
Proof.
  induction 1 as [|i l Hi Hl [IH _]].
  - split; [|congruence].
    cbn [length map Zsum fold_right Z.of_nat]. change (inject_Z 0) with 0%Q. lra.
  - assert (E : (inject_Z (Z.of_nat (length (i :: l))) * c
                 == c + inject_Z (Z.of_nat (length l)) * c)%Q).
    { cbn [length]. rewrite Nat2Z.inj_succ. unfold Z.succ. rewrite inject_Z_plus.
      change (inject_Z 1) with 1%Q. ring. }
    assert (E' : (inject_Z (Zsum (map g (i :: l)))
                  == inject_Z (g i) + inject_Z (Zsum (map g l)))%Q).
    { cbn [map Zsum fold_right]. rewrite inject_Z_plus. reflexivity. }
    split; [|intros _]; rewrite E, E'; lra.
Qed.

(** X11.  With scoring method 0 (the threshold at least 1, no overflow)
    the score lies between 0 and the number of qualifying nodes, and fewer
    than [1 / min_visible_fraction] nodes can qualify. *)
Theorem method0_score_bounded (camera : R3Camera) (scene : R3Scene)
    (parent_node : option NodeId) :
  scene_scoring_method cfg = 0 ->
  within_int cfg scene (scored_image cfg camera scene) ->
  1 <= Qfloor (min_visible_fraction cfg * inject_Z (image_pixel_count cfg)) ->
  (0 <= fst (SceneCoverageScore cfg camera scene parent_node)
   <= IZR (qualifying_count cfg scene (scored_image cfg camera scene)))%R
  /\ (inject_Z (qualifying_count cfg scene (scored_image cfg camera scene))
      * min_visible_fraction cfg < 1)%Q.
Proof.
  intros Hm Hw Hg.
  rewrite (method0_score cfg camera scene parent_node Hm Hw Hg).
  destruct Hw as (Hn & _ & _ & _).
  set (image := scored_image cfg camera scene).
  pose proof (qualifying_count_nonneg cfg scene image) as Hk.
  pose proof (qualifying_pixels_nonneg cfg scene image) as Hp.
  pose proof (qualifying_pixels_le camera scene Hn) as Hpn. fold image in Hpn.
  assert (Hn0 : 0 < image_pixel_count cfg).
  { destruct (Z.eq_dec (image_pixel_count cfg) 0) as [E|E]; [|lia].
    rewrite E in Hg. destruct (min_visible_fraction cfg) as [a b].
    unfold Qfloor in Hg. cbn in Hg. rewrite Z.mul_0_r in Hg.
    rewrite Z.div_0_l in Hg by lia. lia. }
  split.
  - unfold method0_spec. fold image.
    destruct (Qlt_bool _ _).
    + assert (HN : (0 < IZR (image_pixel_count cfg))%R) by (apply IZR_lt; lia).
      split.
      * apply Rmult_le_pos; [apply IZR_le; nia|].
        apply Rlt_le, Rinv_0_lt_compat, HN.
      * apply (Rmult_le_reg_r (IZR (image_pixel_count cfg))); [exact HN|].
        unfold Rdiv. rewrite Rmult_assoc, Rinv_l, Rmult_1_r by lra.
        rewrite <- mult_IZR. apply IZR_le. nia.
    + split; [lra | apply IZR_le; lia].
  - assert (Hall : Forall
                     (fun i => (min_visible_fraction cfg * inject_Z (image_pixel_count cfg)
                                < inject_Z (visible_pixel_count scene image i))%Q)
                     (qualifying_nodes cfg scene image)).
    { apply Forall_forall. intros i Hi. unfold qualifying_nodes in Hi.
      apply filter_In in Hi. destruct Hi as [_ Hq]. unfold qualifies in Hq.
      destruct (Node scene i); [|discriminate].
      apply andb_true_iff in Hq. destruct Hq as [_ Hq].
      unfold Qlt_bool in Hq. apply negb_true_iff in Hq.
      destruct (Qlt_le_dec (min_visible_fraction cfg * inject_Z (image_pixel_count cfg))
                           (inject_Z (visible_pixel_count scene image i))) as [L|L];
        [exact L|].
      apply Qle_bool_iff in L. congruence. }
    destruct (Zsum_above _ _ _ Hall) as [_ Hstrict].
    fold (qualifying_pixels cfg scene image) in Hstrict.
    fold (qualifying_count cfg scene image) in Hstrict.
    assert (HNq : (0 < inject_Z (image_pixel_count cfg))%Q).
    { change 0%Q with (inject_Z 0). rewrite <- Zlt_Qlt. exact Hn0. }
    destruct (qualifying_nodes cfg scene image) as [|i l] eqn:El.
    + unfold qualifying_count. rewrite El. cbn [length Z.of_nat].
      change (inject_Z 0) with 0%Q. lra.
    + specialize (Hstrict ltac:(discriminate)).
      assert (Hpq : (inject_Z (qualifying_pixels cfg scene image)
                     <= inject_Z (image_pixel_count cfg))%Q)
        by (rewrite <- Zle_Qle; exact Hpn).
      apply (Qmult_lt_r _ _ (inject_Z (image_pixel_count cfg)) HNq).
      eapply Qlt_le_trans; [|rewrite Qmult_1_l; exact Hpq].
      eapply Qle_lt_trans; [|exact Hstrict].
      unfold qualifying_count. rewrite El.
      apply Qle_lteq. right. ring.
Qed.

End Method0Bound.

(** ** Object cameras: one per object at most *)

Section ObjectCameras.

Context {AK : AffineKernel} {RD : Renderer} {SQ : SceneQuery}
        {RZ : Rasterizer} {VS : ViewSampler}.
Variable cfg : Config.

Lemma insert_best_names (best_camera : R3Camera) (nm : option string)
    (cameras : list Camera) :
  exists kept : bool,
    insert_best best_camera nm cameras
    = cameras ++ (if kept then [mkCamera best_camera nm] else []).
Proof.
  unfold insert_best. destruct (Rgt_dec (Value best_camera) 0).
  - exists true. reflexivity.
  - exists false. rewrite app_nil_r. reflexivity.
Qed.

Lemma object_cameras_loop (scene : R3Scene) (l : list NodeId) :
  NoDup l ->
  forall (cameras : list Camera) (st : ScoreState),
  exists (keep : NodeId -> bool) (emitted : list Camera),
    fst (fold_left
           (fun acc i =>
              let '(cameras, st) := acc in
              match Node scene i with
              | None => acc
              | Some node =>
                  if negb (IsObject node) then acc else
                  let '(best_camera, st) := best_object_camera cfg scene i st in
                  (insert_best best_camera (Name node) cameras, st)
              end)
           l (cameras, st))
    = cameras ++ emitted
    /\ map name emitted
       = map (node_name scene)
             (filter keep
                (filter (fun i => match Node scene i with
                                  | Some node => IsObject node
                                  | None => false
                                  end) l)).
Proof.
  induction 1 as [|i l Hni Hnd IH]; intros cameras st.
  - exists (fun _ => false), []. cbn. rewrite app_nil_r. split; reflexivity.
  - cbn [fold_left filter].
    assert (Hext : forall (keep' : NodeId -> bool) (b : bool) (l' : list NodeId),
               (forall j, In j l' -> In j l) ->
               filter (fun j => if j =? i then b else keep' j) l' = filter keep' l').
    { intros keep' b l' Hin. apply filter_ext_in. intros j Hj.
      destruct (Z.eqb_spec j i) as [->|]; [|reflexivity].
      exfalso. apply Hni, Hin, Hj. }
    assert (Hsub : forall j,
               In j (filter (fun i0 => match Node scene i0 with
                                       | Some node => IsObject node
                                       | None => false
                                       end) l) -> In j l).
    { intros j Hj. apply filter_In in Hj. tauto. }
    destruct (Node scene i) as [node|] eqn:En.
    + destruct (IsObject node) eqn:Eo; cbn [negb].
      * destruct (best_object_camera cfg scene i st) as [best_camera st'].
        destruct (insert_best_names best_camera (Name node) cameras) as [kept Hk].
        rewrite Hk.
        destruct (IH (cameras ++ (if kept then [mkCamera best_camera (Name node)] else []))
                     st') as (keep & emitted & Hf & Hn).
        exists (fun j => if j =? i then kept else keep j),
               ((if kept then [mkCamera best_camera (Name node)] else []) ++ emitted).
        split; [rewrite Hf, app_assoc; reflexivity|].
        cbn [filter]. rewrite Z.eqb_refl. rewrite Hext by exact Hsub.
        destruct kept; cbn [app map name]; rewrite Hn; [|reflexivity].
        unfold node_name at 2. rewrite En. reflexivity.
      * destruct (IH cameras st) as (keep & emitted & Hf & Hn).
        exists keep, emitted. split; assumption.
    + destruct (IH cameras st) as (keep & emitted & Hf & Hn).
      exists keep, emitted. split; assumption.
Qed.

(** X12.  [CreateObjectCameras] keeps the cameras it finds and appends at
    most one camera for each object node, in the order of the nodes, each
    named like its node: the names of the new cameras are the names of a
    selection of the object nodes. *)
Theorem CreateObjectCameras_one_per_object (scene : R3Scene) (cameras : list Camera)
    (st : ScoreState) :
  exists (keep : NodeId -> bool) (emitted : list Camera),
    fst (CreateObjectCameras cfg scene cameras st) = cameras ++ emitted
    /\ map name emitted = map (node_name scene) (filter keep (object_nodes scene))
    /\ (length emitted <= length (object_nodes scene))%nat.
Proof.
  destruct (object_cameras_loop scene (indices (NNodes scene))
              (indices_NoDup (NNodes scene)) cameras st)
    as (keep & emitted & Hf & Hn).
  exists keep, emitted. split; [exact Hf|]. split; [exact Hn|].
  rewrite <- (length_map name emitted), Hn, length_map.
  apply filter_length_le.
Qed.

End ObjectCameras.
(** The table on half of a 10 x 10 image: one node qualifies, the score is
    1/2, and 1 * (1/10) < 1. *)
Lemma method0_score_bounded_witness :
  (0 <= fst (@SceneCoverageScore unit_affine (picture_renderer (table_picture 50%Z))
               (small_image 0%Z (1 # 10)%Q) R3Camera_default house (Some 1%Z))
   <= IZR (@qualifying_count unit_affine (picture_renderer (table_picture 50%Z))
             (small_image 0%Z (1 # 10)%Q) house
             (@scored_image unit_affine (picture_renderer (table_picture 50%Z))
                (small_image 0%Z (1 # 10)%Q) R3Camera_default house)))%R
  /\ (inject_Z (@qualifying_count unit_affine (picture_renderer (table_picture 50%Z))
                  (small_image 0%Z (1 # 10)) house
                  (@scored_image unit_affine (picture_renderer (table_picture 50%Z))
                     (small_image 0%Z (1 # 10)) R3Camera_default house))
      * min_visible_fraction (small_image 0%Z (1 # 10)) < 1)%Q.
Proof.
  apply (@method0_score_bounded unit_affine (picture_renderer (table_picture 50))
           (small_image 0 (1 # 10)) R3Camera_default house (Some 1)).
  - reflexivity.
  - exact (house_within_int 0 50 eq_refl).
  - closed_le.
Defined.
(** ** The command line *)

Section CommandLineFacts.

Context {CL : CLibrary}.

(** Every case of the chain of comparisons of [option_action]. *)
Ltac option_cases H :=
  unfold option_action in H;
  repeat match type of H with
         | context [if ?b then _ else _] => destruct b
         end;
  try discriminate H; inversion H; subst; clear H.

(** Induction over the arguments the way the loop consumes them: one or
    two at a time. *)
Lemma arguments_ind (P : list string -> Prop) :
  P [] ->
  (forall arg rest, P rest -> (forall value rest', rest = value :: rest' -> P rest') ->
                    P (arg :: rest)) ->
  forall args, P args.
Proof.
  intros Hnil Hcons args.
  assert (H : forall n (l : list string), (length l <= n)%nat -> P l).
  { induction n as [|n IH]; intros l Hl.
    - destruct l; [exact Hnil | cbn in Hl; lia].
    - destruct l as [|arg rest]; [exact Hnil|]. cbn in Hl.
      apply Hcons; [apply IH; lia|].
      intros value rest' ->. apply IH. cbn in Hl. lia. }
  exact (H (length args) args (le_n _)).
Qed.

(** A property of the variables that every argument preserves holds when
    the loop ends. *)
Lemma parse_arguments_invariant (I : ParseState -> Prop) :
  (forall arg f st, option_action arg = Switch f -> I st -> I (f st)) ->
  (forall arg f x st, option_action arg = IntValue f -> I st -> I (f x st)) ->
  (forall arg f x st, option_action arg = RealValue f -> I st -> I (f x st)) ->
  (forall arg f x st, option_action arg = FileValue f -> I st -> I (f x st)) ->
  (forall arg st st', file_argument arg st = Returns st' -> I st -> I st') ->
  forall args st st', I st -> parse_arguments args st = Returns st' -> I st'.
Proof.
  intros Hs Hi Hr Hf Hp args.
  induction args as [|arg rest IH1 IH2] using arguments_ind; intros st st' HI H.
  - inversion H; subst. exact HI.
  - cbn [parse_arguments] in H.
    destruct (starts_with_dash arg).
    + destruct (option_action arg) as [f|f|f|f|] eqn:Ea.
      * exact (IH1 _ _ (Hs arg f st Ea HI) H).
      * destruct rest as [|value rest']; [discriminate|].
        exact (IH2 value rest' eq_refl _ _ (Hi arg f _ st Ea HI) H).
      * destruct rest as [|value rest']; [discriminate|].
        exact (IH2 value rest' eq_refl _ _ (Hr arg f _ st Ea HI) H).
      * destruct rest as [|value rest'].
        -- inversion H; subst. exact (Hf arg f None st Ea HI).
        -- exact (IH2 value rest' eq_refl _ _ (Hf arg f _ st Ea HI) H).
      * discriminate.
    + destruct (file_argument arg st) as [st1| | | |] eqn:Ef; try discriminate.
      exact (IH1 _ _ (Hp arg st st1 Ef HI) H).
Qed.

Lemma file_argument_cases (arg : string) (st st' : ParseState) :
  file_argument arg st = Returns st' ->
  st' = assign (set_input_scene_filename (Some arg)) st
  \/ st' = set_output (assign (set_output_cameras_filename (Some arg)) st).
Proof.
  unfold file_argument.
  destruct (input_scene_filename (vars st)).
  - destruct (output_cameras_filename (vars st)); [discriminate|].
    intros H. inversion H. right. reflexivity.
  - intros H. inversion H. left. reflexivity.
Qed.

(** X13.  The arguments never leave both rendering switches on: when
    [glut] and [mesa] are not both set before [ParseArgs], they are not
    both set after it, whatever the arguments. *)
Theorem ParseArgs_one_back_end (argv : list string) (v v' : Variables) (status : Z) :
  glut (config v) && mesa (config v) = false ->
  ParseArgs argv v = Returns (status, v') ->
  glut (config v') && mesa (config v') = false.
Proof.
  intros Hv H. unfold ParseArgs in H.
  destruct (parse_arguments (tl argv) (mkParseState v false false)) as [st| | | |] eqn:Ep;
    try discriminate.
  assert (Hst : glut (config (vars st)) && mesa (config (vars st)) = false).
  { apply (parse_arguments_invariant
             (fun st => glut (config (vars st)) && mesa (config (vars st)) = false))
      with (6 := Hv) (7 := Ep).
    - intros arg f st0 Ea HI. option_cases Ea; try exact HI; reflexivity.
    - intros arg f x st0 Ea HI. option_cases Ea; exact HI.
    - intros arg f x st0 Ea HI. option_cases Ea; exact HI.
    - intros arg f x st0 Ea HI. option_cases Ea; exact HI.
    - intros arg st0 st1 Ef HI.
      destruct (file_argument_cases arg st0 st1 Ef) as [-> | ->]; exact HI. }
  cbv zeta in H.
  destruct (is_null (input_cameras_filename (vars st)) && negb (create_cameras st));
    destruct (_ || _); inversion H; subst; exact Hst.
Qed.

(** X14.  After [ParseArgs] there is always a source of cameras: one of
    the three strategies is switched on or a file of cameras is named. *)
Theorem ParseArgs_camera_source (argv : list string) (v v' : Variables) (status : Z) :
  ParseArgs argv v = Returns (status, v') ->
  create_object_cameras v' || create_wall_cameras v' || create_room_cameras v'
  || negb (is_null (input_cameras_filename v')) = true.
Proof.
  intros H. unfold ParseArgs in H.
  destruct (parse_arguments (tl argv) (mkParseState v false false)) as [st| | | |] eqn:Ep;
    try discriminate.
  assert (Hst : create_cameras st = true ->
                create_object_cameras (vars st) || create_wall_cameras (vars st)
                || create_room_cameras (vars st) = true).
  { apply (parse_arguments_invariant
             (fun st => create_cameras st = true ->
                        create_object_cameras (vars st) || create_wall_cameras (vars st)
                        || create_room_cameras (vars st) = true))
      with (7 := Ep).
    - intros arg f st0 Ea HI. option_cases Ea; try exact HI; intros _; cbn;
        rewrite ?orb_true_r; reflexivity.
    - intros arg f x st0 Ea HI. option_cases Ea; exact HI.
    - intros arg f x st0 Ea HI. option_cases Ea; exact HI.
    - intros arg f x st0 Ea HI. option_cases Ea; exact HI.
    - intros arg st0 st1 Ef HI.
      destruct (file_argument_cases arg st0 st1 Ef) as [-> | ->]; exact HI.
    - discriminate. }
  cbv zeta in H.
  destruct (is_null (input_cameras_filename (vars st))) eqn:En;
    destruct (create_cameras st) eqn:Ec; cbn [andb negb] in H;
    destruct (_ || _); inversion H; subst; cbn;
    rewrite ?En, ?Hst, ?orb_true_r by reflexivity; reflexivity.
Qed.

(** The loop over whole arguments followed by more arguments. *)
Lemma parse_arguments_app (args more : list string) :
  forall st,
    whole args = true ->
    parse_arguments (args ++ more) st
    = match parse_arguments args st with
      | Returns st1 => parse_arguments more st1
      | Exits status => Exits status
      | Aborts => Aborts
      | Crashes => Crashes
      | Hangs => Hangs
      end.
Proof.
  induction args as [|arg rest IH1 IH2] using arguments_ind; intros st Hw.
  - reflexivity.
  - cbn [app parse_arguments whole] in *.
    destruct (starts_with_dash arg).
    + destruct (option_action arg) as [f|f|f|f|].
      * apply IH1. exact Hw.
      * destruct rest as [|value rest']; [discriminate|].
        cbn [app]. apply (IH2 value rest' eq_refl). exact Hw.
      * destruct rest as [|value rest']; [discriminate|].
        cbn [app]. apply (IH2 value rest' eq_refl). exact Hw.
      * destruct rest as [|value rest']; [discriminate|].
        cbn [app]. apply (IH2 value rest' eq_refl). exact Hw.
      * reflexivity.
    + destruct (file_argument arg st); try reflexivity. apply IH1. exact Hw.
Qed.

End CommandLineFacts.
Section CommandLineOrder.

Context {CL : CLibrary}.

Lemma ParseArgs_config (argv : list string) (v v' : Variables) (status : Z)
    (st : ParseState) :
  parse_arguments (tl argv) (mkParseState v false false) = Returns st ->
  ParseArgs argv v = Returns (status, v') ->
  config v' = config (vars st).
Proof.
  intros Ep H. unfold ParseArgs in H. rewrite Ep in H. cbv zeta in H.
  destruct (is_null (input_cameras_filename (vars st)) && negb (create_cameras st));
    destruct (_ || _); inversion H; reflexivity.
Qed.

Lemma ParseArgs_returns (argv : list string) (v v' : Variables) (status : Z) :
  ParseArgs argv v = Returns (status, v') ->
  exists st, parse_arguments (tl argv) (mkParseState v false false) = Returns st.
Proof.
  unfold ParseArgs.
  destruct (parse_arguments (tl argv) (mkParseState v false false)) as [st| | | |];
    try discriminate.
  intros _. exists st. reflexivity.
Qed.

(** X15.  The strategy switches overwrite the angle sampling: an
    [-angle_sampling] given before [-create_room_cameras] is lost, the
    angle sampling is [RN_PI / 2]; given after it, it is kept. *)
Theorem ParseArgs_angle_sampling_order (program : string) (args : list string)
    (x : string) (v v' : Variables) (status : Z) :
  whole args = true ->
  (ParseArgs (program :: args ++ ["-angle_sampling"; x; "-create_room_cameras"])%string v
   = Returns (status, v') ->
   angle_sampling (config v') = (RN_PI / 2)%Q)
  /\ (ParseArgs (program :: args ++ ["-create_room_cameras"; "-angle_sampling"; x])%string v
      = Returns (status, v') ->
      angle_sampling (config v') = atof x).
Proof.
  intros Hw. split; intros H.
  - destruct (ParseArgs_returns _ _ _ _ H) as [st Ep].
    rewrite (ParseArgs_config _ _ _ _ _ Ep H).
    cbn [tl] in Ep. rewrite parse_arguments_app in Ep by exact Hw.
    destruct (parse_arguments args (mkParseState v false false)) as [st1| | | |];
      try discriminate.
    cbn in Ep. inversion Ep. reflexivity.
  - destruct (ParseArgs_returns _ _ _ _ H) as [st Ep].
    rewrite (ParseArgs_config _ _ _ _ _ Ep H).
    cbn [tl] in Ep. rewrite parse_arguments_app in Ep by exact Hw.
    destruct (parse_arguments args (mkParseState v false false)) as [st1| | | |];
      try discriminate.
    cbn in Ep. inversion Ep. reflexivity.
Qed.

(** X16.  The plain call with a scene file and a cameras file switches the
    room strategy on and leaves the angle sampling at [RN_PI / 3]; with
    [-create_room_cameras] spelled out the same strategy runs with the
    angle sampling [RN_PI / 2]. *)
Theorem ParseArgs_default_strategy (program scene_file cameras_file : string) :
  starts_with_dash scene_file = false ->
  starts_with_dash cameras_file = false ->
  exists v1 v2,
    ParseArgs [program; scene_file; cameras_file] initial_variables = Returns (1, v1)
    /\ ParseArgs [program; scene_file; cameras_file; "-create_room_cameras"%string]
         initial_variables = Returns (1, v2)
    /\ input_scene_filename v1 = Some scene_file
    /\ output_cameras_filename v1 = Some cameras_file
    /\ (create_object_cameras v1, create_wall_cameras v1, create_room_cameras v1)
       = (false, false, true)
    /\ angle_sampling (config v1) = (RN_PI / 3)%Q
    /\ v2 = set_config (set_angle_sampling (RN_PI / 2) (config v1)) v1.
Proof.
  intros Hs Hc. unfold ParseArgs. cbn [tl parse_arguments].
  rewrite Hs. cbn. rewrite Hc. cbn.
  eexists. eexists. split; [reflexivity|]. split; [reflexivity|].
  repeat split.
Qed.

(** X17.  After whole arguments that parse, an argument with a dash that
    the program does not know ends it with [exit(1)], whatever follows;
    and a last argument that reads a number finds none and dereferences
    the null pointer that ends [argv]. *)
Theorem ParseArgs_bad_arguments (program : string) (args : list string) (last : string)
    (v : Variables) (st1 : ParseState) :
  whole args = true ->
  parse_arguments args (mkParseState v false false) = Returns st1 ->
  starts_with_dash last = true ->
  (option_action last = Invalid ->
   forall more, ParseArgs (program :: args ++ last :: more) v = Exits 1)
  /\ ((exists f, option_action last = IntValue f)
      \/ (exists f, option_action last = RealValue f) ->
      ParseArgs (program :: args ++ [last]) v = Crashes).
Proof.
  intros Hw Ep Hd. split.
  - intros Ha more. unfold ParseArgs. cbn [tl].
    rewrite parse_arguments_app by exact Hw. rewrite Ep.
    cbn [parse_arguments]. rewrite Hd, Ha. reflexivity.
  - intros Ha. unfold ParseArgs. cbn [tl].
    rewrite parse_arguments_app by exact Hw. rewrite Ep.
    cbn [parse_arguments]. rewrite Hd.
    destruct Ha as [[f Ha]|[f Ha]]; rewrite Ha; reflexivity.
Qed.

End CommandLineOrder.

(** [scn2cam scene out -mesa -glut -mesa] *)
Lemma ParseArgs_one_back_end_witness :
  exists v',
    @ParseArgs sample_library
      ["scn2cam"; "scene"; "out"; "-mesa"; "-glut"; "-mesa"]%string
      (@initial_variables sample_library) = Returns (1, v')
    /\ (glut (config v'), mesa (config v')) = (false, true)
    /\ glut (config v') && mesa (config v') = false.
Proof.
  destruct (@ParseArgs sample_library
              ["scn2cam"; "scene"; "out"; "-mesa"; "-glut"; "-mesa"]%string
              (@initial_variables sample_library)) as [[status v']| | | |] eqn:E;
    try (vm_compute in E; discriminate E).
  exists v'.
  assert (Hs : status = 1) by (vm_compute in E; inversion E; reflexivity).
  subst status. split; [reflexivity|]. split.
  - vm_compute in E. inversion E. reflexivity.
  - exact (@ParseArgs_one_back_end sample_library
             ["scn2cam"; "scene"; "out"; "-mesa"; "-glut"; "-mesa"]%string
             (@initial_variables sample_library) v' 1 eq_refl E).
Defined.

(** [scn2cam scene -input_cameras in]: no strategy, the cameras of the
    file. *)
Lemma ParseArgs_camera_source_witness :
  exists v',
    @ParseArgs sample_library ["scn2cam"; "scene"; "-input_cameras"; "in"]%string
      (@initial_variables sample_library) = Returns (1, v')
    /\ create_object_cameras v' || create_wall_cameras v' || create_room_cameras v'
       || negb (is_null (input_cameras_filename v')) = true.
Proof.
  destruct (@ParseArgs sample_library ["scn2cam"; "scene"; "-input_cameras"; "in"]%string
              (@initial_variables sample_library)) as [[status v']| | | |] eqn:E;
    try (vm_compute in E; discriminate E).
  exists v'.
  assert (Hs : status = 1) by (vm_compute in E; inversion E; reflexivity).
  subst status. split; [reflexivity|].
  exact (@ParseArgs_camera_source sample_library _ _ v' 1 E).
Defined.

(** [scn2cam scene out -angle_sampling 0.1 -create_room_cameras] *)
Lemma ParseArgs_angle_sampling_order_witness :
  exists v',
    @ParseArgs sample_library
      ("scn2cam" :: ["scene"; "out"]
         ++ ["-angle_sampling"; "0.1"; "-create_room_cameras"])%string
      (@initial_variables sample_library) = Returns (1, v')
    /\ angle_sampling (config v') = (@RN_PI sample_library / 2)%Q.
Proof.
  destruct (@ParseArgs sample_library
              ("scn2cam" :: ["scene"; "out"]
                 ++ ["-angle_sampling"; "0.1"; "-create_room_cameras"])%string
              (@initial_variables sample_library)) as [[status v']| | | |] eqn:E;
    try (vm_compute in E; discriminate E).
  exists v'.
  assert (Hs : status = 1) by (vm_compute in E; inversion E; reflexivity).
  subst status. split; [reflexivity|].
  exact (proj1 (@ParseArgs_angle_sampling_order sample_library "scn2cam"%string
                  ["scene"; "out"]%string "0.1"%string
                  (@initial_variables sample_library) v' 1 eq_refl) E).
Defined.

Lemma ParseArgs_default_strategy_witness :
  exists v1 v2,
    @ParseArgs sample_library ["scn2cam"; "scene"; "out"]%string
      (@initial_variables sample_library) = Returns (1, v1)
    /\ @ParseArgs sample_library ["scn2cam"; "scene"; "out"; "-create_room_cameras"]%string
         (@initial_variables sample_library) = Returns (1, v2)
    /\ input_scene_filename v1 = Some "scene"%string
    /\ output_cameras_filename v1 = Some "out"%string
    /\ (create_object_cameras v1, create_wall_cameras v1, create_room_cameras v1)
       = (false, false, true)
    /\ angle_sampling (config v1) = (@RN_PI sample_library / 3)%Q
    /\ v2 = set_config (set_angle_sampling (@RN_PI sample_library / 2) (config v1)) v1.
Proof.
  exact (@ParseArgs_default_strategy sample_library "scn2cam"%string "scene"%string
           "out"%string eq_refl eq_refl).
Defined.

(** [scn2cam scene out -bogus ...] and [scn2cam scene out -width]. *)
Lemma ParseArgs_bad_arguments_witness :
  (forall more,
      @ParseArgs sample_library ("scn2cam" :: ["scene"; "out"] ++ "-bogus" :: more)%string
        (@initial_variables sample_library) = Exits 1)
  /\ @ParseArgs sample_library ("scn2cam" :: ["scene"; "out"] ++ ["-width"])%string
       (@initial_variables sample_library) = Crashes.
Proof.
  destruct (@ParseArgs_bad_arguments sample_library "scn2cam"%string
              ["scene"; "out"]%string "-bogus"%string (@initial_variables sample_library)
              _ eq_refl eq_refl eq_refl) as [H1 _].
  destruct (@ParseArgs_bad_arguments sample_library "scn2cam"%string
              ["scene"; "out"]%string "-width"%string (@initial_variables sample_library)
              _ eq_refl eq_refl eq_refl) as [_ H2].
  split.
  - exact (H1 eq_refl).
  - apply H2. left. eexists. reflexivity.
Defined.
(** ** Reading cameras *)

Section ReadingFacts.

Context {AK : AffineKernel} {VK : VectorKernel} {SY : System}.

(** [fscanf] does not convert twelve numbers: fewer are left, or one of
    the next twelve is no number. *)
Lemma read_cameras_stops (cfg : Config) (scene : R3Scene) (tail : list (option Q)) :
  (length tail < 12)%nat \/ In None (firstn 12 tail) ->
  read_cameras cfg scene tail = [].
Proof.
  intros H.
  do 12 (destruct tail as [|[?|] tail]; [reflexivity| |reflexivity]).
  exfalso. destruct H as [H|H]; cbn in H; [lia|].
  repeat (destruct H as [H|H]; [discriminate H|]). exact H.
Qed.

Lemma read_cameras_records (cfg : Config) (scene : R3Scene)
    (records : list CameraRecord) (tail : list (option Q)) :
  read_cameras cfg scene (flat_map record_tokens records ++ tail)
  = map (record_camera cfg scene) records ++ read_cameras cfg scene tail.
Proof.
  induction records as [|r records IH]; [reflexivity|].
  destruct r. cbn [flat_map record_tokens app map read_cameras
                   r_vx r_vy r_vz r_tx r_ty r_tz r_ux r_uy r_uz r_xf r_yf r_value].
  rewrite IH. reflexivity.
Qed.

(** X18.  [ReadCameras] appends one camera for every complete record of
    twelve numbers at the head of the file, in the order of the file, and
    returns 1; what follows the last complete record, numbers included, is
    dropped without an error. *)
Theorem ReadCameras_records (cfg : Config) (scene : R3Scene) (filename : string)
    (cameras : list Camera) (records : list CameraRecord) (tail : list (option Q)) :
  CamerasFile filename = Some (flat_map record_tokens records ++ tail) ->
  (length tail < 12)%nat \/ In None (firstn 12 tail) ->
  ReadCameras cfg scene filename cameras
  = (1, cameras ++ map (record_camera cfg scene) records).
Proof.
  intros Hf Ht. unfold ReadCameras. rewrite Hf.
  rewrite read_cameras_records, (read_cameras_stops cfg scene tail Ht), app_nil_r.
  reflexivity.
Qed.

End ReadingFacts.

(** A file with one record and five more entries. *)
Lemma ReadCameras_records_witness :
  @ReadCameras unit_affine sample_vectors sample_system (small_image 0 (1 # 10)) house
    "in"%string one_camera
  = (1, one_camera
        ++ map (@record_camera unit_affine sample_vectors (small_image 0 (1 # 10)) house)
               [sample_record]).
Proof.
  apply (@ReadCameras_records unit_affine sample_vectors sample_system
           (small_image 0 (1 # 10)) house "in"%string one_camera [sample_record]
           [Some 1%Q; Some 2%Q; Some 3%Q; None; Some 5%Q]).
  - reflexivity.
  - left. cbn. lia.
Defined.

(** ** Writing the names of the cameras *)

Lemma count_newlines_app (a b : string) :
  count_newlines (a ++ b) = (count_newlines a + count_newlines b)%nat.
Proof.
  induction a as [|c a IH]; [reflexivity|].
  cbn [String.append count_newlines]. rewrite IH.
  destruct (Ascii.eqb c newline_char); reflexivity.
Qed.

Lemma count_newlines_none (s : string) : no_newline s = true -> count_newlines s = 0%nat.
Proof.
  induction s as [|c s IH]; [reflexivity|].
  cbn [no_newline count_newlines]. intros H. apply andb_prop in H. destruct H as [Hc Hs].
  apply negb_true_iff in Hc. rewrite Hc. exact (IH Hs).
Qed.

Lemma count_newlines_last (s : string) :
  last_char s = Some newline_char -> (1 <= count_newlines s)%nat.
Proof.
  induction s as [|c s IH]; [discriminate|].
  cbn [last_char count_newlines]. destruct s as [|c' s'].
  - intros H. inversion H. rewrite Ascii.eqb_refl. cbn. lia.
  - intros H. specialize (IH H). destruct (Ascii.eqb c newline_char); lia.
Qed.

Lemma camera_names_text_app (a b : list Camera) :
  camera_names_text (a ++ b) = (camera_names_text a ++ camera_names_text b)%string.
Proof.
  unfold camera_names_text, concat_lines.
  induction a as [|c a IH]; [reflexivity|].
  cbn [app map fold_right]. rewrite IH. symmetry. apply append_assoc.
Qed.

Lemma camera_names_blank_lines (cameras : list Camera) :
  Forall ends_with_newline cameras ->
  (2 * length cameras <= count_newlines (camera_names_text cameras))%nat.
Proof.
  induction 1 as [|c cameras [label [Hn Hl]] _ IH]; [cbn; lia|].
  change (c :: cameras) with ([c] ++ cameras).
  rewrite camera_names_text_app, count_newlines_app.
  unfold camera_names_text at 1, concat_lines, camera_name_line.
  cbn [map fold_right]. rewrite Hn.
  rewrite !count_newlines_app. pose proof (count_newlines_last label Hl).
  cbn [length app] in *. change (count_newlines newline) with 1%nat.
  change (count_newlines "") with 0%nat. lia.
Qed.

Section NamesFile.

Context {AK : AffineKernel} {RD : Renderer} {SQ : SceneQuery}
        {RZ : Rasterizer} {VS : ViewSampler}.
Variable cfg : Config.

(** X19.  The names file holds one line for each camera whose name has
    no newline, a camera without a name being written as a dash; the
    cameras the wall strategy adds take two lines or more each, their
    names ending in a newline of their own. *)
Theorem camera_names_lines (scene : R3Scene) (data : option P5DProject)
    (cameras : list Camera) (st : ScoreState) :
  (Forall (fun c => match name c with
                    | Some nm => no_newline nm = true
                    | None => True
                    end) cameras ->
   count_newlines (camera_names_text cameras) = length cameras)
  /\ exists walls,
       fst (CreateWallCameras cfg scene data cameras st) = cameras ++ walls
       /\ camera_names_text (cameras ++ walls)
          = (camera_names_text cameras ++ camera_names_text walls)%string
       /\ (2 * length walls <= count_newlines (camera_names_text walls))%nat.
Proof.
  split.
  - induction 1 as [|c l Hc _ IH]; [reflexivity|].
    change (c :: l) with ([c] ++ l).
    rewrite camera_names_text_app, count_newlines_app, IH.
    unfold camera_names_text, concat_lines, camera_name_line. cbn [map fold_right].
    rewrite !count_newlines_app.
    change (count_newlines newline) with 1%nat. change (count_newlines "") with 0%nat.
    destruct (name c) as [nm|].
    + rewrite (count_newlines_none nm Hc). cbn [length app]. lia.
    + cbn. lia.
  - destruct (CreateWallCameras_emits cfg scene data cameras st) as [walls [Hw Hall]].
    exists walls. split; [exact Hw|]. split; [apply camera_names_text_app|].
    apply camera_names_blank_lines.
    eapply Forall_impl; [|exact Hall].
    intros c [_ (project & floor & room & room_node & nd & k & wall
                 & _ & _ & _ & _ & _ & _ & _ & Hname)].
    exists (c_str (Name nd) ++ "_" ++ decimal k ++ newline)%string.
    split; [exact Hname|].
    rewrite <- !append_assoc. apply last_char_newline.
Qed.

End NamesFile.
(** A camera without a name. *)
Lemma camera_names_lines_witness :
  count_newlines (camera_names_text one_camera) = length one_camera.
Proof.
  apply (proj1 (@camera_names_lines unit_affine (picture_renderer (table_picture 50))
                  fixed_views (small_image 0 (1 # 10))
                  house (Some house_project) one_camera initial_state)).
  repeat constructor.
Defined.

(** ** Writing the files *)

Section WritingFacts.

Context {AK : AffineKernel} {VK : VectorKernel} {SY : System}.

(** The files [WriteCameras(void)] writes are those that were asked for,
    in the order of the writing, up to the first that does not open; it
    returns when all of them open and exits with -1 otherwise. *)
Lemma WriteCameras_void_names (v : Variables) (scene : R3Scene) (cameras : list Camera) :
  map fst (snd (WriteCameras_void v scene cameras)) = opened (requested v)
  /\ ((fst (WriteCameras_void v scene cameras) = Returns 1
       /\ opened (requested v) = requested v)
      \/ (fst (WriteCameras_void v scene cameras) = Exits (-1)
          /\ forallb fopen_w (requested v) = false)).
Proof.
  unfold WriteCameras_void, requested, write_file, WriteCameras, WriteCameraExtrinsics,
    WriteCameraIntrinsics, WriteCameraNames, WriteNodeNames, written.
  destruct (output_cameras_filename v) as [f1|];
    [destruct (fopen_w f1) eqn:E1|];
    (destruct (output_camera_extrinsics_filename v) as [f2|];
     [destruct (fopen_w f2) eqn:E2|]);
    (destruct (output_camera_intrinsics_filename v) as [f3|];
     [destruct (fopen_w f3) eqn:E3|]);
    (destruct (output_camera_names_filename v) as [f4|];
     [destruct (fopen_w f4) eqn:E4|]);
    (destruct (output_nodes_filename v) as [f5|];
     [destruct (fopen_w f5) eqn:E5|]);
    cbn; rewrite ?E1, ?E2, ?E3, ?E4, ?E5; cbn;
    (split; [reflexivity|]);
    first [left; split; reflexivity | right; split; reflexivity].
Qed.

End WritingFacts.

(** ** The program *)

Section ProgramFacts.

Context {AK : AffineKernel} {RD : Renderer} {SQ : SceneQuery}
        {RZ : Rasterizer} {VS : ViewSampler} {SK : SplineKernel}
        {VK : VectorKernel} {SY : System} {CL : CLibrary}.

Lemma CreateAndWriteCameras_files (v : Variables) (scene : R3Scene)
    (data : option P5DProject) (cameras : list Camera) :
  files_asked_for v (CreateAndWriteCameras v scene data cameras).
Proof.
  unfold CreateAndWriteCameras, files_asked_for.
  destruct (create_cameras_of v scene data cameras initial_state) as [[cams st]| |];
    try (cbn; split; [left; reflexivity | discriminate]).
  destruct (if interpolate_camera_trajectory v then _ else _) as [[status cams']| |];
    try (cbn; split; [left; reflexivity | discriminate]).
  destruct (status =? 0); [cbn; split; [left; reflexivity | discriminate]|].
  destruct (WriteCameras_void_names v scene cams') as [Hn Hr].
  destruct (WriteCameras_void v scene cams') as [run files]. cbn [fst snd] in *.
  destruct Hr as [[-> Ho]|[-> _]]; cbn [fst snd].
  - split; [right; exact Hn | intros _; rewrite Hn; exact Ho].
  - split; [right; exact Hn | discriminate].
Qed.

(** X20.  The program writes no file that was not asked for: the files of
    a run are none at all, or the output files of the command line in the
    fixed order cameras, extrinsics, intrinsics, names, nodes up to the
    first that cannot be opened; and when the run ends with [exit(0)],
    all of them were written. *)
Theorem main_writes_what_was_asked (argv : list string) :
  snd (main argv) = []
  \/ exists status v,
       ParseArgs argv initial_variables = Returns (status, v)
       /\ map fst (snd (main argv)) = opened (requested v)
       /\ (fst (main argv) = Exits 0 -> map fst (snd (main argv)) = requested v).
Proof.
  unfold main.
  destruct (ParseArgs argv initial_variables) as [[status v]| | | |];
    try (left; reflexivity).
  destruct (status =? 0); [left; reflexivity|].
  destruct (input_scene_filename v) as [scene_file|]; [|left; reflexivity].
  destruct (SceneReadFile scene_file) as [[scene data]|]; [|left; reflexivity].
  cbv zeta.
  set (read := match input_cameras_filename v with
               | Some cameras_file => ReadCameras (config v) scene cameras_file []
               | None => (1, [])
               end).
  destruct (fst read =? 0); [left; reflexivity|].
  set (cameras := snd read).
  assert (H : files_asked_for v
                (if mesa (config v)
                 then CreateAndWriteCamerasWithMesa v scene data cameras
                 else if glut (config v)
                      then CreateAndWriteCamerasWithGlut v scene data cameras
                      else CreateAndWriteCameras v scene data cameras)).
  { unfold CreateAndWriteCamerasWithMesa, CreateAndWriteCamerasWithGlut.
    destruct (mesa (config v)); [|destruct (glut (config v))];
      destruct USE_MESA; try destruct (OSMesaContext (config v));
      try apply CreateAndWriteCameras_files;
      (split; [left; reflexivity | discriminate]). }
  destruct (if mesa (config v) then _ else _) as [run files].
  destruct H as [Hf He]. cbn [fst snd] in *.
  destruct Hf as [->|Hf].
  - left. destruct run; reflexivity.
  - right. exists status, v. split; [reflexivity|].
    destruct run; cbn [fst snd]; (split; [exact Hf|]); try discriminate.
    exact He.
Qed.

(** X21.  The rendering switch must fit the build: [-mesa] in a build
    without mesa and the default [glut] in a build with mesa end in
    [RNAbort] after the scene and the cameras were read; and when the mesa
    context cannot be set up, [main] returns 0, the status of success,
    without a file written. *)
Theorem main_back_end (argv : list string) (v : Variables) (scene_file : string)
    (scene : R3Scene) (data : option P5DProject) :
  ParseArgs argv initial_variables = Returns (1, v) ->
  input_scene_filename v = Some scene_file ->
  SceneReadFile scene_file = Some (scene, data) ->
  match input_cameras_filename v with
  | Some cameras_file => CamerasFile cameras_file <> None
  | None => True
  end ->
  (mesa (config v) = true -> USE_MESA = false -> main argv = (Aborts, []))
  /\ (mesa (config v) = false -> glut (config v) = true -> USE_MESA = true ->
      main argv = (Aborts, []))
  /\ (mesa (config v) = true -> USE_MESA = true -> OSMesaContext (config v) = false ->
      main argv = (Returns 0, [])).
Proof.
  intros Hp Hs Hr Hc. unfold main. rewrite Hp. cbn [Z.eqb]. rewrite Hs, Hr. cbv zeta.
  assert (Hread : (fst (match input_cameras_filename v with
                        | Some cameras_file =>
                            ReadCameras (config v) scene cameras_file []
                        | None => (1, [])
                        end) =? 0) = false).
  { destruct (input_cameras_filename v) as [cameras_file|]; [|reflexivity].
    unfold ReadCameras. destruct (CamerasFile cameras_file); [reflexivity|].
    contradiction. }
  rewrite Hread.
  unfold CreateAndWriteCamerasWithMesa, CreateAndWriteCamerasWithGlut.
  repeat split.
  - intros -> ->. reflexivity.
  - intros -> -> ->. reflexivity.
  - intros -> -> ->. reflexivity.
Qed.

(** X22.  Whatever strategies are switched on together, the cameras that
    were there before, those of the cameras file, stay at the head of the
    list as they are, and every camera after them has a positive score of
    at least [min_score]. *)
Theorem create_cameras_of_emits (v : Variables) (scene : R3Scene)
    (data : option P5DProject) (cameras cameras' : list Camera) (st st' : ScoreState) :
  create_cameras_of v scene data cameras st = Done (cameras', st') ->
  emits (accepted (config v)) cameras cameras'.
Proof.
  unfold create_cameras_of. intros H.
  assert (H1 : emits (accepted (config v)) cameras
                 (fst (if create_object_cameras v
                       then CreateObjectCameras (config v) scene cameras st
                       else (cameras, st)))).
  { destruct (create_object_cameras v);
      [apply CreateObjectCameras_emits | apply emits_refl]. }
  destruct (if create_object_cameras v then _ else _) as [cameras1 st1].
  cbn [fst] in H1.
  assert (H2 : emits (accepted (config v)) cameras1
                 (fst (if create_wall_cameras v
                       then CreateWallCameras (config v) scene data cameras1 st1
                       else (cameras1, st1)))).
  { destruct (create_wall_cameras v); [|apply emits_refl].
    eapply emits_impl; [|apply CreateWallCameras_emits]. intros c [Hc _]. exact Hc. }
  destruct (if create_wall_cameras v then _ else _) as [cameras2 st2].
  cbn [fst] in H2.
  eapply emits_trans; [exact H1|]. eapply emits_trans; [exact H2|].
  destruct (create_room_cameras v).
  - eapply emits_impl; [|exact (CreateRoomCameras_emits (config v) scene _ _ _ _ H)].
    intros c [Hc _]. exact Hc.
  - inversion H; subst. apply emits_refl.
Qed.

(** X23.  With [-interpolate_camera_trajectory] the program reads the
    head of the camera list without a test: when no camera was read or
    created it crashes before a file is written.  With cameras and a
    positive step it writes the cameras of the trajectory, all of score 0;
    with a step that is not positive it does not end. *)
Theorem CreateAndWriteCameras_trajectory (v : Variables) (scene : R3Scene)
    (data : option P5DProject) (cameras created : list Camera) (st : ScoreState) :
  interpolate_camera_trajectory v = true ->
  create_cameras_of v scene data cameras initial_state = Done (created, st) ->
  (created = [] -> CreateAndWriteCameras v scene data cameras = (Crashes, []))
  /\ (created <> [] -> (0 < interpolation_step (config v))%Q ->
      exists trajectory,
        InterpolateCameraTrajectory (interpolation_step (config v)) created
        = Done (1, trajectory)
        /\ Forall (fun c => Value (base c) = 0%R) trajectory
        /\ CreateAndWriteCameras v scene data cameras
           = match WriteCameras_void v scene trajectory with
             | (Returns _, files) => (Exits 0, files)
             | (run, files) => (run, files)
             end)
  /\ (created <> [] -> (interpolation_step (config v) <= 0)%Q ->
      (StartParameter (map (fun c => Origin (base c)) created)
                      (trajectory_parameters created)
       <= EndParameter (map (fun c => Origin (base c)) created)
                       (trajectory_parameters created))%Q ->
      CreateAndWriteCameras v scene data cameras = (Hangs, [])).
Proof.
  intros Hi Hc. unfold CreateAndWriteCameras. rewrite Hc, Hi.
  split; [intros ->; reflexivity|]. split.
  - intros Hne Hstep. destruct created as [|head rest]; [contradiction|].
    unfold InterpolateCameraTrajectory. cbv zeta.
    destruct (for_upto _ _ (interpolation_step (config v))) as [us|] eqn:E.
    + eexists. split; [reflexivity|]. split; [|reflexivity].
      apply Forall_forall. intros c Hin. apply in_map_iff in Hin.
      destruct Hin as (u & <- & _). reflexivity.
    + apply for_upto_diverges in E. destruct E as [_ E].
      exfalso. apply (Qlt_irrefl 0). eapply Qlt_le_trans; eassumption.
  - intros Hne Hstep Hle. destruct created as [|head rest]; [contradiction|].
    unfold InterpolateCameraTrajectory. cbv zeta.
    rewrite (proj2 (for_upto_diverges _ _ _) (conj Hle Hstep)). reflexivity.
Qed.

End ProgramFacts.
(** [scn2cam scene out -mesa] in a build without mesa. *)
Lemma main_back_end_witness :
  @main unit_affine (picture_renderer (table_picture 50)) clear_view floor_raster
    fixed_views held_spline sample_vectors sample_system sample_library
    ["scn2cam"; "scene"; "out"; "-mesa"]%string
  = (Aborts, []).
Proof.
  assert (E : exists v,
             @ParseArgs sample_library ["scn2cam"; "scene"; "out"; "-mesa"]%string
               (@initial_variables sample_library) = Returns (1, v)
             /\ input_scene_filename v = Some "scene"%string
             /\ input_cameras_filename v = None
             /\ mesa (config v) = true).
  { eexists. split; [lazy; reflexivity|]. repeat split. }
  destruct E as (v & Hp & Hs & Hc & Hm).
  destruct (@main_back_end unit_affine (picture_renderer (table_picture 50)) clear_view
              floor_raster fixed_views held_spline sample_vectors sample_system
              sample_library ["scn2cam"; "scene"; "out"; "-mesa"]%string v
              "scene"%string house (Some house_project) Hp Hs eq_refl) as [H _].
  - rewrite Hc. exact I.
  - exact (H Hm eq_refl).
Defined.

(** The wall strategy alone, after one camera read from a file. *)
Lemma create_cameras_of_emits_witness :
  emits (accepted (small_image 0 (1 # 10))) one_camera
    (fst (@CreateWallCameras unit_affine (picture_renderer (table_picture 50)) fixed_views
            (small_image 0 (1 # 10)) house (Some house_project) one_camera
            initial_state)).
Proof.
  apply (@create_cameras_of_emits unit_affine (picture_renderer (table_picture 50))
           clear_view floor_raster fixed_views
           (set_create_wall_cameras true
              (set_config (small_image 0 (1 # 10)) (@initial_variables sample_library)))
           house (Some house_project) one_camera _ initial_state
           (snd (@CreateWallCameras unit_affine (picture_renderer (table_picture 50))
                   fixed_views (small_image 0 (1 # 10)) house (Some house_project)
                   one_camera initial_state))).
  cbv [create_cameras_of initial_variables set_create_wall_cameras set_config
       create_object_cameras create_wall_cameras create_room_cameras config].
  destruct (CreateWallCameras _ _ _ _ _) as [cameras st]. reflexivity.
Defined.

(** No strategy and no camera: the trajectory of nothing. *)
Lemma CreateAndWriteCameras_trajectory_witness :
  @CreateAndWriteCameras unit_affine (picture_renderer (table_picture 50)) clear_view
    floor_raster fixed_views held_spline sample_system
    (set_interpolate_camera_trajectory true (@initial_variables sample_library))
    house (Some house_project) []
  = (Crashes, []).
Proof.
  destruct (@CreateAndWriteCameras_trajectory unit_affine
              (picture_renderer (table_picture 50)) clear_view floor_raster fixed_views
              held_spline sample_system
              (set_interpolate_camera_trajectory true (@initial_variables sample_library))
              house (Some house_project) [] [] initial_state eq_refl eq_refl) as [H _].
  exact (H eq_refl).
Defined.

(** [scn2cam scene locked -output_camera_names names]: the cameras file
    does not open, the program exits with -1 and the names are not
    written. *)
Example main_stops_at_locked_file :
  exists v,
    @ParseArgs sample_library
      ["scn2cam"; "scene"; "locked"; "-output_camera_names"; "names";
       "-create_object_cameras"]%string
      (@initial_variables sample_library) = Returns (1, v)
    /\ requested v = ["locked"; "names"]%string
    /\ @opened unit_affine sample_system (requested v) = [].
Proof.
  eexists. split; [lazy; reflexivity|]. split; reflexivity.
Qed.
(** ** The trajectory *)

Section TrajectorySamples.

Context {AK : AffineKernel} {SQ : SceneQuery} {SK : SplineKernel}.

Lemma later_parameters_ordered (previous_parameter : Q) (previous : Camera)
    (rest : list Camera) :
  (forall p q, (0 <= R3Distance p q)%Q) ->
  (forall v w, (0 <= R3InteriorAngle v w)%Q) ->
  length (later_parameters previous_parameter previous rest) = length rest
  /\ forall i x y,
       nth_error (previous_parameter :: later_parameters previous_parameter previous rest) i
       = Some x ->
       nth_error (later_parameters previous_parameter previous rest) i = Some y ->
       (x <= y)%Q.
Proof.
  intros Hd Ha. revert previous_parameter previous.
  induction rest as [|camera rest IH]; intros pp previous.
  - split; [reflexivity|]. intros i x y _ Hy. destruct i; discriminate.
  - cbn [later_parameters]. destruct (IH (pp + R3Distance (Origin (base camera))
                                                (Origin (base previous))
                                          + R3InteriorAngle (Towards (base camera))
                                                (Towards (base previous)))%Q camera)
      as [Hl Ho].
    split; [cbn [length]; rewrite Hl; reflexivity|].
    intros i x y Hx Hy. destruct i as [|i].
    + cbn in Hx, Hy. inversion Hx; inversion Hy; subst.
      pose proof (Hd (Origin (base camera)) (Origin (base previous))).
      pose proof (Ha (Towards (base camera)) (Towards (base previous))). lra.
    + cbn [nth_error] in Hx, Hy. exact (Ho i x y Hx Hy).
Qed.

(** X24.  The parameters of the keypoints start at 0, there is one for
    each camera, and they never decrease along the list, distances and
    angles being non-negative. *)
Theorem trajectory_parameters_ordered (cameras : list Camera) :
  (forall p q, (0 <= R3Distance p q)%Q) ->
  (forall v w, (0 <= R3InteriorAngle v w)%Q) ->
  length (trajectory_parameters cameras) = length cameras
  /\ (cameras <> [] -> hd_error (trajectory_parameters cameras) = Some 0%Q)
  /\ forall i x y,
       nth_error (trajectory_parameters cameras) i = Some x ->
       nth_error (trajectory_parameters cameras) (S i) = Some y ->
       (x <= y)%Q.
Proof.
  intros Hd Ha. destruct cameras as [|camera rest].
  - split; [reflexivity|]. split; [congruence|]. intros i x y H. destruct i; discriminate.
  - cbn [trajectory_parameters].
    destruct (later_parameters_ordered 0 camera rest Hd Ha) as [Hl Ho].
    split; [cbn [length]; rewrite Hl; reflexivity|]. split; [reflexivity|].
    intros i x y Hx Hy. cbn [nth_error] in Hy. exact (Ho i x y Hx Hy).
Qed.

(** X25.  When the interpolation returns, it returns 1, and every camera
    it leaves is a sample of the three splines at one parameter [u]: its
    viewpoint, towards and up vectors are the positions of the splines at
    [u], its name is [T] followed by [u], its fields of view and clipping
    distances are those of the first camera that went in, whatever the
    other cameras had, and its score is 0.  No camera is left exactly when
    the end parameter lies below the start parameter, and the first camera
    that is left is the sample at the start parameter. *)
Theorem InterpolateCameraTrajectory_samples (trajectory_step : Q)
    (cameras out : list Camera) (status : Z) :
  InterpolateCameraTrajectory trajectory_step cameras = Done (status, out) ->
  let parameters := trajectory_parameters cameras in
  let start := StartParameter (map (fun c => Origin (base c)) cameras) parameters in
  let stop := EndParameter (map (fun c => Origin (base c)) cameras) parameters in
  status = 1
  /\ (exists head,
        hd_error cameras = Some head
        /\ Forall (fun c =>
                     (exists u,
                        name c = Some ("T" ++ format_f u)%string
                        /\ Origin (base c)
                           = PointPosition (map (fun c => Origin (base c)) cameras)
                                           parameters u
                        /\ Towards (base c)
                           = PointPosition (map (fun c => Towards (base c)) cameras)
                                           parameters u
                        /\ Up (base c)
                           = PointPosition (map (fun c => Up (base c)) cameras)
                                           parameters u)
                     /\ XFOV (base c) = XFOV (base head)
                     /\ YFOV (base c) = YFOV (base head)
                     /\ Near (base c) = Near (base head)
                     /\ Far (base c) = Far (base head)
                     /\ Value (base c) = 0%R) out)
  /\ (out = [] <-> (stop < start)%Q)
  /\ (forall c, hd_error out = Some c -> name c = Some ("T" ++ format_f start)%string).
Proof.
  unfold InterpolateCameraTrajectory. destruct cameras as [|head rest]; [discriminate|].
  cbv zeta.
  destruct (for_upto _ _ trajectory_step) as [us|] eqn:E; [|discriminate].
  intros H. inversion H; subst. clear H.
  destruct (for_upto_sound _ _ _ _ E) as [Hus Hend].
  split; [reflexivity|]. split; [|split].
  - exists head. split; [reflexivity|].
    apply Forall_forall. intros c Hc. apply in_map_iff in Hc.
    destruct Hc as [u [Hu _]]. subst c. cbn.
    split; [exists u|]; repeat split; reflexivity.
  - split.
    + intros Hnil. destruct us as [|u us]; [|discriminate Hnil].
      cbn [length] in Hend. change (inject_Z (Z.of_nat 0)) with 0%Q in Hend. lra.
    + intros Hlt. destruct us as [|u us]; [reflexivity|]. exfalso.
      destruct (Hus 0%nat u eq_refl) as [Heq Hle].
      change (inject_Z (Z.of_nat 0)) with 0%Q in Heq. lra.
  - intros c Hc. unfold for_upto in E.
    destruct (Qlt_bool _ _); [inversion E; subst us; discriminate Hc|].
    destruct (Qlt_bool 0 trajectory_step); [|discriminate E].
    inversion E as [Hus']. clear E. rewrite <- Hus' in Hc.
    destruct (Z.to_nat _) as [|n]; cbn [Qiter map hd_error] in Hc; [discriminate Hc|].
    inversion Hc. reflexivity.
Qed.

End TrajectorySamples.

(** Two cameras one unit of distance apart, resampled with the step
    1/2. *)
Lemma trajectory_parameters_ordered_witness :
  length (@trajectory_parameters unit_affine clear_view held_spline
            (one_camera ++ one_camera)) = length (one_camera ++ one_camera)
  /\ (one_camera ++ one_camera <> [] ->
      hd_error (@trajectory_parameters unit_affine clear_view held_spline
                  (one_camera ++ one_camera)) = Some 0%Q)
  /\ forall i x y,
       nth_error (@trajectory_parameters unit_affine clear_view held_spline
                    (one_camera ++ one_camera)) i = Some x ->
       nth_error (@trajectory_parameters unit_affine clear_view held_spline
                    (one_camera ++ one_camera)) (S i) = Some y ->
       (x <= y)%Q.
Proof.
  apply (@trajectory_parameters_ordered unit_affine clear_view held_spline
           (one_camera ++ one_camera)).
  - intros p q. cbn. discriminate.
  - intros v w. cbn. discriminate.
Defined.

Lemma InterpolateCameraTrajectory_samples_witness :
  exists out,
    @InterpolateCameraTrajectory unit_affine clear_view held_spline (1 # 2)
      (one_camera ++ one_camera) = Done (1, out)
    /\ (exists head,
          hd_error (one_camera ++ one_camera) = Some head
          /\ Forall (fun c =>
                       (exists u,
                          name c = Some ("T" ++ @format_f held_spline u)%string
                          /\ Origin (base c)
                             = @PointPosition held_spline
                                 (map (fun c => Origin (base c)) (one_camera ++ one_camera))
                                 (@trajectory_parameters unit_affine clear_view held_spline
                                    (one_camera ++ one_camera)) u
                          /\ Towards (base c)
                             = @PointPosition held_spline
                                 (map (fun c => Towards (base c)) (one_camera ++ one_camera))
                                 (@trajectory_parameters unit_affine clear_view held_spline
                                    (one_camera ++ one_camera)) u
                          /\ Up (base c)
                             = @PointPosition held_spline
                                 (map (fun c => Up (base c)) (one_camera ++ one_camera))
                                 (@trajectory_parameters unit_affine clear_view held_spline
                                    (one_camera ++ one_camera)) u)
                       /\ XFOV (base c) = XFOV (base head)
                       /\ YFOV (base c) = YFOV (base head)
                       /\ Near (base c) = Near (base head)
                       /\ Far (base c) = Far (base head)
                       /\ Value (base c) = 0%R) out)
    /\ out <> [].
Proof.
  destruct (@InterpolateCameraTrajectory unit_affine clear_view held_spline (1 # 2)
              (one_camera ++ one_camera)) as [[status out]| |] eqn:E;
    [|discriminate E|discriminate E].
  pose proof (@InterpolateCameraTrajectory_samples unit_affine clear_view held_spline
                (1 # 2) (one_camera ++ one_camera) out status E) as H.
  cbv zeta in H. destruct H as (Hs & Hk & Hempty & _). subst status.
  exists out. split; [reflexivity|]. split; [exact Hk|].
  intros Hnil. apply Hempty in Hnil. revert Hnil. cbn. discriminate.
Defined.
(** ** Room cameras: one for a room and a direction at most *)

Section RoomBucketFacts.

Context {AK : AffineKernel} {RD : Renderer} {SQ : SceneQuery}
        {RZ : Rasterizer} {VS : ViewSampler}.
Variable cfg : Config.

Lemma filter_map_pair (keep : NodeId * Z -> bool) (i : NodeId) (l : list Z) :
  filter keep (map (pair i) l) = map (pair i) (filter (fun j => keep (i, j)) l).
Proof.
  induction l as [|j l IH]; [reflexivity|].
  cbn [map filter]. destruct (keep (i, j)); cbn [map]; rewrite IH; reflexivity.
Qed.

Lemma room_direction_cameras_buckets (scene : R3Scene) (room_node : NodeId)
    (room_name : option string) (viewpoint_mask : R2Grid) (room_bbox : R3Box) (z : Q)
    (js : list Z) :
  NoDup js ->
  forall (cameras : list Camera) (r : nat) (cameras' : list Camera) (r' : nat),
    room_direction_cameras cfg scene room_node room_name viewpoint_mask room_bbox z js
      cameras r = Some (cameras', r') ->
    exists (keep : Z -> bool) (emitted : list Camera),
      cameras' = cameras ++ emitted
      /\ map name emitted
         = map (fun j => Some (room_camera_name room_name j)) (filter keep js).
Proof.
  induction 1 as [|j js Hnj Hnd IH]; intros cameras r cameras' r' H.
  - cbn in H. inversion H; subst. exists (fun _ => false), [].
    rewrite app_nil_r. split; reflexivity.
  - cbn [room_direction_cameras] in H.
    destruct (best_room_camera cfg scene room_node viewpoint_mask room_bbox j z r)
      as [[best_camera r1]|]; [|discriminate].
    destruct (insert_best_names best_camera (Some (room_camera_name room_name j)) cameras)
      as [kept Hk].
    rewrite Hk in H. destruct (IH _ _ _ _ H) as (keep & emitted & Hc & Hn).
    exists (fun j' => if j' =? j then kept else keep j'),
           ((if kept then [mkCamera best_camera (Some (room_camera_name room_name j))]
             else []) ++ emitted).
    split; [rewrite Hc, app_assoc; reflexivity|].
    cbn [filter]. rewrite Z.eqb_refl.
    assert (Hext : filter (fun j' => if j' =? j then kept else keep j') js
                   = filter keep js).
    { apply filter_ext_in. intros j' Hj'. cbv beta.
      destruct (Z.eqb_spec j' j) as [->|]; [contradiction | reflexivity]. }
    rewrite Hext. destruct kept; cbn [app map name]; rewrite Hn; reflexivity.
Qed.

Lemma room_cameras_buckets (scene : R3Scene) (i : NodeId) (cameras : list Camera)
    (st : ScoreState) (cameras' : list Camera) (st' : ScoreState) :
  room_cameras cfg scene i cameras st = Done (cameras', st') ->
  exists (keep : Z -> bool) (emitted : list Camera),
    cameras' = cameras ++ emitted
    /\ map name emitted
       = map (bucket_label scene)
             (map (pair i)
                  (filter keep
                     (if name_has_prefix "Room#" (node_name scene i)
                      then indices (nangles_around cfg) else []))).
Proof.
  assert (Hnone : forall cams : list Camera,
             exists (keep : Z -> bool) (emitted : list Camera),
               cams = cams ++ emitted
               /\ map name emitted
                  = map (bucket_label scene)
                        (map (pair i)
                             (filter keep
                                (if name_has_prefix "Room#" (node_name scene i)
                                 then indices (nangles_around cfg) else [])))).
  { intros cams. exists (fun _ => false), []. rewrite app_nil_r. split; [reflexivity|].
    destruct (name_has_prefix "Room#" (node_name scene i)); [|reflexivity].
    induction (indices (nangles_around cfg)) as [|j l IHl]; [reflexivity | exact IHl]. }
  unfold room_cameras.
  destruct (Node scene i) as [room|] eqn:En.
  2: { intros H. inversion H; subst. apply Hnone. }
  destruct (name_has_prefix "Room#" (Name room)) eqn:Ep; cbn [negb].
  2: { intros H. inversion H; subst. apply Hnone. }
  cbv zeta.
  destruct (Qlt_bool _ _).
  { intros H. inversion H; subst. apply Hnone. }
  destruct (ComputeViewpointMask cfg scene (Some i)) as [mask| |].
  - destruct (room_direction_cameras _ _ _ _ _ _ _ _ _ _) as [[cams r]|] eqn:Ed;
      [|discriminate].
    intros H. inversion H; subst.
    destruct (room_direction_cameras_buckets _ _ _ _ _ _ _ (indices_NoDup _)
                _ _ _ _ Ed) as (keep & emitted & Hc & Hn).
    exists keep, emitted. split; [exact Hc|]. rewrite Hn.
    assert (Hroom : name_has_prefix "Room#" (node_name scene i) = true)
      by (unfold node_name; rewrite En; exact Ep).
    rewrite Hroom. rewrite !map_map. apply map_ext. intros j.
    unfold bucket_label, node_name. cbn [fst snd]. rewrite En. reflexivity.
  - intros H. inversion H; subst. apply Hnone.
  - discriminate.
Qed.

Lemma rooms_cameras_buckets (scene : R3Scene) (nodes : list NodeId) :
  NoDup nodes ->
  forall (cameras : list Camera) (st : ScoreState) (cameras' : list Camera)
         (st' : ScoreState),
    rooms_cameras cfg scene nodes cameras st = Done (cameras', st') ->
    exists (keep : NodeId * Z -> bool) (emitted : list Camera),
      cameras' = cameras ++ emitted
      /\ map name emitted
         = map (bucket_label scene)
               (filter keep
                  (flat_map (fun i => map (pair i) (indices (nangles_around cfg)))
                     (filter (fun i => name_has_prefix "Room#" (node_name scene i))
                             nodes))).
Proof.
  induction 1 as [|i nodes Hni Hnd IH]; intros cameras st cameras' st' H.
  - cbn in H. inversion H; subst. exists (fun _ => false), [].
    rewrite app_nil_r. split; reflexivity.
  - cbn [rooms_cameras] in H.
    destruct (room_cameras cfg scene i cameras st) as [[cams1 st1]| |] eqn:Er;
      try discriminate.
    destruct (room_cameras_buckets scene i cameras st cams1 st1 Er)
      as (keep1 & emitted1 & Hc1 & Hn1).
    destruct (IH _ _ _ _ H) as (keep & emitted & Hc & Hn).
    exists (fun b => if fst b =? i then keep1 (snd b) else keep b), (emitted1 ++ emitted).
    split; [rewrite Hc, Hc1, app_assoc; reflexivity|].
    rewrite map_app, Hn1, Hn.
    assert (Hrest : forall l,
               (forall b, In b l -> In (fst b) nodes) ->
               filter (fun b => if fst b =? i then keep1 (snd b) else keep b) l
               = filter keep l).
    { intros l Hl. apply filter_ext_in. intros [b1 b2] Hb. cbn [fst snd].
      destruct (Z.eqb_spec b1 i) as [->|]; [|reflexivity].
      exfalso. apply Hni. exact (Hl (i, b2) Hb). }
    assert (Hin : forall b,
               In b (flat_map (fun i0 => map (pair i0) (indices (nangles_around cfg)))
                       (filter (fun i0 => name_has_prefix "Room#" (node_name scene i0))
                               nodes)) ->
               In (fst b) nodes).
    { intros b Hb. apply in_flat_map in Hb. destruct Hb as (i0 & Hi0 & Hb).
      apply in_map_iff in Hb. destruct Hb as (j & <- & _).
      apply filter_In in Hi0. exact (proj1 Hi0). }
    cbn [filter].
    destruct (name_has_prefix "Room#" (node_name scene i)).
    + cbn [flat_map]. rewrite filter_app, map_app. f_equal.
      * f_equal. symmetry. etransitivity; [apply filter_map_pair|].
        cbn [fst snd]. rewrite Z.eqb_refl. reflexivity.
      * f_equal. symmetry. apply Hrest. exact Hin.
    + cbn [filter map app]. f_equal. symmetry. apply Hrest. exact Hin.
Qed.

(** X26.  When [CreateRoomCameras] returns, it has kept the cameras it
    found and appended at most one camera for each pair of a room node and
    a direction, in the order of the loops, each named after its room and
    its direction. *)
Theorem CreateRoomCameras_one_per_bucket (scene : R3Scene) (cameras cameras' : list Camera)
    (st st' : ScoreState) :
  CreateRoomCameras cfg scene cameras st = Done (cameras', st') ->
  exists (keep : NodeId * Z -> bool) (emitted : list Camera),
    cameras' = cameras ++ emitted
    /\ map name emitted = map (bucket_label scene) (filter keep (room_buckets cfg scene))
    /\ (length emitted <= length (room_buckets cfg scene))%nat.
Proof.
  intros H. unfold CreateRoomCameras in H.
  destruct (rooms_cameras_buckets scene _ (indices_NoDup _) _ _ _ _ H)
    as (keep & emitted & Hc & Hn).
  exists keep, emitted. split; [exact Hc|]. split; [exact Hn|].
  rewrite <- (length_map name emitted), Hn, length_map.
  apply filter_length_le.
Qed.

End RoomBucketFacts.
Lemma house_rooms_have_parents :
  forall i room,
    @Node unit_affine house i = Some room ->
    name_has_prefix "Room#" (Name room) = true -> Parent room <> None.
Proof.
  intros i room En Hp. unfold Node in En.
  destruct (i <? 0); [discriminate|].
  apply nth_error_enumerate in En. cbn in En.
  repeat (destruct En as [En|En];
          [inversion En; subst; first [discriminate Hp | discriminate]|]).
  contradiction.
Qed.

(** The room strategy in the small house. *)
Lemma CreateRoomCameras_one_per_bucket_witness :
  exists cameras' st' (keep : NodeId * Z -> bool) (emitted : list Camera),
    @CreateRoomCameras unit_affine (picture_renderer (table_picture 50)) clear_view
      floor_raster fixed_views (small_image 0 (1 # 10)) house [] initial_state
    = Done (cameras', st')
    /\ cameras' = [] ++ emitted
    /\ map name emitted
       = map (@bucket_label unit_affine house)
             (filter keep (@room_buckets unit_affine fixed_views (small_image 0 (1 # 10))
                             house))
    /\ (length emitted
        <= length (@room_buckets unit_affine fixed_views (small_image 0 (1 # 10)) house))%nat.
Proof.
  destruct (@CreateRoomCameras_returns unit_affine (picture_renderer (table_picture 50))
              clear_view floor_raster fixed_views (small_image 0 (1 # 10)) house []
              initial_state eq_refl house_rooms_have_parents) as [[cameras' st'] E].
  destruct (@CreateRoomCameras_one_per_bucket unit_affine
              (picture_renderer (table_picture 50)) clear_view floor_raster fixed_views
              (small_image 0 (1 # 10)) house [] cameras' initial_state st' E)
    as (keep & emitted & H).
  exists cameras', st', keep, emitted. split; [exact E | exact H].
Defined.
(** ** Rasterising a subtree into a grid *)

Section RasterizingFacts.

Context {AK : AffineKernel} {GK : GridKernel}.

Hypothesis world_box_kept :
  forall grid a b c value,
    WorldBox (RasterizeWorldTriangle grid a b c value) = WorldBox grid.

Lemma rasterize_triangle_from (grid : R2Grid) (transformation : R3Affine)
    (world_bbox : R3Box) (node : NodeId) (acc : R2Grid * list XYGrid.Call)
    (triangle : R3Triangle) :
  XYGrid.rasterized_from grid acc ->
  XYGrid.rasterized_from grid
    (XYGrid.rasterize_triangle transformation world_bbox node acc triangle).
Proof.
  intros H. unfold XYGrid.rasterize_triangle. destruct acc as [g calls].
  destruct (negb (R3Intersects _ _)); [exact H|]. cbv zeta.
  destruct (R2Contains (WorldBox g) _) eqn:E0; cbn [negb]; [|exact H].
  destruct (R2Contains (WorldBox g) (mkR2Point (px (PointTransform (V1 triangle) _)) _))
    eqn:E1; cbn [negb]; [|exact H].
  destruct (R2Contains (WorldBox g) (mkR2Point (px (PointTransform (V2 triangle) _)) _))
    eqn:E2; cbn [negb]; [|exact H].
  destruct H as (Hb & Hin & Hg). cbn [fst snd] in *.
  split; [cbn [fst]; rewrite world_box_kept; exact Hb|]. split.
  - cbn [snd]. apply Forall_app. split; [exact Hin|].
    constructor; [|constructor]. rewrite <- Hb.
    split; [exact E0|]. split; [exact E1 | exact E2].
  - cbn [fst snd]. unfold XYGrid.replay. rewrite fold_left_app. cbn [fold_left].
    fold (XYGrid.replay calls grid). rewrite <- Hg. reflexivity.
Qed.

Lemma rasterize_shape_from (grid : R2Grid) (transformation : R3Affine)
    (world_bbox : R3Box) (node : NodeId) (acc : R2Grid * list XYGrid.Call)
    (shape : R3Shape) :
  XYGrid.rasterized_from grid acc ->
  XYGrid.rasterized_from grid (XYGrid.rasterize_shape transformation world_bbox node acc shape).
Proof.
  intros H. unfold XYGrid.rasterize_shape.
  destruct (negb (R3Intersects _ _)); [exact H|].
  destruct shape as [triangles|area]; [|exact H].
  apply fold_left_invariant; [|exact H].
  intros a t _ Ha. apply rasterize_triangle_from. exact Ha.
Qed.

Lemma RasterizeIntoXYGrid_from (grid : R2Grid) (scene : R3Scene) (world_bbox : R3Box)
    (fuel : nat) :
  forall (acc acc' : R2Grid * list XYGrid.Call) (node : NodeId)
         (parent_transformation : R3Affine),
    XYGrid.rasterized_from grid acc ->
    XYGrid.RasterizeIntoXYGrid fuel scene acc node parent_transformation world_bbox
    = Some acc' ->
    XYGrid.rasterized_from grid acc'.
Proof.
  induction fuel as [|fuel IH]; intros acc acc' node T Hacc H; [discriminate|].
  cbn [XYGrid.RasterizeIntoXYGrid] in H.
  destruct (Node scene node) as [nd|]; [|discriminate].
  destruct (negb (R3Intersects _ _)); [inversion H; subst; exact Hacc|].
  cbv zeta in H.
  set (T' := AffineTransform T (Transformation nd)) in *.
  assert (Hel : XYGrid.rasterized_from grid
                  (fold_left
                     (fun acc element =>
                        fold_left (XYGrid.rasterize_shape T' world_bbox node) element acc)
                     (Elements nd) acc)).
  { apply fold_left_invariant; [|exact Hacc].
    intros a element _ Ha. apply fold_left_invariant; [|exact Ha].
    intros a' shape _ Ha'. apply rasterize_shape_from. exact Ha'. }
  revert H Hel. generalize (fold_left
                              (fun acc element =>
                                 fold_left (XYGrid.rasterize_shape T' world_bbox node)
                                           element acc)
                              (Elements nd) acc).
  induction (Children nd) as [|child rest IHc]; intros a H Ha; cbn in H.
  - inversion H; subst. exact Ha.
  - destruct (XYGrid.RasterizeIntoXYGrid fuel scene a child T' world_bbox) as [a1|] eqn:E1;
      [|discriminate].
    exact (IHc a1 H (IH a a1 child T' Ha E1)).
Qed.

(** X27.  [RasterizeIntoXYGrid] draws whole triangles only: every
    triangle it hands to [RasterizeWorldTriangle] has all three vertices
    in the world box of the grid, so a triangle that reaches beyond the
    box is left out and not clipped; the grid it leaves is the grid after
    these calls, each with the value 1, and its world box is unchanged. *)
Theorem RasterizeIntoXYGrid_whole_triangles (fuel : nat) (scene : R3Scene) (grid : R2Grid)
    (node : NodeId) (parent_transformation : R3Affine) (world_bbox : R3Box)
    (grid' : R2Grid) (calls : list XYGrid.Call) :
  XYGrid.RasterizeIntoXYGrid fuel scene (grid, []) node parent_transformation world_bbox
  = Some (grid', calls) ->
  WorldBox grid' = WorldBox grid
  /\ Forall (XYGrid.inside (WorldBox grid)) calls
  /\ grid' = XYGrid.replay calls grid.
Proof.
  intros H.
  apply (RasterizeIntoXYGrid_from grid scene world_bbox fuel (grid, []) (grid', calls)
           node parent_transformation); [|exact H].
  split; [reflexivity|]. split; [constructor | reflexivity].
Qed.

End RasterizingFacts.

(** The chair with two triangles, one of them reaching beyond the grid:
    one call, for the triangle that lies in the box. *)
Lemma RasterizeIntoXYGrid_whole_triangles_witness :
  exists grid' calls,
    @XYGrid.RasterizeIntoXYGrid unit_affine filling_kernel 2 chair_scene
      (R2Grid_new 10 10 (mkR2Box 0 0 1 1), []) 0 tt room_box = Some (grid', calls)
    /\ length calls = 1%nat
    /\ WorldBox grid' = WorldBox (R2Grid_new 10 10 (mkR2Box 0 0 1 1))
    /\ Forall (@XYGrid.inside unit_affine filling_kernel
                 (WorldBox (R2Grid_new 10 10 (mkR2Box 0 0 1 1)))) calls
    /\ grid' = @XYGrid.replay unit_affine filling_kernel calls
                 (R2Grid_new 10 10 (mkR2Box 0 0 1 1)).
Proof.
  destruct (@XYGrid.RasterizeIntoXYGrid unit_affine filling_kernel 2 chair_scene
              (R2Grid_new 10 10 (mkR2Box 0 0 1 1), []) 0 tt room_box)
    as [[grid' calls]|] eqn:E; [|vm_compute in E; discriminate E].
  exists grid', calls. split; [reflexivity|]. split.
  - vm_compute in E. inversion E. reflexivity.
  - exact (@RasterizeIntoXYGrid_whole_triangles unit_affine filling_kernel
             (fun _ _ _ _ _ => eq_refl) 2 chair_scene
             (R2Grid_new 10 10 (mkR2Box 0 0 1 1)) 0 tt room_box grid' calls E).
Defined.
(** ** Wall cameras: one for a wall at most *)


Lemma subsequence_refl {A : Type} (l : list A) : subsequence l l.
Proof. induction l; constructor; assumption. Qed.



Section WallFacts.

Context {AK : AffineKernel} {RD : Renderer} {VS : ViewSampler}.
Variable cfg : Config.






End WallFacts.
(** ** The labels of the cameras *)

Section Labels.

Context {AK : AffineKernel} {RD : Renderer} {SQ : SceneQuery}
        {RZ : Rasterizer} {VS : ViewSampler}.
Variable cfg : Config.



End Labels.
(** ** The scene score when the product of the counts overflows *)


Section WrappedScore.

Context {AK : AffineKernel} {RD : Renderer}.
Variable cfg : Config.



End WrappedScore.






